(** * RFM customer segmentation of the Olist dashboard

    A shallow embedding of the RFM (recency, frequency, monetary) part of
    [dashboard/streamlit.py]: the order aggregation ([df_order_items_],
    [data_orders]), the recency computation ([recency_date], [recency]), the
    quintile scoring ([r_score], [f_score], [m_score]), the segment
    classifier ([rfm_segment]) and the segment summary ([data_rfm_summary]).
    The development also covers what surrounds it in the dashboard: the
    filter widgets and [get_filtered_data], the sales by location
    ([data_geo], [data_customers_filtered], the top-N chart), the
    distribution charts ([value_counts] of status, payment type, review
    score, category and seller) and the orders over time.

    Conventions of the embedding.
    - A pandas DataFrame is a list of records, one record per row, in row
      order.
    - A [float64] column holds exact rationals ([Q]); the three non-finite
      results a pandas division can produce (NaN, +inf, -inf) are kept as
      constructors of [float64]. Rounding error of binary floating point is
      not modelled.
    - A [datetime64] value is a number of nanoseconds ([Z]); [NaT] is [None].
    - Identifiers and labels are strings. *)

From Stdlib Require Import ZArith QArith Qround Qabs Qminmax List Bool String Ascii.
From Stdlib Require Import Lia Lqa Permutation Sorted DecimalString.
Import ListNotations.

(** ** Segment classifier *)

Module Classifier.

Local Open Scope string_scope.
Local Open Scope list_scope.

(** [score in [...]] on a list of strings. *)
Definition str_in (score : string) (codes : list string) : bool :=
  existsb (String.eqb score) codes.

(** [rfm_segment], streamlit.py lines 329-356, with the lists as written
    there (the repeated "545" and "243" included). *)
Definition rfm_segment (score : string) : string :=
  if str_in score ["555"; "554"; "545"; "544"; "545"; "455"; "445"] then
    "Champions"
  else if str_in score ["543"; "444"; "435"; "355"; "354"; "345"; "344"; "335"] then
    "Loyal"
  else if str_in score ["553"; "551"; "552"; "541"; "542"; "533"; "532"; "531"; "452"; "451"; "442"; "441";
                        "431"; "453"; "433"; "432"; "423"; "353"; "352"; "351"; "342"; "341"; "333"; "323"] then
    "Potential Loyalist"
  else if str_in score ["525"; "524"; "523"; "522"; "521"; "515"; "514"; "513"; "425"; "424"; "413"; "414";
                        "415"; "315"; "314"; "313"] then
    "Promising"
  else if str_in score ["512"; "511"; "422"; "421"; "412"; "411"; "311"] then
    "New Customers"
  else if str_in score ["535"; "534"; "443"; "434"; "343"; "334"; "325"; "324"] then
    "Need Attention"
  else if str_in score ["331"; "321"; "312"; "221"; "213"; "231"; "241"; "251"] then
    "About To Sleep"
  else if str_in score ["255"; "254"; "245"; "244"; "243"; "252"; "243"; "242"; "235"; "234"; "225"; "224";
                        "153"; "152"; "145"; "143"; "142"; "135"; "134"; "133"; "125"; "124"] then
    "At Risk"
  else if str_in score ["155"; "154"; "144"; "214"; "215"; "115"; "114"; "113"] then
    "Cannot Lose Them"
  else if str_in score ["332"; "322"; "233"; "232"; "223"; "222"; "132"; "123"; "122"; "212"; "211"] then
    "Hibernating Customers"
  else if str_in score ["111"; "112"; "121"; "131"; "141"; "151"] then
    "Lost Customers"
  else
    "Other".

(** The code table as the specification prints it (section 6): one entry
    per named segment, each with its enumerated codes. This definition
    follows the specification, not the source; it is what [rfm_segment] is
    compared with. *)
Definition spec_segment_table : list (string * list string) :=
  [ ("Champions", ["555"; "554"; "545"; "544"; "455"; "445"]);
    ("Loyal", ["543"; "444"; "435"; "355"; "354"; "345"; "344"; "335"]);
    ("Potential Loyalist",
     ["553"; "551"; "552"; "541"; "542"; "533"; "532"; "531"; "452"; "451"; "442"; "441";
      "431"; "453"; "433"; "432"; "423"; "353"; "352"; "351"; "342"; "341"; "333"; "323"]);
    ("Promising",
     ["525"; "524"; "523"; "522"; "521"; "515"; "514"; "513"; "425"; "424"; "413"; "414";
      "415"; "315"; "314"; "313"]);
    ("New Customers", ["512"; "511"; "422"; "421"; "412"; "411"; "311"]);
    ("Need Attention", ["535"; "534"; "443"; "434"; "343"; "334"; "325"; "324"]);
    ("About To Sleep", ["331"; "321"; "312"; "221"; "213"; "231"; "241"; "251"]);
    ("At Risk",
     ["255"; "254"; "245"; "244"; "243"; "252"; "242"; "235"; "234"; "225"; "224";
      "153"; "152"; "145"; "143"; "142"; "135"; "134"; "133"; "125"; "124"]);
    ("Cannot Lose Them", ["155"; "154"; "144"; "214"; "215"; "115"; "114"; "113"]);
    ("Hibernating Customers",
     ["332"; "322"; "233"; "232"; "223"; "222"; "132"; "123"; "122"; "212"; "211"]);
    ("Lost Customers", ["111"; "112"; "121"; "131"; "141"; "151"]) ].

(** The twelve labels: the eleven named segments and the catch-all. *)
Definition segment_labels : list string :=
  map fst spec_segment_table ++ ["Other"].

(** Whether a code is listed under some named segment of the table. *)
Definition listed (score : string) : bool :=
  existsb (fun entry => str_in score (snd entry)) spec_segment_table.

End Classifier.

(** ** Numbers of a [float64] column *)

Module Float.

Local Open Scope Q_scope.

Inductive float64 : Type :=
| Fin (q : Q)
| PosInf
| NegInf
| NaN.

(** Division of two finite floats as numpy does it: a zero divisor gives
    NaN or an infinity, never an exception. *)
Definition fdiv (x y : Q) : float64 :=
  if Qeq_bool y 0 then
    match x ?= 0 with
    | Eq => NaN
    | Lt => NegInf
    | Gt => PosInf
    end
  else Fin (x / y).

(** Multiplication of a float by a finite constant. *)
Definition fmul (a : float64) (k : Q) : float64 :=
  match a with
  | Fin q => Fin (q * k)
  | PosInf => match k ?= 0 with Gt => PosInf | Lt => NegInf | Eq => NaN end
  | NegInf => match k ?= 0 with Gt => NegInf | Lt => PosInf | Eq => NaN end
  | NaN => NaN
  end.

(** Nearest integer, halves to the even neighbour (numpy's [rint]). *)
Definition rint (q : Q) : Z :=
  let n := Qfloor q in
  match ((q - inject_Z n) ?= (1 # 2))%Q with
  | Lt => n
  | Gt => (n + 1)%Z
  | Eq => if Z.even n then n else (n + 1)%Z
  end.

(** [round(x, 2)] on a finite value: scale by 100, [rint], scale back. *)
Definition round2 (q : Q) : Q := inject_Z (rint (q * 100)) / 100.

(** [round(series, 2)] elementwise; non-finite values are kept. *)
Definition fround2 (a : float64) : float64 :=
  match a with
  | Fin q => Fin (round2 q)
  | other => other
  end.

(** [value >= bound] where [bound] may be non-finite: every comparison with
    NaN is false. *)
Definition ge (value : Q) (bound : float64) : bool :=
  match bound with
  | Fin b => Qle_bool b value
  | NegInf => true
  | PosInf => false
  | NaN => false
  end.

End Float.

(** ** Column and table operations of pandas *)

Module Frame.

Import Float.
Local Open Scope Q_scope.

(** [Series.sum()] of a float column without missing values. *)
Definition qsum (col : list Q) : Q := fold_right Qplus 0 col.

(** [Series.sum()] with the default [skipna=True]: NaN entries are left
    out, an all-NaN (or empty) column sums to 0. *)
Definition sum_skipna (col : list (option Q)) : Q :=
  fold_right (fun x acc => match x with Some q => q + acc | None => acc end) 0 col.

(** [Series.max()] of a datetime column: [NaT] entries are skipped, the
    result is [NaT] when nothing is left. *)
Definition max_skipna (col : list (option Z)) : option Z :=
  fold_right (fun x acc =>
                match x, acc with
                | Some a, Some b => Some (Z.max a b)
                | Some a, None => Some a
                | None, _ => acc
                end) None col.

(** [Series.min()] and [Series.max()] of a float column; NaN when empty. *)
Definition series_min (col : list Q) : float64 :=
  match col with
  | [] => NaN
  | x :: rest => Fin (fold_right Qmin x rest)
  end.

Definition series_max (col : list Q) : float64 :=
  match col with
  | [] => NaN
  | x :: rest => Fin (fold_right Qmax x rest)
  end.

(** [Series.cumsum()]. *)
Fixpoint cumsum_from (acc : Q) (col : list Q) : list Q :=
  match col with
  | [] => []
  | x :: rest => (acc + x) :: cumsum_from (acc + x) rest
  end.

Definition cumsum (col : list Q) : list Q := cumsum_from 0 col.

(** [sort_values]: rows ordered by a key, equal keys keeping their relative
    order. (pandas' default sort may order equal keys differently; nothing
    below depends on the order of equal keys.) *)
Fixpoint insert_by {A : Type} (leb : A -> A -> bool) (x : A) (l : list A) : list A :=
  match l with
  | [] => [x]
  | y :: rest => if leb x y then x :: l else y :: insert_by leb x rest
  end.

Definition sort_by {A : Type} (leb : A -> A -> bool) (l : list A) : list A :=
  fold_right (insert_by leb) [] l.

(** The distinct values of a key column. *)
Fixpoint dedup {A : Type} (eqb : A -> A -> bool) (l : list A) : list A :=
  match l with
  | [] => []
  | x :: rest => if existsb (eqb x) rest then dedup eqb rest else x :: dedup eqb rest
  end.

(** The group keys of [groupby]: distinct keys in key order. *)
Definition group_keys {A : Type} (eqb leb : A -> A -> bool) (keys : list A) : list A :=
  sort_by leb (dedup eqb keys).

(** [Series.nunique()] of a column. *)
Definition nunique {A : Type} (eqb : A -> A -> bool) (col : list A) : Z :=
  Z.of_nat (List.length (dedup eqb col)).

(** [Series.quantile(q)] with linear interpolation between the order
    statistics; NaN on an empty column. *)
Definition quantile (col : list Q) (q : Q) : float64 :=
  match sort_by Qle_bool col with
  | [] => NaN
  | sorted =>
      let pos := q * inject_Z (Z.of_nat (List.length sorted) - 1) in
      let lo := Qfloor pos in
      let frac := pos - inject_Z lo in
      let a := nth (Z.to_nat lo) sorted 0 in
      let b := nth (Z.to_nat (lo + 1)) sorted a in
      Fin (a + (b - a) * frac)
  end.

(** [astype(str)] of an integer. *)
Definition str_of_int (z : Z) : string := NilZero.string_of_int (Z.to_int z).

(** An exception raised by a pandas call. *)
Inductive exn : Type :=
| IntCastingNaNError.

Inductive result (A : Type) : Type :=
| Ok (a : A)
| Raise (e : exn).

Arguments Ok {A} a.
Arguments Raise {A} e.

Definition bind {A B : Type} (r : result A) (k : A -> result B) : result B :=
  match r with
  | Ok a => k a
  | Raise e => Raise e
  end.

(** [Series.fillna(v)] on a column with missing entries. *)
Definition fillna (v : Z) (col : list (option Z)) : list (option Z) :=
  map (fun x => match x with Some a => Some a | None => Some v end) col.

(** [Series.astype(int)]: raises when an entry is missing. *)
Fixpoint astype_int (col : list (option Z)) : result (list Z) :=
  match col with
  | [] => Ok []
  | None :: _ => Raise IntCastingNaNError
  | Some a :: rest => bind (astype_int rest) (fun r => Ok (a :: r))
  end.

End Frame.

(** ** The RFM pipeline of streamlit.py *)

Import Float Frame Classifier.
Local Open Scope Q_scope.

(** *** Order Aggregator (lines 73-79 and 256-267) *)

(** A row of [filtered_orders]. *)
Record order : Type := {
  order_id : string;
  customer_id : string;
  order_status : string;
  order_purchase_timestamp : option Z
}.

(** A row of [df_order_items]. *)
Record order_item : Type := {
  item_order_id : string;
  product_id : string;
  shipping_limit_date : Z;
  price : Q;
  freight_value : Q
}.

(** Line 73: the derived column [total_value] of [df_order_items]. *)
Definition item_total_value (i : order_item) : Q := price i + freight_value i.

(** A row of [df_order_items_]. *)
Record order_items_row : Type := {
  g_order_id : string;
  g_product_id : string;
  g_shipping_limit_date : Z;
  product_counts : Z;
  total_price : Q;
  total_value : Q
}.

(** The key of [groupby(by=["order_id", "product_id", "shipping_limit_date"])]. *)
Definition item_key : Type := (string * string * Z)%type.

Definition key_of (i : order_item) : item_key :=
  (item_order_id i, product_id i, shipping_limit_date i).

Definition key_eqb (a b : item_key) : bool :=
  let '(o1, p1, d1) := a in
  let '(o2, p2, d2) := b in
  String.eqb o1 o2 && String.eqb p1 p2 && Z.eqb d1 d2.

Definition key_leb (a b : item_key) : bool :=
  let '(o1, p1, d1) := a in
  let '(o2, p2, d2) := b in
  match String.compare o1 o2 with
  | Lt => true
  | Gt => false
  | Eq => match String.compare p1 p2 with
          | Lt => true
          | Gt => false
          | Eq => Z.leb d1 d2
          end
  end.

(** Lines 75-79: [df_order_items_]. *)
Definition df_order_items_ (df_order_items : list order_item) : list order_items_row :=
  map (fun k =>
         let rows := filter (fun i => key_eqb (key_of i) k) df_order_items in
         {| g_order_id := fst (fst k);
            g_product_id := snd (fst k);
            g_shipping_limit_date := snd k;
            product_counts := Z.of_nat (List.length rows);
            total_price := qsum (map price rows);
            total_value := qsum (map item_total_value rows) |})
      (group_keys key_eqb key_leb (map key_of df_order_items)).

(** A row of [filtered_orders.merge(df_order_items_, how="left", on="order_id")]:
    the order's columns and, when the order has items, the columns of one
    row of [df_order_items_]; [None] stands for the NaN-filled item columns
    of an order without items. *)
Record merged_row : Type := {
  m_order : order;
  m_items : option order_items_row
}.

(** The rows a left merge produces for one order: one per matching row of
    the right table, or a single NaN-filled row when nothing matches. *)
Definition merged_rows_of (o : order) (items_ : list order_items_row) : list merged_row :=
  match filter (fun g => String.eqb (g_order_id g) (order_id o)) items_ with
  | [] => [ {| m_order := o; m_items := None |} ]
  | matches => map (fun g => {| m_order := o; m_items := Some g |}) matches
  end.

Definition merge_left (filtered_orders : list order) (items_ : list order_items_row)
  : list merged_row :=
  flat_map (fun o => merged_rows_of o items_) filtered_orders.

(** A row of [data_orders] (a CustomerOrderProfile). *)
Record customer_row : Type := {
  c_customer_id : string;
  last_purchase_date : option Z;
  order_count : Z;
  c_total_price : Q
}.

(** Lines 256-267: [data_orders]. *)
Definition data_orders (filtered_orders : list order) (df_order_items : list order_item)
  : list customer_row :=
  let merged := merge_left filtered_orders (df_order_items_ df_order_items) in
  let delivered :=
    filter (fun m => String.eqb (order_status (m_order m)) "delivered") merged in
  let grouped :=
    map (fun c =>
           let rows := filter (fun m => String.eqb (customer_id (m_order m)) c) delivered in
           {| c_customer_id := c;
              last_purchase_date :=
                max_skipna (map (fun m => order_purchase_timestamp (m_order m)) rows);
              order_count := nunique String.eqb (map (fun m => order_id (m_order m)) rows);
              c_total_price :=
                sum_skipna (map (fun m => option_map total_price (m_items m)) rows) |})
        (group_keys String.eqb String.leb
           (map (fun m => customer_id (m_order m)) delivered)) in
  sort_by (fun a b => Z.leb (order_count b) (order_count a)) grouped.

(** *** Recency Calculator (lines 270-274) *)

(** [pd.Timedelta(days=1)] in nanoseconds. *)
Definition day : Z := 86400000000000.

(** Line 273: [recency_date]; the maximum of an all-NaT (or empty) column
    is NaT, and NaT plus a day is NaT. *)
Definition recency_date (dates : list (option Z)) : option Z :=
  option_map (fun m => (m + day)%Z) (max_skipna dates).

(** Line 274, the lambda: [(recency_date - x).days], the whole days of the
    difference; NaN when either date is NaT. *)
Definition days_since (anchor x : option Z) : option Z :=
  match anchor, x with
  | Some a, Some t => Some ((a - t) / day)%Z
  | _, _ => None
  end.

(** Line 274: the column [recency]. *)
Definition recency_column (dates : list (option Z)) : result (list Z) :=
  astype_int (fillna 0 (map (days_since (recency_date dates)) dates)).

(** [sort_values(by="last_purchase_date", ascending=True)]: NaT last. *)
Definition date_leb (a b : customer_row) : bool :=
  match last_purchase_date a, last_purchase_date b with
  | Some x, Some y => Z.leb x y
  | Some _, None => true
  | None, Some _ => false
  | None, None => true
  end.

(** *** Quantile Scorer (lines 277-320) *)

(** The Series returned by [quantile([0.2, 0.4, 0.6, 0.8])], read by label. *)
Record quartiles : Type := {
  q02 : float64;
  q04 : float64;
  q06 : float64;
  q08 : float64
}.

Definition quartiles_of (col : list Q) : quartiles :=
  {| q02 := quantile col (2 # 10);
     q04 := quantile col (4 # 10);
     q06 := quantile col (6 # 10);
     q08 := quantile col (8 # 10) |}.

(** Lines 282-292. *)
Definition r_score (value : Q) (r_quartiles : quartiles) : Z :=
  if ge value (q08 r_quartiles) then 1
  else if ge value (q06 r_quartiles) then 2
  else if ge value (q04 r_quartiles) then 3
  else if ge value (q02 r_quartiles) then 4
  else 5.

(** Lines 294-304. *)
Definition f_score (value : Q) (f_quartiles : quartiles) : Z :=
  if ge value (q08 f_quartiles) then 5
  else if ge value (q06 f_quartiles) then 4
  else if ge value (q04 f_quartiles) then 3
  else if ge value (q02 f_quartiles) then 2
  else 1.

(** Lines 306-316. *)
Definition m_score (value : Q) (m_quartiles : quartiles) : Z :=
  if ge value (q08 m_quartiles) then 5
  else if ge value (q06 m_quartiles) then 4
  else if ge value (q04 m_quartiles) then 3
  else if ge value (q02 m_quartiles) then 2
  else 1.

(** *** Segment Classifier applied to the table (lines 318-358) *)

(** A row of [df_rfm] (an RFMRecord). *)
Record rfm_row : Type := {
  customer_unique_id : string;
  rfm_last_purchase_date : option Z;
  freq : Z;
  monetary : Q;
  recency : Z;
  R_Score : Z;
  F_Score : Z;
  M_Score : Z;
  RFM_Score : string;
  Segment : string
}.

(** Lines 322-326: the three scores as strings, concatenated. *)
Definition rfm_code (r f m : Z) : string :=
  (str_of_int r ++ str_of_int f ++ str_of_int m)%string.

(** One row of [df_rfm] from its CustomerOrderProfile, its recency and the
    breakpoints of the population (lines 271 and 318-358). *)
Definition rfm_row_of (r_quartiles f_quartiles m_quartiles : quartiles)
  (c : customer_row) (days : Z) : rfm_row :=
  let r := r_score (inject_Z days) r_quartiles in
  let f := f_score (inject_Z (order_count c)) f_quartiles in
  let m := m_score (c_total_price c) m_quartiles in
  {| customer_unique_id := c_customer_id c;
     rfm_last_purchase_date := last_purchase_date c;
     freq := order_count c;
     monetary := c_total_price c;
     recency := days;
     R_Score := r;
     F_Score := f;
     M_Score := m;
     RFM_Score := rfm_code r f m;
     Segment := rfm_segment (rfm_code r f m) |}.

(** Lines 270-358: [df_rfm]. *)
Definition df_rfm (data_orders : list customer_row) : result (list rfm_row) :=
  let base := sort_by date_leb data_orders in
  bind (recency_column (map last_purchase_date base)) (fun days =>
    let r_quartiles := quartiles_of (map inject_Z days) in
    let f_quartiles := quartiles_of (map (fun c => inject_Z (order_count c)) base) in
    let m_quartiles := quartiles_of (map c_total_price base) in
    Ok (map (fun cd => rfm_row_of r_quartiles f_quartiles m_quartiles (fst cd) (snd cd))
            (combine base days))).

(** *** Segment Summarizer (lines 365-394) *)

(** Line 365: [filtered_rfm]. *)
Definition filtered_rfm (rows : list rfm_row) (selected_segments : list string)
  : list rfm_row :=
  filter (fun r => str_in (Segment r) selected_segments) rows.

(** A row of [data_rfm_summary] as displayed (line 390). *)
Record summary_row : Type := {
  s_Segment : string;
  customer_count : Z;
  total_monetary : Q;
  total_monetary_percent : float64;
  total_monetary_scaling : float64
}.

(** Lines 368-376: the groups, as (Segment, customer_count, total_monetary). *)
Definition segment_groups (rows : list rfm_row) : list (string * Z * Q) :=
  map (fun s =>
         let members := filter (fun r => String.eqb (Segment r) s) rows in
         (s, Z.of_nat (List.length members), qsum (map monetary members)))
      (group_keys String.eqb String.leb (map Segment rows)).

(** Lines 383-386, the lambda: min-max scaling against the column, guarded
    against a zero range. *)
Definition scaling (totals : list Q) (x : Q) : float64 :=
  match series_max totals, series_min totals with
  | Fin mx, Fin mn =>
      if negb (Qeq_bool (mx - mn) 0) then fdiv (x - mn) (mx - mn) else Fin 0
  | _, _ => NaN
  end.

(** Lines 368-386: [data_rfm_summary] with its two derived columns. *)
Definition data_rfm_summary (rows : list rfm_row) : list summary_row :=
  let groups := segment_groups rows in
  let totals := map snd groups in
  let total_monetary_all := qsum totals in
  map (fun g =>
         {| s_Segment := fst (fst g);
            customer_count := snd (fst g);
            total_monetary := snd g;
            total_monetary_percent := fround2 (fmul (fdiv (snd g) total_monetary_all) 100);
            total_monetary_scaling := scaling totals (snd g) |})
      groups.

(** A row of the Pareto table: a summary row and its [Cumulative_%]. *)
Record pareto_row : Type := {
  p_summary : summary_row;
  Cumulative_pct : float64
}.

(** Lines 393-394: rows by [total_monetary] descending, then the cumulative
    sum divided by the column sum, times 100. *)
Definition pareto (summary : list summary_row) : list pareto_row :=
  let sorted := sort_by (fun a b => Qle_bool (total_monetary b) (total_monetary a)) summary in
  let totals := map total_monetary sorted in
  map (fun rc => {| p_summary := fst rc;
                    Cumulative_pct := fmul (fdiv (snd rc) (qsum totals)) 100 |})
      (combine sorted (cumsum totals)).

(** The cumulative percentage as the specification words it: the running
    sum of each group's own share [total_monetary / grand_total * 100].
    This definition follows the specification; [pareto] is compared with it. *)
Definition spec_cumulative_percent (totals : list Q) : list Q :=
  cumsum (map (fun t => t / qsum totals * 100) totals).

(** *** The stages chained (lines 256-394) *)

Record tables : Type := {
  t_data_orders : list customer_row;
  t_df_rfm : list rfm_row;
  t_summary : list summary_row;
  t_pareto : list pareto_row
}.

Definition pipeline (filtered_orders : list order) (df_order_items : list order_item)
  (selected_segments : list string) : result tables :=
  let profiles := data_orders filtered_orders df_order_items in
  bind (df_rfm profiles) (fun rfm =>
    let summary := data_rfm_summary (filtered_rfm rfm selected_segments) in
    Ok {| t_data_orders := profiles;
          t_df_rfm := rfm;
          t_summary := summary;
          t_pareto := pareto summary |}).

(** ** Reference quantities and sample tables *)

(** A population of five CustomerOrderProfile rows whose scores are all in
    range. *)
Definition five_customers : list customer_row :=
  [ {| c_customer_id := "a"; last_purchase_date := Some (50 * day)%Z;
       order_count := 1; c_total_price := 10 |};
    {| c_customer_id := "b"; last_purchase_date := Some (40 * day)%Z;
       order_count := 9; c_total_price := 40 |};
    {| c_customer_id := "c"; last_purchase_date := Some (30 * day)%Z;
       order_count := 2; c_total_price := 20 |};
    {| c_customer_id := "d"; last_purchase_date := Some (20 * day)%Z;
       order_count := 9; c_total_price := 30 |};
    {| c_customer_id := "e"; last_purchase_date := Some (10 * day)%Z;
       order_count := 4; c_total_price := 50 |} ].

(** The entry of the column [recency] for one date: the whole days since
    the date, 0 where that is missing. *)
Definition recency_of (anchor x : option Z) : Z :=
  match days_since anchor x with
  | Some d => d
  | None => 0%Z
  end.

(** [df_rfm] read row by row: the rows of [data_orders] in date order, each
    completed with its recency, scores, code and segment. Proved below to
    be what [df_rfm] returns. *)
Definition rfm_rows_of (data_orders : list customer_row) : list rfm_row :=
  let base := sort_by date_leb data_orders in
  let anchor := recency_date (map last_purchase_date base) in
  let days := map (fun c => recency_of anchor (last_purchase_date c)) base in
  let r_quartiles := quartiles_of (map inject_Z days) in
  let f_quartiles := quartiles_of (map (fun c => inject_Z (order_count c)) base) in
  let m_quartiles := quartiles_of (map c_total_price base) in
  map (fun c => rfm_row_of r_quartiles f_quartiles m_quartiles c
                  (recency_of anchor (last_purchase_date c)))
      base.

(** [m] is the latest date of a column. *)
Definition is_max_date (m : Z) (dates : list (option Z)) : Prop :=
  In (Some m) dates /\ forall t, In (Some t) dates -> (t <= m)%Z.

(** [m] is the least, respectively greatest, entry of a column. *)
Definition is_min_of (m : Q) (col : list Q) : Prop :=
  In m col /\ forall x, In x col -> m <= x.

Definition is_max_of (m : Q) (col : list Q) : Prop :=
  In m col /\ forall x, In x col -> x <= m.

(** The character of a decimal digit. *)
Definition digit_char (z : Z) : ascii := ascii_of_nat (48 + Z.to_nat z).

(** A population with a customer whose last purchase date is missing. *)
Definition four_customers : list customer_row :=
  [ {| c_customer_id := "C1"; last_purchase_date := Some (30 * day)%Z;
       order_count := 5; c_total_price := 1000 |};
    {| c_customer_id := "C2"; last_purchase_date := Some (1 * day)%Z;
       order_count := 1; c_total_price := 50 |};
    {| c_customer_id := "C3"; last_purchase_date := Some (16 * day)%Z;
       order_count := 3; c_total_price := 500 |};
    {| c_customer_id := "C4"; last_purchase_date := None;
       order_count := 1; c_total_price := 20 |} ].

(** The first row of the summary of [five_customers]. *)
Definition sample_summary_row : summary_row :=
  nth 0 (data_rfm_summary (rfm_rows_of five_customers))
      {| s_Segment := EmptyString; customer_count := 0; total_monetary := 0;
         total_monetary_percent := NaN; total_monetary_scaling := NaN |}.

(** A delivered order that has no row in the order-items table, and the RFM
    rows of the population made of its customer alone. *)
Definition order_without_items : order :=
  {| order_id := "o1"; customer_id := "c1"; order_status := "delivered";
     order_purchase_timestamp := Some (10 * day)%Z |}.

Definition zero_total_rows : list rfm_row :=
  rfm_rows_of (data_orders [order_without_items] []).

(** The delivered orders of a customer, and the items of an order. *)
Definition customer_delivered_orders (orders : list order) (c : string) : list order :=
  filter (fun o => String.eqb (customer_id o) c)
         (filter (fun o => String.eqb (order_status o) "delivered") orders).

Definition items_of_order (items : list order_item) (o : order) : list order_item :=
  filter (fun i => String.eqb (item_order_id i) (order_id o)) items.

(** The monetary total as the specification words it: the sum of
    [price + freight_value] over the items of the customer's delivered
    orders. This definition follows the specification. *)
Definition spec_total_monetary (orders : list order) (items : list order_item)
  (c : string) : Q :=
  qsum (map (fun o => qsum (map (fun i => price i + freight_value i) (items_of_order items o)))
            (customer_delivered_orders orders c)).

(** The sum of [price] alone over the same items. *)
Definition price_total (orders : list order) (items : list order_item) (c : string) : Q :=
  qsum (map (fun o => qsum (map price (items_of_order items o)))
            (customer_delivered_orders orders c)).

(** One delivered order with one item that has a freight charge. *)
Definition one_order : list order :=
  [ {| order_id := "o1"; customer_id := "c1"; order_status := "delivered";
       order_purchase_timestamp := Some (10 * day)%Z |} ].

Definition one_item : list order_item :=
  [ {| item_order_id := "o1"; product_id := "p1"; shipping_limit_date := (12 * day)%Z;
       price := 10; freight_value := 5 |} ].

(** Orders of which none is delivered. *)
Definition undelivered_orders : list order :=
  [ {| order_id := "o1"; customer_id := "c1"; order_status := "shipped";
       order_purchase_timestamp := Some (10 * day)%Z |};
    {| order_id := "o2"; customer_id := "c2"; order_status := "canceled";
       order_purchase_timestamp := Some (11 * day)%Z |} ].

(** Three RFM records in three segments with the same monetary value. *)
Definition tied_row (id segment : string) : rfm_row :=
  {| customer_unique_id := id; rfm_last_purchase_date := Some (10 * day)%Z;
     freq := 1; monetary := 1; recency := 1;
     R_Score := 5; F_Score := 5; M_Score := 5;
     RFM_Score := "555"; Segment := segment |}.

Definition tied_rows : list rfm_row :=
  [ tied_row "a" "Champions"; tied_row "b" "Loyal"; tied_row "c" "Other" ].

(** ** Further reference quantities *)

(** The interpolation step of [quantile], on the sorted column: the value
    at a fractional position. [quantile col q] is
    [interpolate sorted (q * (n - 1))]. *)
Definition interpolate (sorted : list Q) (pos : Q) : Q :=
  let lo := Qfloor pos in
  let frac := pos - inject_Z lo in
  let a := nth (Z.to_nat lo) sorted 0 in
  let b := nth (Z.to_nat (lo + 1)) sorted a in
  a + (b - a) * frac.

(** The sum of an integer column. *)
Definition zsum (col : list Z) : Z := fold_right Z.add 0%Z col.

(** The order of [sort_values] on a date column: dates ascending, missing
    dates last. *)
Definition date_le (a b : option Z) : Prop :=
  match a, b with
  | Some x, Some y => (x <= y)%Z
  | _, None => True
  | None, Some _ => False
  end.

(** Orders of three customers, one of them not delivered, and their items;
    the first order has three item rows in two groups. *)
Definition sample_orders : list order :=
  [ {| order_id := "o1"; customer_id := "c1"; order_status := "delivered";
       order_purchase_timestamp := Some (10 * day)%Z |};
    {| order_id := "o2"; customer_id := "c2"; order_status := "delivered";
       order_purchase_timestamp := Some (3 * day + 5)%Z |};
    {| order_id := "o3"; customer_id := "c1"; order_status := "shipped";
       order_purchase_timestamp := Some (12 * day)%Z |};
    {| order_id := "o4"; customer_id := "c3"; order_status := "canceled";
       order_purchase_timestamp := Some (2 * day)%Z |};
    {| order_id := "o5"; customer_id := "c1"; order_status := "delivered";
       order_purchase_timestamp := Some (1 * day)%Z |} ].

Definition sample_items : list order_item :=
  [ {| item_order_id := "o1"; product_id := "p1"; shipping_limit_date := (11 * day)%Z;
       price := 10; freight_value := 5 |};
    {| item_order_id := "o1"; product_id := "p1"; shipping_limit_date := (11 * day)%Z;
       price := 10; freight_value := 5 |};
    {| item_order_id := "o1"; product_id := "p2"; shipping_limit_date := (11 * day)%Z;
       price := 7 # 2; freight_value := 1 |};
    {| item_order_id := "o2"; product_id := "p2"; shipping_limit_date := (4 * day)%Z;
       price := 100; freight_value := 1 |};
    {| item_order_id := "o5"; product_id := "p2"; shipping_limit_date := (2 * day)%Z;
       price := 1; freight_value := 1 |} ].

(** [Series.unique()]: the distinct values of a column, in the order of
    their first appearance. *)
Fixpoint unique_from {A : Type} (eqb : A -> A -> bool) (seen l : list A) : list A :=
  match l with
  | [] => []
  | x :: rest =>
      if existsb (eqb x) seen then unique_from eqb seen rest
      else x :: unique_from eqb (x :: seen) rest
  end.

Definition unique {A : Type} (eqb : A -> A -> bool) (l : list A) : list A :=
  unique_from eqb [] l.

(** Line 361: [unique_segments], the options (and the default selection)
    of the segment filter. *)
Definition unique_segments (rows : list rfm_row) : list string :=
  sort_by String.leb (unique String.eqb (map Segment rows)).

(** ** The date and location filter (lines 119-142) *)

(** A row of [df_customers]. *)
Record customer : Type := {
  cust_customer_id : string;
  customer_city : string;
  customer_state : string
}.

(** A row of [df_order_payments] and of [df_order_reviews]. *)
Record payment : Type := {
  pay_order_id : string;
  payment_type : string
}.

Record review : Type := {
  rev_order_id : string;
  review_score : Z
}.

(** A row of [filtered_orders] after the merge with the customers: the
    order and the customer's city and state. *)
Record located_order : Type := {
  lo_order : order;
  lo_city : string;
  lo_state : string
}.

(** The four tables [get_filtered_data] returns. *)
Record filtered_data : Type := {
  filtered_orders : list located_order;
  filtered_order_items : list order_item;
  filtered_order_payments : list payment;
  filtered_order_reviews : list review
}.

(** The outcome of a call that may raise [IndexError]. *)
Inductive outcome (A : Type) : Type :=
| Returned (a : A)
| IndexError.

Arguments Returned {A} a.
Arguments IndexError {A}.

(** [t[i]] on a tuple, for an index that is not negative. *)
Definition tuple_item {A : Type} (t : list A) (i : nat) : outcome A :=
  match nth_error t i with
  | Some a => Returned a
  | None => IndexError
  end.

(** [.dt.date] of a timestamp, as a day number. *)
Definition date_of (t : Z) : Z := (t / day)%Z.

(** The mask of lines 122-123; a comparison with a missing date is false. *)
Definition date_in_range (first last : Z) (ts : option Z) : bool :=
  match ts with
  | Some t => (first <=? date_of t)%Z && (date_of t <=? last)%Z
  | None => false
  end.

(** An inner merge of the orders with the customers on [customer_id]: the
    rows for one order. *)
Definition located_rows_of (o : order) (customers : list customer) : list located_order :=
  map (fun c => {| lo_order := o; lo_city := customer_city c; lo_state := customer_state c |})
      (filter (fun c => String.eqb (cust_customer_id c) (customer_id o)) customers).

(** Lines 119-140: [get_filtered_data]; the tables it reads as globals are
    its first five arguments. *)
Definition get_filtered_data (df_orders : list order) (df_customers : list customer)
  (df_order_items : list order_item) (df_order_payments : list payment)
  (df_order_reviews : list review)
  (date_range : list Z) (selected_states selected_cities : list string)
  : outcome filtered_data :=
  match tuple_item date_range 0 with
  | IndexError => IndexError
  | Returned first =>
      match tuple_item date_range 1 with
      | IndexError => IndexError
      | Returned last =>
          let in_range :=
            filter (fun o => date_in_range first last (order_purchase_timestamp o))
                   df_orders in
          let filtered_customers :=
            filter (fun c => str_in (customer_state c) selected_states
                             && str_in (customer_city c) selected_cities)
                   df_customers in
          let merged := flat_map (fun o => located_rows_of o filtered_customers) in_range in
          let filtered_order_ids :=
            unique String.eqb (map (fun l => order_id (lo_order l)) merged) in
          Returned
            {| filtered_orders := merged;
               filtered_order_items :=
                 filter (fun i => str_in (item_order_id i) filtered_order_ids) df_order_items;
               filtered_order_payments :=
                 filter (fun p => str_in (pay_order_id p) filtered_order_ids) df_order_payments;
               filtered_order_reviews :=
                 filter (fun r => str_in (rev_order_id r) filtered_order_ids) df_order_reviews |}
      end
  end.

(** Tables for the filter: three orders on three days, two customers. *)
Definition filter_orders : list order :=
  [ {| order_id := "o1"; customer_id := "c1"; order_status := "delivered";
       order_purchase_timestamp := Some (10 * day + 3600)%Z |};
    {| order_id := "o2"; customer_id := "c2"; order_status := "delivered";
       order_purchase_timestamp := Some (11 * day)%Z |};
    {| order_id := "o3"; customer_id := "c1"; order_status := "shipped";
       order_purchase_timestamp := Some (20 * day)%Z |} ].

Definition filter_customers : list customer :=
  [ {| cust_customer_id := "c1"; customer_city := "sao paulo"; customer_state := "SP" |};
    {| cust_customer_id := "c2"; customer_city := "rio de janeiro"; customer_state := "RJ" |} ].

(** ** Sales by location (lines 150-172) *)

(** A row of [df_geolocation]. *)
Record geolocation : Type := {
  geolocation_zip_code_prefix : Z;
  geolocation_lat : Q;
  geolocation_lng : Q;
  geolocation_city : string;
  geolocation_state : string
}.

(** A (city, state) pair, the key of the two [groupby]s. *)
Definition place : Type := (string * string)%type.

Definition place_eqb (a b : place) : bool :=
  String.eqb (fst a) (fst b) && String.eqb (snd a) (snd b).

Definition place_leb (a b : place) : bool :=
  match String.compare (fst a) (fst b) with
  | Lt => true
  | Gt => false
  | Eq => String.leb (snd a) (snd b)
  end.

Definition geo_place (g : geolocation) : place :=
  (geolocation_city g, geolocation_state g).

Definition order_place (l : located_order) : place := (lo_city l, lo_state l).

(** [groupby(key).head(1)]: the first row of each group, in row order. *)
Fixpoint head1_from {A K : Type} (key : A -> K) (eqb : K -> K -> bool)
  (seen : list K) (l : list A) : list A :=
  match l with
  | [] => []
  | x :: rest =>
      if existsb (eqb (key x)) seen then head1_from key eqb seen rest
      else x :: head1_from key eqb (key x :: seen) rest
  end.

(** Lines 150-155: [data_geo]. *)
Definition data_geo (df_geolocation : list geolocation) : list geolocation :=
  head1_from geo_place place_eqb []
    (sort_by (fun a b => Z.leb (geolocation_zip_code_prefix a) (geolocation_zip_code_prefix b))
             df_geolocation).

(** A row of [data_customers_filtered]: the place, its two aggregates and
    the geolocation row merged to it. *)
Record location_sales : Type := {
  ls_place : place;
  orders_count : Z;
  ls_total_value : Q;
  ls_geo : geolocation
}.

(** An inner merge of the located orders with the items on [order_id]. *)
Definition merge_inner (orders : list located_order) (items : list order_item)
  : list (located_order * order_item) :=
  flat_map (fun l =>
              map (fun i => (l, i))
                  (filter (fun i => String.eqb (item_order_id i) (order_id (lo_order l)))
                          items))
           orders.

(** Lines 157-172: [data_customers_filtered], from the filtered orders,
    the filtered items and [data_geo]. *)
Definition data_customers_filtered (filtered_orders : list located_order)
  (filtered_order_items : list order_item) (data_geo : list geolocation)
  : list location_sales :=
  let delivered :=
    filter (fun li => String.eqb (order_status (lo_order (fst li))) "delivered")
           (merge_inner filtered_orders filtered_order_items) in
  let grouped :=
    map (fun k =>
           let rows := filter (fun li => place_eqb (order_place (fst li)) k) delivered in
           (k,
            nunique String.eqb (map (fun li => order_id (lo_order (fst li))) rows),
            qsum (map (fun li => item_total_value (snd li)) rows)))
        (group_keys place_eqb place_leb (map (fun li => order_place (fst li)) delivered)) in
  let sorted := sort_by (fun a b => Z.leb (snd (fst b)) (snd (fst a))) grouped in
  flat_map (fun g =>
              map (fun geo => {| ls_place := fst (fst g);
                                 orders_count := snd (fst g);
                                 ls_total_value := snd g;
                                 ls_geo := geo |})
                  (filter (fun geo => place_eqb (fst (fst g)) (geo_place geo)) data_geo))
           sorted.

(** The delivered orders of a place. *)
Definition delivered_at (orders : list located_order) (p : place) : list located_order :=
  filter (fun l => place_eqb (order_place l) p)
         (filter (fun l => String.eqb (order_status (lo_order l)) "delivered") orders).

(** Whether an order has a row in the items table. *)
Definition has_items (items : list order_item) (l : located_order) : bool :=
  existsb (fun i => String.eqb (item_order_id i) (order_id (lo_order l))) items.

(** Geolocation rows of two cities, and two located orders. *)
Definition sample_geo : list geolocation :=
  [ {| geolocation_zip_code_prefix := 1046; geolocation_lat := -(2355 # 100);
       geolocation_lng := -(4663 # 100);
       geolocation_city := "sao paulo"; geolocation_state := "SP" |};
    {| geolocation_zip_code_prefix := 20000; geolocation_lat := -(2290 # 100);
       geolocation_lng := -(4317 # 100);
       geolocation_city := "rio de janeiro"; geolocation_state := "RJ" |};
    {| geolocation_zip_code_prefix := 1001; geolocation_lat := -(2354 # 100);
       geolocation_lng := -(4664 # 100);
       geolocation_city := "sao paulo"; geolocation_state := "SP" |} ].

Definition sample_located : list located_order :=
  [ {| lo_order := {| order_id := "o1"; customer_id := "c1"; order_status := "delivered";
                      order_purchase_timestamp := Some (10 * day)%Z |};
       lo_city := "sao paulo"; lo_state := "SP" |};
    {| lo_order := {| order_id := "o2"; customer_id := "c2"; order_status := "delivered";
                      order_purchase_timestamp := Some (3 * day + 5)%Z |};
       lo_city := "rio de janeiro"; lo_state := "RJ" |};
    {| lo_order := {| order_id := "o9"; customer_id := "c9"; order_status := "delivered";
                      order_purchase_timestamp := Some (4 * day)%Z |};
       lo_city := "sao paulo"; lo_state := "SP" |} ].

(** Line 183: [data_customers_filtered.head(top_n_geo)]. *)
Definition top_n (top_n_geo : nat) (table : list location_sales) : list location_sales :=
  firstn top_n_geo table.

(** Line 185: [max_orders], the greatest [orders_count] of the rows shown,
    0 when there is none. *)
Definition max_orders (shown : list location_sales) : Z :=
  match map orders_count shown with
  | [] => 0%Z
  | c :: rest => fold_right Z.max c rest
  end.

(** Lines 183-248: what the top-N chart shows: the bars and the range of
    the axis of the order counts, or the message that there is no data. *)
Inductive geo_chart : Type :=
| Chart (bars : list location_sales) (y_range : Z * Z)
| NoData.

Definition top_sales_chart (top_n_geo : nat) (table : list location_sales) : geo_chart :=
  match top_n top_n_geo table with
  | [] => NoData
  | shown => Chart shown (0, max_orders shown + 1000)%Z
  end.

(** ** The filter widgets (lines 105-116) *)

(** [Series.min()] of a datetime column, as [max_skipna]. *)
Definition min_skipna (col : list (option Z)) : option Z :=
  fold_right (fun x acc =>
                match x, acc with
                | Some a, Some b => Some (Z.min a b)
                | Some a, None => Some a
                | None, _ => acc
                end) None col.

(** Lines 105-107: the default value of the date input, [[min_date,
    max_date]], the dates of the earliest and of the latest purchase.
    [None] when no order has a purchase timestamp: [min()] is [NaT] then,
    and what the widget does with it is not modelled. *)
Definition default_date_range (df_orders : list order) : option (list Z) :=
  match min_skipna (map order_purchase_timestamp df_orders),
        max_skipna (map order_purchase_timestamp df_orders) with
  | Some earliest, Some latest => Some [date_of earliest; date_of latest]
  | _, _ => None
  end.

(** Line 110: [unique_states], the options and the default selection of
    the state filter. *)
Definition unique_states (df_customers : list customer) : list string :=
  sort_by String.leb (unique String.eqb (map customer_state df_customers)).

(** Lines 114-115: [unique_cities], the options and the default selection
    of the city filter, from the customers of the selected states. *)
Definition unique_cities (df_customers : list customer) (selected_states : list string)
  : list string :=
  let filtered_customers :=
    filter (fun c => str_in (customer_state c) selected_states) df_customers in
  sort_by String.leb (unique String.eqb (map customer_city filtered_customers)).

(** Whether an order has a purchase timestamp. *)
Definition dated (o : order) : bool :=
  match order_purchase_timestamp o with
  | Some _ => true
  | None => false
  end.

(** ** The distribution charts (lines 449-542; [dashboard.py], lines 92-156) *)

(** The entries of a column that are not missing. *)
Definition dropna {K : Type} (col : list (option K)) : list K :=
  flat_map (fun v => match v with Some k => [k] | None => [] end) col.

(** [Series.value_counts()]: missing entries are dropped; every value that
    is left gets the number of its occurrences; greatest count first. *)
Definition value_counts {K : Type} (eqb : K -> K -> bool) (col : list (option K))
  : list (K * Z) :=
  let present := dropna col in
  sort_by (fun a b => Z.leb (snd b) (snd a))
          (map (fun k => (k, Z.of_nat (List.length (filter (fun x => eqb x k) present))))
               (unique eqb present)).

(** Line 449 (and [dashboard.py], line 92): [status_counts]. *)
Definition status_counts (filtered_orders : list located_order) : list (string * Z) :=
  value_counts String.eqb (map (fun l => Some (order_status (lo_order l))) filtered_orders).

(** Line 482 (and [dashboard.py], line 113): [payment_counts]. *)
Definition payment_counts (filtered_order_payments : list payment) : list (string * Z) :=
  value_counts String.eqb (map (fun p => Some (payment_type p)) filtered_order_payments).

(** Line 494 (and [dashboard.py], line 125): [review_counts],
    [value_counts().sort_index()]. *)
Definition review_counts (filtered_order_reviews : list review) : list (Z * Z) :=
  sort_by (fun a b => Z.leb (fst a) (fst b))
          (value_counts Z.eqb (map (fun r => Some (review_score r)) filtered_order_reviews)).

(** A row of [df_products]: its id and its category, which may be missing. *)
Record product : Type := {
  prod_product_id : string;
  product_category_name : option string
}.

(** Lines 510-511: [filtered_products], the products of the filtered items. *)
Definition filtered_products (filtered_order_items : list order_item)
  (df_products : list product) : list product :=
  let filtered_product_ids := unique String.eqb (map product_id filtered_order_items) in
  filter (fun p => str_in (prod_product_id p) filtered_product_ids) df_products.

(** Lines 514-518: the left merge of the items with the categories on
    [product_id]; an item without a product gets a missing category. *)
Definition with_category (items : list order_item) (products : list product)
  : list (order_item * option string) :=
  flat_map (fun i =>
              match filter (fun p => String.eqb (prod_product_id p) (product_id i)) products with
              | [] => [(i, None)]
              | found => map (fun p => (i, product_category_name p)) found
              end)
           items.

(** [fillna] on a column of strings. *)
Definition fillna_str (v : string) (x : option string) : string :=
  match x with
  | Some s => s
  | None => v
  end.

(** Line 521: [category_sales]. *)
Definition category_sales (filtered_order_items : list order_item)
  (df_products : list product) : list (string * Z) :=
  value_counts String.eqb
    (map (fun row => Some (fillna_str "Unknown" (snd row)))
         (with_category filtered_order_items
            (filtered_products filtered_order_items df_products))).

(** Lines 524-525: [top_categories]. *)
Definition top_categories (top_n_prod : nat) (filtered_order_items : list order_item)
  (df_products : list product) : list (string * Z) :=
  firstn top_n_prod (category_sales filtered_order_items df_products).

(** Lines 541-542 (and [dashboard.py], line 156, with 15): [seller_order_counts],
    from the column [seller_id] of the items. *)
Definition seller_order_counts (top_n_seller : nat) (seller_id : list string)
  : list (string * Z) :=
  firstn top_n_seller (value_counts String.eqb (map Some seller_id)).

(** The number of occurrences of a value in a column. *)
Definition occurrences {K : Type} (eqb : K -> K -> bool) (k : K) (col : list K) : Z :=
  Z.of_nat (List.length (filter (fun x => eqb x k) col)).

(** ** Orders over time (lines 455-464) *)

(** The three choices of the select box. *)
Inductive aggregation : Type := Harian | Mingguan | Bulanan.

(** The week of a day, for weeks from Monday to Sunday ([to_period("W")]):
    day 0, 1 January 1970, is a Thursday, and day 4 is the first Monday. *)
Definition week_of (d : Z) : Z := ((d - 4) / 7)%Z.

(** The month of a day ([to_period("M")]), counted in months since year 0
    of the proleptic Gregorian calendar: twelve times the year plus the
    month less one. *)
Definition month_of (d : Z) : Z :=
  (let z := d + 719468 in
   let era := z / 146097 in
   let doe := z - era * 146097 in
   let yoe := (doe - doe / 1460 + doe / 36524 - doe / 146096) / 365 in
   let doy := doe - (365 * yoe + yoe / 4 - yoe / 100) in
   let mp := (5 * doy + 2) / 153 in
   let m := if mp <? 10 then mp + 3 else mp - 9 in
   let y := yoe + era * 400 + (if m <=? 2 then 1 else 0) in
   12 * y + (m - 1))%Z.

(** The period of a day under an aggregation. *)
Definition period_of_date (a : aggregation) (d : Z) : Z :=
  match a with
  | Harian => d
  | Mingguan => week_of d
  | Bulanan => month_of d
  end.

(** Lines 457-462: [group_col]; missing where the timestamp is. *)
Definition group_col (a : aggregation) (filtered_orders : list located_order)
  : list (option Z) :=
  map (fun l => match order_purchase_timestamp (lo_order l) with
                | Some t => Some (period_of_date a (date_of t))
                | None => None
                end)
      filtered_orders.

(** Line 464: [orders_over_time], [groupby(group_col).size()]: one row per
    period in ascending order; rows with a missing key are in no group. *)
Definition orders_over_time (a : aggregation) (filtered_orders : list located_order)
  : list (Z * Z) :=
  let keys := dropna (group_col a filtered_orders) in
  map (fun k => (k, Z.of_nat (List.length (filter (fun x => Z.eqb x k) keys))))
      (group_keys Z.eqb Z.leb keys).

(** [table] is the distribution of the column [col]: its values are
    pairwise different, a value has a row exactly when it occurs in the
    column, its count is the number of its occurrences, which is at least
    one, and the counts add up to the length of the column. *)
Definition distribution_of {K : Type} (eqb : K -> K -> bool) (table : list (K * Z))
  (col : list K) : Prop :=
  NoDup (map fst table)
  /\ (forall k n, In (k, n) table <-> In k col /\ n = occurrences eqb k col)
  /\ (forall k n, In (k, n) table -> (1 <= n)%Z)
  /\ zsum (map snd table) = Z.of_nat (List.length col).

(** The category under which the chart counts an item: that of the first
    product of its id, ["Unknown"] when there is no such product or the
    product has no category. *)
Definition category_of (df_products : list product) (i : order_item) : string :=
  match find (fun p => String.eqb (prod_product_id p) (product_id i)) df_products with
  | Some p => fillna_str "Unknown" (product_category_name p)
  | None => "Unknown"
  end.

(** Whether an order was purchased in a period. *)
Definition in_period (a : aggregation) (p : Z) (l : located_order) : bool :=
  match order_purchase_timestamp (lo_order l) with
  | Some t => Z.eqb (period_of_date a (date_of t)) p
  | None => false
  end.

(** Two products, one without a category. *)
Definition sample_products : list product :=
  [ {| prod_product_id := "p1"; product_category_name := Some "toys"%string |};
    {| prod_product_id := "p2"; product_category_name := None |} ].

(** * Properties *)

(** ** The segment table *)

Section ClassifierFacts.

Local Open Scope string_scope.

Lemma str_in_In (score : string) (codes : list string) :
  str_in score codes = true <-> In score codes.
Proof.
  unfold str_in. rewrite existsb_exists. split.
  - intros [c [Hc He]]. apply String.eqb_eq in He. now subst.
  - intros H. exists score. split; [assumption | apply String.eqb_refl].
Qed.

Lemma str_in_false (score : string) (codes : list string) :
  ~ In score codes -> str_in score codes = false.
Proof.
  intros H. destruct (str_in score codes) eqn:E; [| reflexivity].
  apply str_in_In in E. contradiction.
Qed.

(** Every entry of the printed table is honoured by the classifier; checked
    by evaluation on the 123 listed codes. *)
Lemma table_entries_checked :
  forallb (fun entry =>
             forallb (fun code => String.eqb (rfm_segment code) (fst entry)) (snd entry))
          spec_segment_table = true.
Proof. vm_compute. reflexivity. Qed.

Lemma listed_false (code : string) :
  (forall name codes, In (name, codes) spec_segment_table -> ~ In code codes) ->
  listed code = false.
Proof.
  intros H. unfold listed.
  destruct (existsb _ spec_segment_table) eqn:E; [| reflexivity].
  apply existsb_exists in E. destruct E as [[name codes] [Hin Hc]].
  apply str_in_In in Hc. exfalso. exact (H name codes Hin Hc).
Qed.

(** A code accepted by one of the source's lists is listed in the table. *)
Ltac listed_source_case H E :=
  apply str_in_In in E; simpl in E;
  repeat (destruct E as [E | E];
          [ subst; vm_compute in H; discriminate H | ]);
  contradiction.

Lemma unlisted_is_other (code : string) :
  listed code = false -> rfm_segment code = "Other".
Proof.
  intros H. unfold rfm_segment.
  repeat match goal with
         | |- (if str_in code ?l then _ else _) = _ =>
             let E := fresh "E" in
             destruct (str_in code l) eqn:E; [ exfalso; listed_source_case H E | ]
         end.
  reflexivity.
Qed.

Lemma rfm_segment_label (code : string) : In (rfm_segment code) segment_labels.
Proof.
  unfold rfm_segment.
  repeat match goal with
         | |- In (if ?b then _ else _) _ => destruct b
         end;
    vm_compute; tauto.
Qed.

End ClassifierFacts.

(** ** Claims about the classifier *)

Section ClassifierClaims.

Local Open Scope string_scope.

(** C2. The classifier reproduces the code table of the specification: a
    code listed under a named segment gets that segment's name, a code
    listed nowhere gets "Other", and every string gets exactly one of the
    twelve labels. *)
Theorem rfm_segment_matches_table :
  (forall name codes code,
      In (name, codes) spec_segment_table -> In code codes -> rfm_segment code = name)
  /\ (forall code,
         (forall name codes, In (name, codes) spec_segment_table -> ~ In code codes) ->
         rfm_segment code = "Other")
  /\ (forall code, exists! label, rfm_segment code = label /\ In label segment_labels).
Proof.
  split; [| split].
  - intros name codes code Hin Hc.
    pose proof table_entries_checked as H.
    rewrite forallb_forall in H. specialize (H _ Hin). simpl in H.
    rewrite forallb_forall in H. specialize (H _ Hc).
    now apply String.eqb_eq in H.
  - intros code H. apply unlisted_is_other. now apply listed_false.
  - intros code. exists (rfm_segment code). split.
    + split; [reflexivity | apply rfm_segment_label].
    + intros l [Hl _]. exact Hl.
Qed.

Lemma rfm_segment_matches_table_witness :
  rfm_segment "555" = "Champions" /\ rfm_segment "111" = "Lost Customers".
Proof.
  destruct rfm_segment_matches_table as [Hlisted _].
  split.
  - apply (Hlisted "Champions" ["555"; "554"; "545"; "544"; "455"; "445"]).
    + simpl. left. reflexivity.
    + simpl. left. reflexivity.
  - apply (Hlisted "Lost Customers" ["111"; "112"; "121"; "131"; "141"; "151"]).
    + simpl. do 10 right. left. reflexivity.
    + simpl. left. reflexivity.
Defined.

(** C10. The codes "454" and "253" have all digits in 1..5, are listed
    under none of the eleven named segments, and are classified "Other";
    both occur as the codes of customers of an actual population. *)
Theorem other_reachable_with_valid_scores :
  rfm_code 4 5 4 = "454" /\ rfm_code 2 5 3 = "253"
  /\ (forall name codes, In (name, codes) spec_segment_table ->
                         ~ In "454" codes /\ ~ In "253" codes)
  /\ rfm_segment "454" = "Other" /\ rfm_segment "253" = "Other"
  /\ exists rows r1 r2,
       df_rfm five_customers = Ok rows /\ In r1 rows /\ In r2 rows
       /\ (R_Score r1, F_Score r1, M_Score r1) = (4, 5, 4)%Z
       /\ RFM_Score r1 = "454" /\ Segment r1 = "Other"
       /\ (R_Score r2, F_Score r2, M_Score r2) = (2, 5, 3)%Z
       /\ RFM_Score r2 = "253" /\ Segment r2 = "Other".
Proof.
  split; [reflexivity |]. split; [reflexivity |].
  split.
  - intros name codes Hin. simpl in Hin.
    repeat (destruct Hin as [Hin | Hin];
            [ injection Hin as <- <-; split; intros Hc; simpl in Hc;
              repeat (destruct Hc as [Hc | Hc]; [discriminate Hc |]); exact Hc
            | ]).
    contradiction.
  - split; [reflexivity |]. split; [reflexivity |].
    destruct (df_rfm five_customers) as [rows | e] eqn:E; [| vm_compute in E; discriminate E].
    vm_compute in E. injection E as <-.
    eexists. eexists. eexists.
    split; [reflexivity |].
    split; [right; right; right; left; reflexivity |].
    split; [right; left; reflexivity |].
    repeat split; reflexivity.
Qed.

Lemma other_reachable_with_valid_scores_witness :
  ~ In "454" ["555"; "554"; "545"; "544"; "455"; "445"]
  /\ ~ In "253" ["555"; "554"; "545"; "544"; "455"; "445"].
Proof.
  destruct other_reachable_with_valid_scores as [_ [_ [Hunlisted _]]].
  apply (Hunlisted "Champions" ["555"; "554"; "545"; "544"; "455"; "445"]).
  simpl. left. reflexivity.
Defined.

(** The scenarios of the specification: "555" is a champion, "111" is lost,
    and a code outside the table, such as "999", is "Other". *)
Example classifier_scenarios :
  rfm_segment "555" = "Champions"
  /\ rfm_segment "111" = "Lost Customers"
  /\ rfm_segment "999" = "Other".
Proof. repeat split. Qed.

End ClassifierClaims.

(** ** Claims about the quantile scorer *)

Section ScorerClaims.

Local Open Scope Q_scope.

Lemma ge_Fin_true (v b : Q) : b <= v -> ge v (Fin b) = true.
Proof. intros H. simpl. now apply Qle_bool_iff. Qed.

Lemma ge_Fin_false (v b : Q) : v < b -> ge v (Fin b) = false.
Proof.
  intros H. simpl. destruct (Qle_bool b v) eqn:E; [| reflexivity].
  apply Qle_bool_iff in E. exfalso. apply (Qlt_irrefl v).
  eapply Qlt_le_trans; eassumption.
Qed.

(** Rewrites every comparison of a score function whose outcome follows
    from the hypotheses. *)
Ltac settle_comparisons :=
  repeat first
    [ rewrite ge_Fin_true by lra
    | rewrite ge_Fin_false by lra ].

(** C3. With breakpoints [a <= b <= c <= d] for the 0.2, 0.4, 0.6 and 0.8
    quantiles, frequency and monetary scoring give 5, 4, 3, 2, 1 on the
    buckets [d <= v], [c <= v < d], [b <= v < c], [a <= v < b], [v < a],
    and recency scoring gives 1, 2, 3, 4, 5 on the same buckets; a value
    equal to a breakpoint is in the bucket that starts there. *)
Theorem scores_by_bucket (v a b c d : Q) :
  a <= b -> b <= c -> c <= d ->
  let qs := {| q02 := Fin a; q04 := Fin b; q06 := Fin c; q08 := Fin d |} in
  (d <= v -> f_score v qs = 5%Z /\ m_score v qs = 5%Z /\ r_score v qs = 1%Z)
  /\ (c <= v < d -> f_score v qs = 4%Z /\ m_score v qs = 4%Z /\ r_score v qs = 2%Z)
  /\ (b <= v < c -> f_score v qs = 3%Z /\ m_score v qs = 3%Z /\ r_score v qs = 3%Z)
  /\ (a <= v < b -> f_score v qs = 2%Z /\ m_score v qs = 2%Z /\ r_score v qs = 4%Z)
  /\ (v < a -> f_score v qs = 1%Z /\ m_score v qs = 1%Z /\ r_score v qs = 5%Z).
Proof.
  intros Hab Hbc Hcd qs. subst qs.
  unfold f_score, m_score, r_score. cbn [q02 q04 q06 q08].
  repeat split; intros; settle_comparisons; reflexivity.
Qed.

Lemma scores_by_bucket_witness :
  let qs := {| q02 := Fin 1; q04 := Fin 2; q06 := Fin 3; q08 := Fin 4 |} in
  (f_score 4 qs = 5%Z /\ m_score 4 qs = 5%Z /\ r_score 4 qs = 1%Z)
  /\ (f_score 3 qs = 4%Z /\ m_score 3 qs = 4%Z /\ r_score 3 qs = 2%Z)
  /\ (f_score (1 # 2) qs = 1%Z /\ m_score (1 # 2) qs = 1%Z /\ r_score (1 # 2) qs = 5%Z).
Proof.
  intros qs.
  assert (H12 : 1 <= 2) by (vm_compute; discriminate).
  assert (H23 : 2 <= 3) by (vm_compute; discriminate).
  assert (H34 : 3 <= 4) by (vm_compute; discriminate).
  split; [| split].
  - apply (scores_by_bucket 4 1 2 3 4 H12 H23 H34). vm_compute; discriminate.
  - apply (scores_by_bucket 3 1 2 3 4 H12 H23 H34).
    split; [vm_compute; discriminate | reflexivity].
  - apply (scores_by_bucket (1 # 2) 1 2 3 4 H12 H23 H34). reflexivity.
Defined.

End ScorerClaims.

(** ** Facts about the table operations *)

Section FrameFacts.

Context {A : Type}.

Lemma insert_by_perm (leb : A -> A -> bool) (x : A) (l : list A) :
  Permutation (insert_by leb x l) (x :: l).
Proof.
  induction l as [| y rest IH]; simpl.
  - reflexivity.
  - destruct (leb x y).
    + reflexivity.
    + rewrite IH. apply perm_swap.
Qed.

Lemma sort_by_perm (leb : A -> A -> bool) (l : list A) :
  Permutation (sort_by leb l) l.
Proof.
  induction l as [| x rest IH]; simpl.
  - reflexivity.
  - rewrite insert_by_perm. now apply perm_skip.
Qed.

Lemma sort_by_In (leb : A -> A -> bool) (l : list A) (x : A) :
  In x (sort_by leb l) <-> In x l.
Proof.
  split; apply Permutation_in;
    [apply sort_by_perm | symmetry; apply sort_by_perm].
Qed.

Lemma sort_by_length (leb : A -> A -> bool) (l : list A) :
  List.length (sort_by leb l) = List.length l.
Proof. apply Permutation_length, sort_by_perm. Qed.

Lemma combine_map_r {B : Type} (f : A -> B) (l : list A) :
  combine l (map f l) = map (fun x => (x, f x)) l.
Proof.
  induction l as [| x rest IH]; simpl; [reflexivity | now rewrite IH].
Qed.

Lemma Forall2_map_same {B : Type} (R : A -> B -> Prop) (f : A -> B) (l : list A) :
  (forall x, R x (f x)) -> Forall2 R l (map f l).
Proof.
  intros H. induction l as [| x rest IH]; simpl; constructor; [apply H | exact IH].
Qed.

End FrameFacts.

Lemma astype_int_fillna (v : Z) (col : list (option Z)) :
  astype_int (fillna v col)
  = Ok (map (fun x => match x with Some a => a | None => v end) col).
Proof.
  unfold fillna.
  induction col as [| x rest IH]; [reflexivity |].
  destruct x; cbn [map astype_int]; rewrite IH; reflexivity.
Qed.

Lemma recency_column_ok (dates : list (option Z)) :
  recency_column dates = Ok (map (recency_of (recency_date dates)) dates).
Proof.
  unfold recency_column. rewrite astype_int_fillna, map_map. reflexivity.
Qed.

(** [df_rfm] never raises, and returns the rows of [rfm_rows_of]. *)
Lemma df_rfm_ok (d : list customer_row) : df_rfm d = Ok (rfm_rows_of d).
Proof.
  unfold df_rfm, rfm_rows_of.
  rewrite recency_column_ok. cbn [bind].
  rewrite !map_map. rewrite combine_map_r, map_map. reflexivity.
Qed.

Lemma max_skipna_none (col : list (option Z)) :
  max_skipna col = None <-> forall t, ~ In (Some t) col.
Proof.
  induction col as [| x rest IH]; simpl.
  - split; [intros _ t [] | reflexivity].
  - destruct x as [a |].
    + split.
      * destruct (max_skipna rest); discriminate.
      * intros H. exfalso. apply (H a). now left.
    + rewrite IH. split.
      * intros H t [Hx | Hx]; [discriminate | now apply (H t)].
      * intros H t Hin. apply (H t). now right.
Qed.

Lemma max_skipna_some (col : list (option Z)) (m : Z) :
  max_skipna col = Some m <-> is_max_date m col.
Proof.
  unfold is_max_date. revert m.
  induction col as [| x rest IH]; intros m; simpl.
  - split; [discriminate | intros [[] _]].
  - destruct x as [a |].
    + destruct (max_skipna rest) as [b |] eqn:E.
      * destruct (proj1 (IH b) eq_refl) as [Hb Hle]. split.
        -- intros H. injection H as <-. split.
           ++ destruct (Z.max_spec a b) as [[_ ->] | [_ ->]]; [now right | now left].
           ++ intros t [Ht | Ht]; [injection Ht as ->; lia | specialize (Hle t Ht); lia].
        -- intros [Hm Hall]. f_equal.
           assert (a <= m)%Z by (apply Hall; now left).
           assert (b <= m)%Z by (apply Hall; now right).
           destruct Hm as [Hm | Hm]; [injection Hm as ->; lia |].
           specialize (Hle m Hm). lia.
      * pose proof (proj1 (max_skipna_none rest) E) as Hnone. split.
        -- intros H. injection H as <-. split; [now left |].
           intros t [Ht | Ht]; [injection Ht as ->; lia | now apply Hnone in Ht].
        -- intros [[Hm | Hm] _]; [exact Hm | now apply Hnone in Hm].
    + rewrite IH. split.
      * intros [Hm Hall]. split; [now right |].
        intros t [Ht | Ht]; [discriminate | now apply Hall].
      * intros [[Hm | Hm] Hall]; [discriminate |].
        split; [exact Hm | intros t Ht; apply Hall; now right].
Qed.

(** ** Claims about RFM records *)

Section RecordClaims.

Lemma r_score_range (v : Q) (qs : quartiles) : (1 <= r_score v qs <= 5)%Z.
Proof.
  unfold r_score.
  destruct (ge v (q08 qs)), (ge v (q06 qs)), (ge v (q04 qs)), (ge v (q02 qs)); lia.
Qed.

Lemma f_score_range (v : Q) (qs : quartiles) : (1 <= f_score v qs <= 5)%Z.
Proof.
  unfold f_score.
  destruct (ge v (q08 qs)), (ge v (q06 qs)), (ge v (q04 qs)), (ge v (q02 qs)); lia.
Qed.

Lemma m_score_range (v : Q) (qs : quartiles) : (1 <= m_score v qs <= 5)%Z.
Proof.
  unfold m_score.
  destruct (ge v (q08 qs)), (ge v (q06 qs)), (ge v (q04 qs)), (ge v (q02 qs)); lia.
Qed.

Lemma score_cases (z : Z) :
  (1 <= z <= 5)%Z -> z = 1%Z \/ z = 2%Z \/ z = 3%Z \/ z = 4%Z \/ z = 5%Z.
Proof. lia. Qed.

(** The code of three in-range scores is their three digits. *)
Lemma rfm_code_digits (r f m : Z) :
  (1 <= r <= 5)%Z -> (1 <= f <= 5)%Z -> (1 <= m <= 5)%Z ->
  rfm_code r f m
  = String (digit_char r) (String (digit_char f) (String (digit_char m) EmptyString)).
Proof.
  intros Hr Hf Hm.
  destruct (score_cases r Hr) as [-> | [-> | [-> | [-> | ->]]]];
    destruct (score_cases f Hf) as [-> | [-> | [-> | [-> | ->]]]];
    destruct (score_cases m Hm) as [-> | [-> | [-> | [-> | ->]]]];
    reflexivity.
Qed.

Lemma segment_label_nonempty (code : string) : rfm_segment code <> EmptyString.
Proof.
  pose proof (rfm_segment_label code) as H.
  intros E. rewrite E in H. vm_compute in H.
  repeat (destruct H as [H | H]; [discriminate H |]). exact H.
Qed.

(** C4. [df_rfm] returns one record per customer, and in every record the
    three scores are in 1..5, the code is the three score digits in the
    order R, F, M (so of length 3), and the segment is the classifier's
    label of that code: one of the twelve labels, never empty. *)
Theorem rfm_records_well_formed (d : list customer_row) :
  exists rows,
    df_rfm d = Ok rows /\ List.length rows = List.length d
    /\ forall r, In r rows ->
         (1 <= R_Score r <= 5)%Z /\ (1 <= F_Score r <= 5)%Z /\ (1 <= M_Score r <= 5)%Z
         /\ RFM_Score r
            = String (digit_char (R_Score r))
                (String (digit_char (F_Score r))
                   (String (digit_char (M_Score r)) EmptyString))
         /\ String.length (RFM_Score r) = 3%nat
         /\ Segment r = rfm_segment (RFM_Score r)
         /\ In (Segment r) segment_labels
         /\ Segment r <> EmptyString.
Proof.
  exists (rfm_rows_of d). split; [apply df_rfm_ok |]. split.
  - unfold rfm_rows_of. rewrite length_map. apply sort_by_length.
  - intros r Hr. unfold rfm_rows_of in Hr. apply in_map_iff in Hr.
    destruct Hr as [c [<- _]]. unfold rfm_row_of. cbn -[rfm_code rfm_segment segment_labels].
    match goal with
    | |- context [rfm_code ?r ?f ?m] =>
        assert (HR : (1 <= r <= 5)%Z) by apply r_score_range;
        assert (HF : (1 <= f <= 5)%Z) by apply f_score_range;
        assert (HM : (1 <= m <= 5)%Z) by apply m_score_range
    end.
    rewrite (rfm_code_digits _ _ _ HR HF HM).
    repeat split; try lia.
    + rewrite <- (rfm_code_digits _ _ _ HR HF HM). apply rfm_segment_label.
    + rewrite <- (rfm_code_digits _ _ _ HR HF HM). apply segment_label_nonempty.
Qed.

Lemma rfm_records_well_formed_witness :
  exists rows, df_rfm five_customers = Ok rows /\ List.length rows = 5%nat.
Proof.
  destruct (rfm_records_well_formed five_customers) as [rows [Hok [Hlen _]]].
  exists rows. split; [exact Hok | exact Hlen].
Defined.

End RecordClaims.

(** ** Claims about the recency calculator *)

Section RecencyClaims.

Lemma is_max_date_perm (m : Z) (l l' : list (option Z)) :
  Permutation l l' -> is_max_date m l -> is_max_date m l'.
Proof.
  intros HP [Hin Hall]. split.
  - eapply Permutation_in; eassumption.
  - intros t Ht. apply Hall. eapply Permutation_in; [symmetry |]; eassumption.
Qed.

Lemma day_positive : (0 < day)%Z.
Proof. reflexivity. Qed.

(** C5. [df_rfm] keeps every customer of the population. The anchor is the
    latest last purchase date plus one day; a customer with a last purchase
    date [t] has [recency] equal to the whole days of [anchor - t], which
    is not negative; a customer without one has [recency = 0]. *)
Theorem recency_from_anchor (d : list customer_row) :
  exists rows,
    df_rfm d = Ok rows
    /\ Forall2 (fun c r =>
                  customer_unique_id r = c_customer_id c
                  /\ rfm_last_purchase_date r = last_purchase_date c)
               (sort_by date_leb d) rows
    /\ Permutation (map customer_unique_id rows) (map c_customer_id d)
    /\ (forall m,
           is_max_date m (map last_purchase_date d) ->
           recency_date (map last_purchase_date (sort_by date_leb d)) = Some (m + day)%Z)
    /\ forall r, In r rows ->
         match rfm_last_purchase_date r with
         | Some t =>
             exists anchor,
               recency_date (map last_purchase_date (sort_by date_leb d)) = Some anchor
               /\ recency r = ((anchor - t) / day)%Z
               /\ (0 <= recency r)%Z
         | None => recency r = 0%Z
         end.
Proof.
  exists (rfm_rows_of d). split; [apply df_rfm_ok |].
  assert (Hperm : Permutation (map last_purchase_date (sort_by date_leb d))
                              (map last_purchase_date d))
    by (apply Permutation_map, sort_by_perm).
  assert (Hanchor : forall m, is_max_date m (map last_purchase_date d) ->
             recency_date (map last_purchase_date (sort_by date_leb d)) = Some (m + day)%Z).
  { intros m Hm. unfold recency_date.
    apply (is_max_date_perm _ _ _ (Permutation_sym Hperm)) in Hm.
    apply max_skipna_some in Hm. now rewrite Hm. }
  split; [| split; [| split; [exact Hanchor |]]].
  - unfold rfm_rows_of. apply Forall2_map_same. intros c. split; reflexivity.
  - unfold rfm_rows_of. rewrite map_map. cbn [rfm_row_of customer_unique_id].
    apply Permutation_map, sort_by_perm.
  - intros r Hr. unfold rfm_rows_of in Hr. apply in_map_iff in Hr.
    destruct Hr as [c [<- Hc]]. cbn [rfm_row_of rfm_last_purchase_date recency].
    destruct (last_purchase_date c) as [t |] eqn:Ht.
    + destruct (max_skipna (map last_purchase_date (sort_by date_leb d))) as [m |] eqn:Em.
      * exists (m + day)%Z. unfold recency_date at 1. rewrite Em. split; [reflexivity |].
        unfold recency_of, days_since, recency_date. rewrite Em. cbn [option_map].
        split; [reflexivity |].
        apply max_skipna_some in Em. destruct Em as [_ Hall].
        assert (t <= m)%Z.
        { apply Hall. apply in_map_iff. exists c. split; assumption. }
        apply Z.div_pos; [| exact day_positive].
        pose proof day_positive. lia.
      * exfalso. apply (proj1 (max_skipna_none _) Em t).
        apply in_map_iff. exists c. split; assumption.
    + unfold recency_of, days_since.
      destruct (recency_date _); reflexivity.
Qed.

Lemma recency_from_anchor_witness :
  recency_date (map last_purchase_date (sort_by date_leb four_customers))
  = Some (30 * day + day)%Z.
Proof.
  destruct (recency_from_anchor four_customers) as [rows [_ [_ [_ [Hanchor _]]]]].
  apply Hanchor. split.
  - simpl. left. reflexivity.
  - intros t Ht. simpl in Ht.
    repeat (destruct Ht as [Ht | Ht];
            [ first [ discriminate Ht
                    | injection Ht as <-; vm_compute; discriminate ] | ]).
    contradiction.
Defined.

End RecencyClaims.

(** ** Claims about the segment summary *)

Section ScalingClaims.

Local Open Scope Q_scope.

Lemma Qmin_cases (x y : Q) : Qmin x y = x \/ Qmin x y = y.
Proof.
  unfold Qmin, GenericMinMax.gmin. destruct (x ?= y); auto.
Qed.

Lemma Qmax_cases (x y : Q) : Qmax x y = x \/ Qmax x y = y.
Proof.
  unfold Qmax, GenericMinMax.gmax. destruct (x ?= y); auto.
Qed.

Lemma fold_Qmin_is_min (x : Q) (rest : list Q) :
  is_min_of (fold_right Qmin x rest) (x :: rest).
Proof.
  induction rest as [| y rest [Hin Hle]]; simpl.
  - split; [now left | intros z [<- | []]; apply Qle_refl].
  - split.
    + destruct (Qmin_cases y (fold_right Qmin x rest)) as [-> | ->].
      * right. now left.
      * destruct Hin as [Hin | Hin]; [now left | right; now right].
    + intros z [<- | [<- | Hz]].
      * eapply Qle_trans; [apply Q.le_min_r | apply Hle; now left].
      * apply Q.le_min_l.
      * eapply Qle_trans; [apply Q.le_min_r | apply Hle; now right].
Qed.

Lemma fold_Qmax_is_max (x : Q) (rest : list Q) :
  is_max_of (fold_right Qmax x rest) (x :: rest).
Proof.
  induction rest as [| y rest [Hin Hle]]; simpl.
  - split; [now left | intros z [<- | []]; apply Qle_refl].
  - split.
    + destruct (Qmax_cases y (fold_right Qmax x rest)) as [-> | ->].
      * right. now left.
      * destruct Hin as [Hin | Hin]; [now left | right; now right].
    + intros z [<- | [<- | Hz]].
      * eapply Qle_trans; [apply Hle; now left | apply Q.le_max_r].
      * apply Q.le_max_l.
      * eapply Qle_trans; [apply Hle; now right | apply Q.le_max_r].
Qed.

(** The guarded lambda on a column with at least one entry. *)
Lemma scaling_spec (totals : list Q) (x : Q) :
  totals <> [] ->
  exists mn mx,
    is_min_of mn totals /\ is_max_of mx totals
    /\ (mx == mn -> scaling totals x = Fin 0)
    /\ (~ mx == mn -> scaling totals x = Fin ((x - mn) / (mx - mn))).
Proof.
  destruct totals as [| t rest]; [congruence | intros _].
  exists (fold_right Qmin t rest), (fold_right Qmax t rest).
  split; [apply fold_Qmin_is_min |]. split; [apply fold_Qmax_is_max |].
  unfold scaling, series_max, series_min.
  set (mn := fold_right Qmin t rest). set (mx := fold_right Qmax t rest).
  destruct (Qeq_bool (mx - mn) 0) eqn:E; cbn [negb].
  - apply Qeq_bool_iff in E. split; [reflexivity |].
    intros Hne. exfalso. apply Hne. lra.
  - apply Qeq_bool_neq in E. split.
    + intros Heq. exfalso. apply E. lra.
    + intros _. unfold fdiv.
      destruct (Qeq_bool (mx - mn) 0) eqn:E'; [| reflexivity].
      apply Qeq_bool_iff in E'. contradiction.
Qed.

Lemma summary_totals (rows : list rfm_row) :
  map total_monetary (data_rfm_summary rows) = map snd (segment_groups rows).
Proof.
  unfold data_rfm_summary. rewrite map_map. reflexivity.
Qed.

(** C6. In every row of a summary, [total_monetary_scaling] is
    [(total_monetary - min) / (max - min)] over the rows of that summary
    when max differs from min, and 0 when they are equal, in particular
    when all rows have the same [total_monetary]; it is always a finite
    number, no division by zero takes place. *)
Theorem scaling_min_max (rows : list rfm_row) (s : summary_row) :
  In s (data_rfm_summary rows) ->
  exists mn mx,
    is_min_of mn (map total_monetary (data_rfm_summary rows))
    /\ is_max_of mx (map total_monetary (data_rfm_summary rows))
    /\ (mx == mn -> total_monetary_scaling s = Fin 0)
    /\ (~ mx == mn ->
        total_monetary_scaling s = Fin ((total_monetary s - mn) / (mx - mn)))
    /\ ((forall s', In s' (data_rfm_summary rows) ->
                    total_monetary s' == total_monetary s) ->
        total_monetary_scaling s = Fin 0)
    /\ exists q, total_monetary_scaling s = Fin q.
Proof.
  intros Hs. rewrite summary_totals.
  unfold data_rfm_summary in Hs. apply in_map_iff in Hs.
  destruct Hs as [g [<- Hg]]. cbn [total_monetary total_monetary_scaling].
  assert (Hne : map snd (segment_groups rows) <> []).
  { intros E. apply (in_map snd) in Hg. rewrite E in Hg. exact Hg. }
  destruct (scaling_spec (map snd (segment_groups rows)) (snd g) Hne)
    as [mn [mx [Hmin [Hmax [Heq Hneq]]]]].
  exists mn, mx. repeat split; try assumption; try apply Hmin; try apply Hmax.
  - intros Hall. apply Heq.
    destruct Hmin as [Hmn _], Hmax as [Hmx _].
    apply in_map_iff in Hmn. destruct Hmn as [g1 [<- Hg1]].
    apply in_map_iff in Hmx. destruct Hmx as [g2 [<- Hg2]].
    pose proof (fun g' Hg' => Hall _ (in_map _ _ g' Hg')) as Hall'.
    cbn [total_monetary] in Hall'.
    rewrite (Hall' g1 Hg1), (Hall' g2 Hg2). reflexivity.
  - destruct (Qeq_dec mx mn) as [E | E].
    + exists 0. now apply Heq.
    + eexists. now apply Hneq.
Qed.

Lemma scaling_min_max_witness :
  exists q, total_monetary_scaling sample_summary_row = Fin q.
Proof.
  destruct (scaling_min_max (rfm_rows_of five_customers) sample_summary_row)
    as [mn [mx [_ [_ [_ [_ [_ Hfin]]]]]]].
  - vm_compute. left. reflexivity.
  - exact Hfin.
Defined.

End ScalingClaims.

(** ** Facts about sums, cumulative sums and sorting *)

Section SumFacts.

Local Open Scope Q_scope.

Lemma qsum_perm (l l' : list Q) : Permutation l l' -> qsum l == qsum l'.
Proof.
  induction 1 as [| x l l' _ IH | x y l | l l' l'' _ IH1 _ IH2]; simpl.
  - reflexivity.
  - rewrite IH. reflexivity.
  - lra.
  - rewrite IH1. exact IH2.
Qed.

Lemma qsum_nonneg (l : list Q) : (forall x, In x l -> 0 <= x) -> 0 <= qsum l.
Proof.
  induction l as [| x rest IH]; intros H; simpl.
  - apply Qle_refl.
  - assert (0 <= x) by (apply H; now left).
    assert (0 <= qsum rest) by (apply IH; intros y Hy; apply H; now right).
    lra.
Qed.

Lemma qsum_scaled (k : Q) (l : list Q) :
  qsum (map (fun t => t * k) l) == qsum l * k.
Proof.
  induction l as [| x rest IH]; simpl; [lra | rewrite IH; lra].
Qed.

Lemma cumsum_from_length (acc : Q) (l : list Q) :
  List.length (cumsum_from acc l) = List.length l.
Proof.
  revert acc. induction l as [| x rest IH]; intros acc; simpl;
    [reflexivity | now rewrite IH].
Qed.

Lemma cumsum_from_last (acc d : Q) (l : list Q) :
  l <> [] -> last (cumsum_from acc l) d == acc + qsum l.
Proof.
  revert acc. induction l as [| x rest IH]; intros acc Hne; [congruence |].
  destruct rest as [| y rest].
  - simpl. lra.
  - change (last (cumsum_from (acc + x) (y :: rest)) d == acc + (x + qsum (y :: rest))).
    rewrite IH by discriminate. lra.
Qed.

Lemma cumsum_from_lower (acc : Q) (l : list Q) :
  (forall x, In x l -> 0 <= x) ->
  forall c, In c (cumsum_from acc l) -> acc <= c.
Proof.
  revert acc. induction l as [| x rest IH]; intros acc H c Hc; simpl in Hc.
  - contradiction.
  - assert (0 <= x) by (apply H; now left).
    destruct Hc as [<- | Hc]; [lra |].
    apply IH in Hc; [lra | intros y Hy; apply H; now right].
Qed.

(** The running sums of non-negative entries never decrease. *)
Lemma cumsum_from_sorted (acc : Q) (l : list Q) :
  (forall x, In x l -> 0 <= x) -> Sorted Qle (cumsum_from acc l).
Proof.
  revert acc. induction l as [| x rest IH]; intros acc H; simpl.
  - constructor.
  - constructor.
    + apply IH. intros y Hy. apply H. now right.
    + destruct rest as [| y rest]; simpl; constructor.
      assert (0 <= y) by (apply H; right; now left). lra.
Qed.

Lemma Sorted_map_monotone (h : Q -> Q) (l : list Q) :
  (forall a b, a <= b -> h a <= h b) -> Sorted Qle l -> Sorted Qle (map h l).
Proof.
  intros Hh. induction 1 as [| a l _ IH Hhd]; simpl; constructor.
  - exact IH.
  - destruct Hhd; simpl; constructor. now apply Hh.
Qed.

Lemma last_map_Q (h : Q -> Q) (l : list Q) (d : Q) :
  last (map h l) (h d) = h (last l d).
Proof.
  induction l as [| x rest IH]; [reflexivity |].
  destruct rest; [reflexivity | exact IH].
Qed.

(** Summing shares cumulatively is the same as taking the share of the
    cumulative sums, for any additive [h]. *)
Lemma cumsum_from_additive (h : Q -> Q) (l : list Q) :
  (forall a b, h (a + b) == h a + h b) ->
  forall acc acc', h acc == acc' ->
    Forall2 Qeq (map h (cumsum_from acc l)) (cumsum_from acc' (map h l)).
Proof.
  intros Hadd. induction l as [| x rest IH]; intros acc acc' Hacc; simpl.
  - constructor.
  - assert (E : h (acc + x) == acc' + h x) by (rewrite Hadd, Hacc; reflexivity).
    constructor; [exact E | now apply IH].
Qed.

Lemma map_snd_combine {A B C : Type} (g : A * B -> C) (k : B -> C)
  (l : list A) (l' : list B) :
  (forall x y, g (x, y) = k y) -> List.length l = List.length l' ->
  map g (combine l l') = map k l'.
Proof.
  intros Hg. revert l'. induction l as [| x rest IH]; intros [| y rest'] Hlen;
    simpl in *; try discriminate; [reflexivity |].
  rewrite Hg, IH by congruence. reflexivity.
Qed.

Lemma map_fst_combine {A B C : Type} (g : A * B -> C) (k : A -> C)
  (l : list A) (l' : list B) :
  (forall x y, g (x, y) = k x) -> List.length l = List.length l' ->
  map g (combine l l') = map k l.
Proof.
  intros Hg. revert l'. induction l as [| x rest IH]; intros [| y rest'] Hlen;
    simpl in *; try discriminate; [reflexivity |].
  rewrite Hg, IH by congruence. reflexivity.
Qed.

End SumFacts.

Section SortFacts.

Context {A : Type} (leb : A -> A -> bool).
Hypothesis leb_total : forall a b, leb a b = true \/ leb b a = true.

Lemma insert_by_sorted (x : A) (l : list A) :
  Sorted (fun a b => leb a b = true) l ->
  Sorted (fun a b => leb a b = true) (insert_by leb x l).
Proof.
  induction 1 as [| y l Hs IH Hhd]; simpl.
  - repeat constructor.
  - destruct (leb x y) eqn:E.
    + constructor; [now constructor | now constructor].
    + constructor; [exact IH |].
      destruct (leb_total x y) as [Hxy | Hyx]; [congruence |].
      destruct Hhd as [| z l Hyz]; simpl.
      * now constructor.
      * destruct (leb x z); now constructor.
Qed.

Lemma sort_by_sorted (l : list A) :
  Sorted (fun a b => leb a b = true) (sort_by leb l).
Proof.
  induction l as [| x rest IH]; simpl; [constructor | now apply insert_by_sorted].
Qed.

End SortFacts.

(** ** Claims about the Pareto table *)

Section ParetoClaims.

Local Open Scope Q_scope.

Lemma Sorted_weaken {A : Type} (R R' : A -> A -> Prop) (l : list A) :
  (forall a b, R a b -> R' a b) -> Sorted R l -> Sorted R' l.
Proof.
  intros HR. induction 1 as [| a l _ IH Hhd]; constructor.
  - exact IH.
  - destruct Hhd; constructor. now apply HR.
Qed.

Lemma last_default {A : Type} (l : list A) (d d' : A) :
  l <> [] -> last l d = last l d'.
Proof.
  induction l as [| x rest IH]; intros Hne; [congruence |].
  destruct rest; [reflexivity | apply IH; discriminate].
Qed.

Lemma Qle_bool_total (a b : Q) : Qle_bool a b = true \/ Qle_bool b a = true.
Proof.
  destruct (Qlt_le_dec b a) as [H | H].
  - right. apply Qle_bool_iff. now apply Qlt_le_weak.
  - left. now apply Qle_bool_iff.
Qed.

(** The two columns of the Pareto table. *)
Lemma pareto_rows (summary : list summary_row) :
  map p_summary (pareto summary)
  = sort_by (fun a b => Qle_bool (total_monetary b) (total_monetary a)) summary.
Proof.
  unfold pareto. rewrite map_map.
  rewrite (map_fst_combine _ (fun s => s)).
  - apply map_id.
  - reflexivity.
  - unfold cumsum. rewrite cumsum_from_length, length_map. reflexivity.
Qed.

Lemma pareto_cumulative_column (summary : list summary_row) :
  let totals := map total_monetary (map p_summary (pareto summary)) in
  map Cumulative_pct (pareto summary)
  = map (fun c => fmul (fdiv c (qsum totals)) 100) (cumsum totals).
Proof.
  intros totals. subst totals. rewrite pareto_rows. unfold pareto.
  rewrite map_map. apply map_snd_combine; [reflexivity |].
  unfold cumsum. rewrite cumsum_from_length, length_map. reflexivity.
Qed.

Lemma share_of_positive_total (c T : Q) :
  0 < T -> fmul (fdiv c T) 100 = Fin (c / T * 100).
Proof.
  intros HT. unfold fdiv.
  destruct (Qeq_bool T 0) eqn:E; [| reflexivity].
  apply Qeq_bool_iff in E. lra.
Qed.

Lemma share_monotone (T a b : Q) : 0 < T -> a <= b -> a / T * 100 <= b / T * 100.
Proof.
  intros HT Hab. apply Qmult_le_compat_r; [| lra].
  unfold Qdiv. apply Qmult_le_compat_r; [exact Hab |].
  apply Qlt_le_weak, Qinv_lt_0_compat, HT.
Qed.

(** Two approximations of a positive total, each with a relative error of
    at most [delta], have a quotient close to one. *)
Lemma quotient_enclosure (T c t delta : Q) :
  0 < T -> 0 <= delta -> delta < 1 ->
  Qabs (c - T) <= delta * T -> Qabs (t - T) <= delta * T ->
  0 < t /\ (1 - delta) / (1 + delta) <= c / t /\ c / t <= (1 + delta) / (1 - delta).
Proof.
  intros HT Hd0 Hd1 Hc Ht.
  apply Qabs_Qle_condition in Hc. apply Qabs_Qle_condition in Ht.
  assert (Htpos : 0 < t) by nra.
  split; [exact Htpos |].
  assert (Elo : (1 - delta) / (1 + delta) * (1 + delta) == 1 - delta) by (field; lra).
  assert (Ehi : (1 + delta) / (1 - delta) * (1 - delta) == 1 + delta) by (field; lra).
  assert (Hlo0 : 0 <= (1 - delta) / (1 + delta)) by (apply Qle_shift_div_l; lra).
  assert (Hhi0 : 0 <= (1 + delta) / (1 - delta)) by (apply Qle_shift_div_l; lra).
  set (lo := (1 - delta) / (1 + delta)) in *.
  set (hi := (1 + delta) / (1 - delta)) in *.
  split.
  - apply Qle_shift_div_l; [exact Htpos |].
    apply Qle_trans with (lo * ((1 + delta) * T)); [| nra].
    nra.
  - apply Qle_shift_div_r; [exact Htpos |].
    apply Qle_trans with (hi * ((1 - delta) * T)); [nra |].
    nra.
Qed.

(** The same for the percentage, when the division and the multiplication
    by 100 add a relative error [e] of at most [eps]. *)
Lemma percent_enclosure (T c t e delta eps : Q) :
  0 < T -> 0 <= delta -> delta < 1 -> 0 <= eps -> eps <= 1 ->
  Qabs (c - T) <= delta * T -> Qabs (t - T) <= delta * T -> Qabs e <= eps ->
  100 * ((1 - delta) * (1 - eps) / (1 + delta)) <= c / t * 100 * (1 + e)
  /\ c / t * 100 * (1 + e) <= 100 * ((1 + delta) * (1 + eps) / (1 - delta)).
Proof.
  intros HT Hd0 Hd1 He0 He1 Hc Ht He.
  destruct (quotient_enclosure T c t delta HT Hd0 Hd1 Hc Ht) as [Htpos [Hlo Hhi]].
  apply Qabs_Qle_condition in He.
  set (r := c / t) in *.
  set (lo := (1 - delta) / (1 + delta)) in *.
  set (hi := (1 + delta) / (1 - delta)) in *.
  assert (Hlo0 : 0 <= lo).
  { unfold lo. apply Qle_shift_div_l; lra. }
  assert (Elo : (1 - delta) * (1 - eps) / (1 + delta) == lo * (1 - eps)).
  { unfold lo. field. lra. }
  assert (Ehi : (1 + delta) * (1 + eps) / (1 - delta) == hi * (1 + eps)).
  { unfold hi. field. lra. }
  rewrite Elo, Ehi. split; nra.
Qed.

(** C7 (as amended). For a summary whose group totals are not negative and
    whose grand total is positive, the Pareto table lists the groups by
    [total_monetary] descending, and its [Cumulative_%] column agrees with
    the running sum of the unrounded shares
    [total_monetary / grand_total * 100], never decreases from one row to
    the next, and is 100 in the last row, up to floating tolerance. The
    arithmetic of the model is exact, so the last entry is exactly 100
    there. The tolerance is the last part of the statement: when the last
    running sum [c] and the grand total [t] each carry a relative error of
    at most [delta] (line 394 divides a sum accumulated row by row by a sum
    accumulated otherwise) and the division and the multiplication add a
    relative error [e] of at most [eps], the resulting value
    [c / t * 100 * (1 + e)] lies between
    [100 * (1 - delta) * (1 - eps) / (1 + delta)] and
    [100 * (1 + delta) * (1 + eps) / (1 - delta)]. *)
Theorem pareto_cumulative_percent (rows : list rfm_row) :
  let summary := data_rfm_summary rows in
  let sorted := map p_summary (pareto summary) in
  (forall s, In s summary -> 0 <= total_monetary s) ->
  0 < qsum (map total_monetary summary) ->
  Permutation sorted summary
  /\ Sorted (fun a b => total_monetary b <= total_monetary a) sorted
  /\ exists cs,
       map Cumulative_pct (pareto summary) = map Fin cs
       /\ Forall2 Qeq cs (spec_cumulative_percent (map total_monetary sorted))
       /\ Sorted Qle cs
       /\ last cs 0 == 100
       /\ forall c t e delta eps,
            0 <= delta -> delta < 1 -> 0 <= eps -> eps <= 1 ->
            Qabs (c - qsum (map total_monetary summary))
            <= delta * qsum (map total_monetary summary) ->
            Qabs (t - qsum (map total_monetary summary))
            <= delta * qsum (map total_monetary summary) ->
            Qabs e <= eps ->
            100 * ((1 - delta) * (1 - eps) / (1 + delta)) <= c / t * 100 * (1 + e)
            /\ c / t * 100 * (1 + e) <= 100 * ((1 + delta) * (1 + eps) / (1 - delta)).
Proof.
  intros summary sorted Hnonneg Hpos.
  assert (Hsorted : sorted
            = sort_by (fun a b => Qle_bool (total_monetary b) (total_monetary a)) summary)
    by apply pareto_rows.
  assert (Hperm : Permutation sorted summary)
    by (rewrite Hsorted; apply sort_by_perm).
  set (totals := map total_monetary sorted).
  assert (HT : 0 < qsum totals).
  { unfold totals. rewrite (qsum_perm _ _ (Permutation_map total_monetary Hperm)).
    exact Hpos. }
  assert (Htot_nonneg : forall x, In x totals -> 0 <= x).
  { intros x Hx. apply in_map_iff in Hx. destruct Hx as [s [<- Hs]].
    apply Hnonneg. eapply Permutation_in; eassumption. }
  assert (Hne : totals <> []).
  { intros E. rewrite E in HT. simpl in HT. lra. }
  split; [exact Hperm |]. split.
  - rewrite Hsorted.
    eapply Sorted_weaken; [| apply sort_by_sorted].
    + intros a b H. now apply Qle_bool_iff in H.
    + intros a b. apply Qle_bool_total.
  - exists (map (fun c => c / qsum totals * 100) (cumsum totals)).
    split; [| split; [| split; [| split]]].
    + rewrite (pareto_cumulative_column summary). fold sorted. fold totals.
      rewrite map_map. apply map_ext. intros c.
      now apply share_of_positive_total.
    + unfold spec_cumulative_percent, cumsum. fold totals.
      apply cumsum_from_additive.
      * intros a b. unfold Qdiv. ring.
      * unfold Qdiv. ring.
    + apply Sorted_map_monotone.
      * intros a b. now apply share_monotone.
      * now apply cumsum_from_sorted.
    + assert (Hne' : cumsum totals <> []).
      { intros E. apply (f_equal (@List.length Q)) in E.
        unfold cumsum in E. rewrite cumsum_from_length in E.
        destruct totals; [congruence | discriminate]. }
      rewrite (last_default _ 0 (0 / qsum totals * 100))
        by (intros E; apply map_eq_nil in E; contradiction).
      rewrite (last_map_Q (fun c => c / qsum totals * 100)).
      unfold cumsum. rewrite (cumsum_from_last 0 0 totals Hne).
      field. lra.
    + intros c t e delta eps Hd0 Hd1 He0 He1 Hc Ht He.
      now apply (percent_enclosure (qsum (map total_monetary summary)) c t e delta eps).
Qed.

Lemma pareto_cumulative_percent_witness :
  exists cs,
    map Cumulative_pct (pareto (data_rfm_summary (rfm_rows_of five_customers)))
    = map Fin cs
    /\ Sorted Qle cs /\ last cs 0 == 100.
Proof.
  destruct (pareto_cumulative_percent (rfm_rows_of five_customers))
    as [_ [_ [cs [Hcs [_ [Hsorted [Hlast _]]]]]]].
  - intros s Hs. vm_compute in Hs.
    repeat (destruct Hs as [<- | Hs]; [vm_compute; discriminate |]).
    contradiction.
  - vm_compute. reflexivity.
  - exists cs. repeat split; assumption.
Defined.

(** C7, the claim as written, fails on a summary whose grand total is 0:
    the only customer has a delivered order without items, the division is
    0/0 and the single [Cumulative_%] is NaN, not 100. *)
Lemma pareto_cumulative_percent_counterexample :
  data_rfm_summary zero_total_rows <> []
  /\ map Cumulative_pct (pareto (data_rfm_summary zero_total_rows)) = [NaN]
  /\ ~ (exists q,
          last (map Cumulative_pct (pareto (data_rfm_summary zero_total_rows))) NaN
          = Fin q /\ q == 100).
Proof.
  split; [vm_compute; discriminate |].
  split; [vm_compute; reflexivity |].
  intros [q [Hq _]]. vm_compute in Hq. discriminate Hq.
Qed.

(** Three tied groups: each rounded percentage is 33.33, so the rounded
    column sums to 99.99, while [Cumulative_%] still ends at 100; every
    [total_monetary_scaling] is 0. *)
Example tied_groups :
  exists ps cs,
    map total_monetary_percent (data_rfm_summary tied_rows) = map Fin ps
    /\ Forall (fun p => p == 3333 # 100) ps
    /\ qsum ps == 9999 # 100
    /\ map Cumulative_pct (pareto (data_rfm_summary tied_rows)) = map Fin cs
    /\ last cs 0 == 100
    /\ Forall (fun s => total_monetary_scaling s = Fin 0) (data_rfm_summary tied_rows).
Proof.
  exists [3333 # 100; 3333 # 100; 3333 # 100], [100 # 3; 200 # 3; 300 # 3].
  split; [vm_compute; reflexivity |].
  split; [repeat constructor; reflexivity |].
  split; [reflexivity |].
  split; [vm_compute; reflexivity |].
  split; [reflexivity |].
  vm_compute. repeat constructor.
Qed.

End ParetoClaims.

(** ** Claims about the percentage column *)

Section PercentClaims.

Local Open Scope Q_scope.

Lemma inject_Z_succ (n : Z) : inject_Z (n + 1) == inject_Z n + 1.
Proof. rewrite inject_Z_plus. reflexivity. Qed.

(** [rint] is within one half of its argument. *)
Lemma rint_error (q : Q) : Qabs (inject_Z (rint q) - q) <= 1 # 2.
Proof.
  apply Qabs_Qle_condition. unfold rint.
  pose proof (Qfloor_le q) as Hlo. pose proof (Qlt_floor q) as Hhi.
  rewrite inject_Z_succ in Hhi.
  destruct (Qcompare_spec (q - inject_Z (Qfloor q)) (1 # 2)) as [E | E | E].
  - destruct (Z.even (Qfloor q)); [| rewrite inject_Z_succ]; lra.
  - lra.
  - rewrite inject_Z_succ. lra.
Qed.

Lemma rint_at_least (q : Q) (k : Z) : inject_Z k <= q -> (k <= rint q)%Z.
Proof.
  intros H.
  assert (Hk : (k <= Qfloor q)%Z).
  { rewrite <- (Qfloor_Z k). now apply Qfloor_resp_le. }
  unfold rint.
  destruct (q - inject_Z (Qfloor q) ?= 1 # 2); [destruct (Z.even (Qfloor q)) | |]; lia.
Qed.

Lemma rint_at_most (q : Q) (k : Z) : q <= inject_Z k -> (rint q <= k)%Z.
Proof.
  intros H.
  assert (Hk : (Qfloor q <= k)%Z).
  { rewrite <- (Qfloor_Z k). now apply Qfloor_resp_le. }
  destruct (Z.eq_dec (Qfloor q) k) as [E | E].
  - pose proof (Qfloor_le q) as Hlo. rewrite E in Hlo.
    unfold rint. rewrite E.
    destruct (Qcompare_spec (q - inject_Z k) (1 # 2)) as [C | C | C]; [lra | lia | lra].
  - unfold rint.
    destruct (q - inject_Z (Qfloor q) ?= 1 # 2); [destruct (Z.even (Qfloor q)) | |]; lia.
Qed.

Lemma round2_error (q : Q) : Qabs (round2 q - q) <= 1 # 200.
Proof.
  pose proof (rint_error (q * 100)) as H.
  apply Qabs_Qle_condition in H. apply Qabs_Qle_condition.
  unfold round2. set (r := inject_Z (rint (q * 100))) in *.
  unfold Qdiv. change (/ 100) with (1 # 100). lra.
Qed.

Lemma round2_range (q : Q) : 0 <= q <= 100 -> 0 <= round2 q <= 100.
Proof.
  intros [Hlo Hhi]. unfold round2.
  assert (H0 : (0 <= rint (q * 100))%Z).
  { apply rint_at_least. change (inject_Z 0) with 0. lra. }
  assert (H1 : (rint (q * 100) <= 10000)%Z).
  { apply rint_at_most. change (inject_Z 10000) with 10000. lra. }
  rewrite Zle_Qle in H0, H1.
  change (inject_Z 0) with 0 in H0. change (inject_Z 10000) with 10000 in H1.
  set (r := inject_Z (rint (q * 100))) in *.
  unfold Qdiv. change (/ 100) with (1 # 100). lra.
Qed.

Lemma round2_hundredths (q : Q) : exists z, round2 q == inject_Z z / 100.
Proof. exists (rint (q * 100)). reflexivity. Qed.

(** Sums of columns that differ by at most [e] per row differ by at most
    [e] times the number of rows. *)
Lemma qsum_error (e : Q) (ps ss : list Q) :
  Forall2 (fun p s => Qabs (p - s) <= e) ps ss ->
  Qabs (qsum ps - qsum ss) <= inject_Z (Z.of_nat (List.length ps)) * e.
Proof.
  induction 1 as [| p s ps ss Hps _ IH].
  - cbn [qsum fold_right List.length Z.of_nat]. change (inject_Z 0) with 0.
    apply Qabs_Qle_condition. lra.
  - cbn [qsum fold_right List.length]. fold (qsum ps) (qsum ss).
    rewrite Nat2Z.inj_succ. unfold Z.succ. rewrite inject_Z_succ.
    apply Qabs_Qle_condition in Hps. apply Qabs_Qle_condition in IH.
    apply Qabs_Qle_condition. lra.
Qed.

Lemma percent_of_positive_total (t T : Q) :
  0 < T -> fround2 (fmul (fdiv t T) 100) = Fin (round2 (t / T * 100)).
Proof.
  intros HT. now rewrite share_of_positive_total.
Qed.

Lemma share_range (t T : Q) : 0 < T -> 0 <= t <= T -> 0 <= t / T * 100 <= 100.
Proof.
  intros HT [Hlo Hhi]. split.
  - setoid_replace 0 with (0 / T * 100) by (unfold Qdiv; ring).
    now apply share_monotone.
  - setoid_replace 100 with (T / T * 100) at 2 by (field; lra).
    now apply share_monotone.
Qed.

Lemma entry_le_qsum (l : list Q) (x : Q) :
  (forall y, In y l -> 0 <= y) -> In x l -> x <= qsum l.
Proof.
  induction l as [| a rest IH]; intros Hnn Hx; [destruct Hx |].
  destruct Hx as [<- | Hx]; simpl.
  - assert (0 <= qsum rest) by (apply qsum_nonneg; intros y Hy; apply Hnn; now right).
    lra.
  - assert (0 <= a) by (apply Hnn; now left).
    assert (x <= qsum rest) by (apply IH; [intros y Hy; apply Hnn; now right | exact Hx]).
    lra.
Qed.

Lemma Forall2_map_both {A B C : Type} (R : B -> C -> Prop) (f : A -> B) (g : A -> C)
  (l : list A) :
  (forall x, In x l -> R (f x) (g x)) -> Forall2 R (map f l) (map g l).
Proof.
  induction l as [| x rest IH]; intros H; simpl; constructor.
  - apply H. now left.
  - apply IH. intros y Hy. apply H. now right.
Qed.

Lemma qsum_shares (T : Q) (l : list Q) :
  qsum (map (fun t => t / T * 100) l) == qsum l / T * 100.
Proof.
  induction l as [| x rest IH]; simpl.
  - unfold Qdiv. ring.
  - rewrite IH. unfold Qdiv. ring.
Qed.

(** C8 (as amended). For a summary whose group totals are not negative and
    whose grand total is positive, each [total_monetary_percent] is
    [100 * total_monetary / grand_total] rounded to two decimals (a whole
    number of hundredths within 0.005 of the exact share), lies between 0
    and 100, and the column sums to 100 within 0.01 per row. *)
Theorem percent_of_grand_total (rows : list rfm_row) :
  let summary := data_rfm_summary rows in
  let T := qsum (map total_monetary summary) in
  (forall s, In s summary -> 0 <= total_monetary s) ->
  0 < T ->
  exists ps,
    map total_monetary_percent summary = map Fin ps
    /\ Forall2 (fun s p =>
                  p = round2 (total_monetary s / T * 100)
                  /\ (exists z, p == inject_Z z / 100)
                  /\ Qabs (p - 100 * total_monetary s / T) <= 1 # 200
                  /\ 0 <= p <= 100)
               summary ps
    /\ Qabs (qsum ps - 100) <= inject_Z (Z.of_nat (List.length summary)) * (1 # 100).
Proof.
  intros summary T Hnonneg HT.
  assert (Htotals : map total_monetary summary = map snd (segment_groups rows))
    by apply summary_totals.
  set (groups := segment_groups rows) in *.
  assert (HT' : T = qsum (map snd groups)) by (unfold T; now rewrite Htotals).
  assert (Hgroup : forall g, In g groups -> 0 <= snd g <= T).
  { intros g Hg.
    assert (Hin : In (snd g) (map total_monetary summary))
      by (rewrite Htotals; now apply in_map).
    split.
    - apply in_map_iff in Hin. destruct Hin as [s [<- Hs]]. now apply Hnonneg.
    - unfold T. apply entry_le_qsum; [| exact Hin].
      intros y Hy. apply in_map_iff in Hy. destruct Hy as [s [<- Hs]].
      now apply Hnonneg. }
  exists (map (fun g => round2 (snd g / T * 100)) groups).
  split; [| split].
  - unfold summary, data_rfm_summary. fold groups. rewrite <- HT'.
    rewrite !map_map. apply map_ext. intros g. cbn [total_monetary_percent].
    now apply percent_of_positive_total.
  - unfold summary, data_rfm_summary. fold groups.
    apply Forall2_map_both. intros g Hg. cbn [total_monetary].
    split; [reflexivity |]. split; [apply round2_hundredths |]. split.
    + setoid_replace (100 * snd g / T) with (snd g / T * 100) by (field; lra).
      apply round2_error.
    + apply round2_range. apply share_range; [exact HT | now apply Hgroup].
  - assert (Hlen : List.length summary = List.length groups)
      by (unfold summary, data_rfm_summary; now rewrite length_map).
    assert (Hsum : qsum (map (fun t => t / T * 100) (map snd groups)) == 100).
    { rewrite qsum_shares, <- HT'. field. lra. }
    assert (Herr : Qabs (qsum (map (fun g => round2 (snd g / T * 100)) groups)
                         - qsum (map (fun t => t / T * 100) (map snd groups)))
                   <= inject_Z (Z.of_nat (List.length groups)) * (1 # 200)).
    { rewrite <- (length_map (fun g => round2 (snd g / T * 100)) groups).
      apply qsum_error. rewrite map_map. apply Forall2_map_both.
      intros g _. apply round2_error. }
    rewrite Hsum in Herr. rewrite Hlen.
    assert (Hn : 0 <= inject_Z (Z.of_nat (List.length groups))).
    { change 0 with (inject_Z 0). rewrite <- Zle_Qle. lia. }
    apply Qabs_Qle_condition in Herr. apply Qabs_Qle_condition. lra.
Qed.

Lemma percent_of_grand_total_witness :
  exists ps,
    map total_monetary_percent (data_rfm_summary (rfm_rows_of five_customers))
    = map Fin ps
    /\ Qabs (qsum ps - 100) <= 4 * (1 # 100).
Proof.
  assert (Hlen : List.length (data_rfm_summary (rfm_rows_of five_customers)) = 4%nat)
    by (vm_compute; reflexivity).
  destruct (percent_of_grand_total (rfm_rows_of five_customers))
    as [ps [Hps [_ Hsum]]].
  - intros s Hs. vm_compute in Hs.
    repeat (destruct Hs as [<- | Hs]; [vm_compute; discriminate |]).
    contradiction.
  - vm_compute. reflexivity.
  - exists ps. split; [exact Hps |].
    rewrite Hlen in Hsum. exact Hsum.
Defined.

(** C8, the claim as written, fails on a summary whose grand total is 0:
    the share of the only group is 0/0, so its [total_monetary_percent] is
    NaN, not a number between 0 and 100. *)
Lemma percent_of_grand_total_counterexample :
  data_rfm_summary zero_total_rows <> []
  /\ map total_monetary_percent (data_rfm_summary zero_total_rows) = [NaN]
  /\ ~ (forall s, In s (data_rfm_summary zero_total_rows) ->
                  exists p, total_monetary_percent s = Fin p /\ 0 <= p <= 100).
Proof.
  split; [vm_compute; discriminate |].
  split; [vm_compute; reflexivity |].
  intros H.
  destruct (H (nth 0 (data_rfm_summary zero_total_rows) sample_summary_row))
    as [p [Hp _]].
  - vm_compute. left. reflexivity.
  - vm_compute in Hp. discriminate Hp.
Qed.

End PercentClaims.

(** ** Claims about the order aggregator *)

Section AggregatorClaims.

Local Open Scope Q_scope.

Lemma filter_none {A : Type} (f : A -> bool) (l : list A) :
  (forall x, In x l -> f x = false) -> filter f l = [].
Proof.
  induction l as [| x rest IH]; intros H; simpl; [reflexivity |].
  rewrite (H x) by now left. apply IH. intros y Hy. apply H. now right.
Qed.

Lemma merged_rows_of_order (o : order) (items_ : list order_items_row) (m : merged_row) :
  In m (merged_rows_of o items_) -> m_order m = o.
Proof.
  unfold merged_rows_of.
  destruct (filter _ items_) as [| g gs]; intros H.
  - destruct H as [<- | []]. reflexivity.
  - apply in_map_iff in H. destruct H as [g' [<- _]]. reflexivity.
Qed.

Lemma merge_left_order (orders : list order) (items_ : list order_items_row)
  (m : merged_row) :
  In m (merge_left orders items_) -> In (m_order m) orders.
Proof.
  unfold merge_left. intros H. apply in_flat_map in H.
  destruct H as [o [Ho Hm]]. apply merged_rows_of_order in Hm. now subst.
Qed.

(** C9. When no order of the filtered population is delivered, the
    pipeline runs to its end without raising, and [data_orders], [df_rfm],
    the summary and its Pareto form are all empty. *)
Theorem empty_population (orders : list order) (items : list order_item)
  (selected_segments : list string) :
  (forall o, In o orders -> order_status o <> "delivered"%string) ->
  data_orders orders items = []
  /\ df_rfm (data_orders orders items) = Ok []
  /\ pipeline orders items selected_segments
     = Ok {| t_data_orders := []; t_df_rfm := []; t_summary := []; t_pareto := [] |}.
Proof.
  intros Hnone.
  assert (Hdelivered :
            filter (fun m => String.eqb (order_status (m_order m)) "delivered")
                   (merge_left orders (df_order_items_ items)) = []).
  { apply filter_none. intros m Hm. apply merge_left_order in Hm.
    apply String.eqb_neq. now apply Hnone. }
  assert (Hempty : data_orders orders items = []).
  { unfold data_orders. cbv zeta. rewrite Hdelivered. reflexivity. }
  split; [exact Hempty |]. unfold pipeline. rewrite Hempty. split; reflexivity.
Qed.

Lemma empty_population_witness :
  pipeline undelivered_orders one_item ["Champions"%string]
  = Ok {| t_data_orders := []; t_df_rfm := []; t_summary := []; t_pareto := [] |}.
Proof.
  apply (empty_population undelivered_orders one_item ["Champions"%string]).
  intros o Ho. simpl in Ho.
  repeat (destruct Ho as [<- | Ho]; [discriminate |]). contradiction.
Defined.

End AggregatorClaims.

(** ** Facts about grouped sums *)

Section GroupFacts.

Local Open Scope Q_scope.

Context {A K : Type} (key : A -> K) (eqb : K -> K -> bool) (f : A -> Q).
Hypothesis eqb_spec : forall a b, eqb a b = true <-> a = b.

Lemma dedup_In (l : list K) (k : K) : In k (dedup eqb l) <-> In k l.
Proof.
  induction l as [| x rest IH]; simpl; [tauto |].
  destruct (existsb (eqb x) rest) eqn:E.
  - rewrite IH. split; [tauto |]. intros [<- | H]; [| exact H].
    apply existsb_exists in E. destruct E as [y [Hy Exy]].
    apply eqb_spec in Exy. now subst.
  - simpl. rewrite IH. tauto.
Qed.

Lemma dedup_NoDup (l : list K) : NoDup (dedup eqb l).
Proof.
  induction l as [| x rest IH]; simpl; [constructor |].
  destruct (existsb (eqb x) rest) eqn:E; [exact IH |].
  constructor; [| exact IH].
  rewrite dedup_In. intros Hin.
  assert (existsb (eqb x) rest = true).
  { apply existsb_exists. exists x. split; [exact Hin | now apply eqb_spec]. }
  congruence.
Qed.

Lemma group_keys_In (leb : K -> K -> bool) (l : list K) (k : K) :
  In k (group_keys eqb leb l) <-> In k l.
Proof. unfold group_keys. rewrite sort_by_In. apply dedup_In. Qed.

Lemma group_keys_NoDup (leb : K -> K -> bool) (l : list K) :
  NoDup (group_keys eqb leb l).
Proof.
  unfold group_keys.
  eapply Permutation_NoDup; [symmetry; apply sort_by_perm | apply dedup_NoDup].
Qed.

Lemma qsum_map_ext {B : Type} (u v : B -> Q) (l : list B) :
  (forall x, u x == v x) -> qsum (map u l) == qsum (map v l).
Proof.
  intros H. induction l as [| x rest IH]; simpl; [reflexivity |].
  rewrite H, IH. reflexivity.
Qed.

Lemma qsum_map_plus {B : Type} (u v : B -> Q) (l : list B) :
  qsum (map (fun x => u x + v x) l) == qsum (map u l) + qsum (map v l).
Proof.
  induction l as [| x rest IH]; simpl; [lra | rewrite IH; lra].
Qed.

Lemma indicator_sum_absent (k0 : K) (v : Q) (ks : list K) :
  ~ In k0 ks -> qsum (map (fun k => if eqb k0 k then v else 0) ks) == 0.
Proof.
  induction ks as [| k rest IH]; intros Hnot; simpl; [reflexivity |].
  destruct (eqb k0 k) eqn:E.
  - apply eqb_spec in E. exfalso. apply Hnot. now left.
  - rewrite IH; [lra |]. intros H. apply Hnot. now right.
Qed.

Lemma indicator_sum_present (k0 : K) (v : Q) (ks : list K) :
  NoDup ks -> In k0 ks -> qsum (map (fun k => if eqb k0 k then v else 0) ks) == v.
Proof.
  induction 1 as [| k rest Hk Hnd IH]; intros Hin; [destruct Hin |]. simpl.
  destruct (eqb k0 k) eqn:E.
  - apply eqb_spec in E. subst k0.
    rewrite indicator_sum_absent by exact Hk. lra.
  - destruct Hin as [-> | Hin].
    + assert (eqb k0 k0 = true) by now apply eqb_spec. congruence.
    + rewrite IH by exact Hin. lra.
Qed.

(** Summing the per-group sums over the selected keys is summing over the
    rows whose key is selected. *)
Lemma grouped_sum (P : K -> bool) (keys : list K) (l : list A) :
  NoDup keys -> (forall x, In x l -> In (key x) keys) ->
  qsum (map (fun k => qsum (map f (filter (fun x => eqb (key x) k) l))) (filter P keys))
  == qsum (map f (filter (fun x => P (key x)) l)).
Proof.
  intros Hnd. induction l as [| a rest IH]; intros Hcover.
  - simpl. induction (filter P keys) as [| k ks IHk]; simpl; [reflexivity |].
    rewrite IHk. lra.
  - assert (Hstep :
      qsum (map (fun k => qsum (map f (filter (fun x => eqb (key x) k) (a :: rest))))
                (filter P keys))
      == qsum (map (fun k => if eqb (key a) k then f a else 0) (filter P keys))
         + qsum (map (fun k => qsum (map f (filter (fun x => eqb (key x) k) rest)))
                     (filter P keys))).
    { rewrite <- qsum_map_plus. apply qsum_map_ext. intros k. simpl.
      destruct (eqb (key a) k); simpl; lra. }
    rewrite Hstep. rewrite IH by (intros x Hx; apply Hcover; now right).
    simpl. destruct (P (key a)) eqn:EP; simpl.
    + rewrite indicator_sum_present; [reflexivity | now apply NoDup_filter |].
      apply filter_In. split; [apply Hcover; now left | exact EP].
    + rewrite indicator_sum_absent; [lra |].
      intros H. apply filter_In in H. destruct H as [_ H]. congruence.
Qed.

End GroupFacts.

(** ** Claims about the monetary total *)

Section MonetaryClaims.

Local Open Scope Q_scope.

Lemma key_eqb_spec (a b : item_key) : key_eqb a b = true <-> a = b.
Proof.
  destruct a as [[o1 p1] d1], b as [[o2 p2] d2]. unfold key_eqb.
  rewrite !andb_true_iff, !String.eqb_eq, Z.eqb_eq. split.
  - intros [[-> ->] ->]. reflexivity.
  - intros H. injection H as -> -> ->. auto.
Qed.

Lemma filter_map_comm {A B : Type} (P : B -> bool) (g : A -> B) (l : list A) :
  filter P (map g l) = map g (filter (fun x => P (g x)) l).
Proof.
  induction l as [| x rest IH]; simpl; [reflexivity |].
  destruct (P (g x)); simpl; now rewrite IH.
Qed.

Lemma filter_all {A : Type} (P : A -> bool) (l : list A) :
  (forall x, In x l -> P x = true) -> filter P l = l.
Proof.
  induction l as [| x rest IH]; intros H; simpl; [reflexivity |].
  rewrite (H x) by now left. f_equal. apply IH. intros y Hy. apply H. now right.
Qed.

(** The groups of [df_order_items_] that belong to one order carry, in
    [total_price], the prices of that order's items. *)
Lemma items_group_total (items : list order_item) (oid : string) :
  qsum (map total_price
            (filter (fun g => String.eqb (g_order_id g) oid) (df_order_items_ items)))
  == qsum (map price (filter (fun i => String.eqb (item_order_id i) oid) items)).
Proof.
  unfold df_order_items_. rewrite filter_map_comm, map_map.
  cbn [g_order_id total_price].
  apply (grouped_sum key_of key_eqb price key_eqb_spec
           (fun k => String.eqb (fst (fst k)) oid)).
  - apply group_keys_NoDup. exact key_eqb_spec.
  - intros i Hi. apply group_keys_In; [exact key_eqb_spec |]. now apply in_map.
Qed.

Lemma sum_skipna_app (l1 l2 : list (option Q)) :
  sum_skipna (l1 ++ l2) == sum_skipna l1 + sum_skipna l2.
Proof.
  induction l1 as [| x rest IH]; simpl; [lra |].
  destruct x; rewrite IH; lra.
Qed.

Lemma merged_rows_total (o : order) (items_ : list order_items_row) :
  sum_skipna (map (fun m => option_map total_price (m_items m)) (merged_rows_of o items_))
  == qsum (map total_price
               (filter (fun g => String.eqb (g_order_id g) (order_id o)) items_)).
Proof.
  unfold merged_rows_of.
  destruct (filter _ items_) as [| g gs]; [reflexivity |].
  induction (g :: gs) as [| x rest IH]; simpl; [reflexivity |].
  rewrite IH. reflexivity.
Qed.

Lemma merge_left_total (orders : list order) (items_ : list order_items_row) :
  sum_skipna (map (fun m => option_map total_price (m_items m)) (merge_left orders items_))
  == qsum (map (fun o =>
                  qsum (map total_price
                            (filter (fun g => String.eqb (g_order_id g) (order_id o)) items_)))
               orders).
Proof.
  unfold merge_left. induction orders as [| o rest IH]; simpl; [reflexivity |].
  rewrite map_app, sum_skipna_app, merged_rows_total, IH. reflexivity.
Qed.

(** Filtering merged rows on a column of the order is filtering the orders. *)
Lemma filter_merge_left (P : order -> bool) (orders : list order)
  (items_ : list order_items_row) :
  filter (fun m => P (m_order m)) (merge_left orders items_)
  = merge_left (filter P orders) items_.
Proof.
  unfold merge_left. induction orders as [| o rest IH]; simpl; [reflexivity |].
  rewrite filter_app, IH. destruct (P o) eqn:E; simpl.
  - f_equal. apply filter_all. intros m Hm.
    apply merged_rows_of_order in Hm. now rewrite Hm.
  - rewrite filter_none; [reflexivity |]. intros m Hm.
    apply merged_rows_of_order in Hm. now rewrite Hm.
Qed.

(** C1 (as amended). For every customer of [data_orders], the total, which
    is the [monetary] of the customer's RFM record, is the sum of [price]
    over the items of the customer's delivered orders; [freight_value] is
    not part of it. *)
Theorem monetary_is_price_total (orders : list order) (items : list order_item) :
  (forall r, In r (data_orders orders items) ->
             c_total_price r == price_total orders items (c_customer_id r))
  /\ exists rows,
       df_rfm (data_orders orders items) = Ok rows
       /\ forall row, In row rows ->
                      monetary row == price_total orders items (customer_unique_id row).
Proof.
  assert (Hrow : forall r, In r (data_orders orders items) ->
                   c_total_price r == price_total orders items (c_customer_id r)).
  { intros r Hr. unfold data_orders in Hr. cbv zeta in Hr.
    apply sort_by_In in Hr. apply in_map_iff in Hr. destruct Hr as [c [<- _]].
    cbn [c_total_price c_customer_id].
    rewrite (filter_merge_left (fun o => String.eqb (order_status o) "delivered")).
    rewrite (filter_merge_left (fun o => String.eqb (customer_id o) c)).
    rewrite merge_left_total. unfold price_total.
    apply qsum_map_ext. intros o. apply items_group_total. }
  split; [exact Hrow |].
  exists (rfm_rows_of (data_orders orders items)). split; [apply df_rfm_ok |].
  intros row Hin. unfold rfm_rows_of in Hin. apply in_map_iff in Hin.
  destruct Hin as [c [<- Hc]]. cbn [rfm_row_of monetary customer_unique_id].
  apply Hrow. now apply sort_by_In in Hc.
Qed.

Lemma monetary_is_price_total_witness :
  forallb (fun r => Qeq_bool (c_total_price r) 10) (data_orders one_order one_item) = true.
Proof.
  destruct (monetary_is_price_total one_order one_item) as [Hrow _].
  apply forallb_forall. intros r Hr. apply Qeq_bool_iff.
  rewrite (Hrow r Hr).
  vm_compute in Hr. destruct Hr as [<- | []]. reflexivity.
Defined.

(** C1, the claim as written, fails: for one delivered order with one item
    of price 10 and freight 5 the customer's total is 10, while the sum of
    [price + freight_value] is 15. *)
Lemma monetary_is_price_total_counterexample :
  exists r,
    In r (data_orders one_order one_item)
    /\ c_total_price r == 10
    /\ spec_total_monetary one_order one_item (c_customer_id r) == 15
    /\ ~ c_total_price r == spec_total_monetary one_order one_item (c_customer_id r).
Proof.
  exists {| c_customer_id := "c1"; last_purchase_date := Some (10 * day)%Z;
            order_count := 1; c_total_price := 10 + 0 |}.
  split; [vm_compute; left; reflexivity |].
  split; [reflexivity |]. split; [reflexivity |].
  intros H. vm_compute in H. discriminate H.
Qed.

End MonetaryClaims.

(** * Further properties of the pipeline *)

(** ** The quantile breakpoints *)

Section QuantileFacts.

Local Open Scope Q_scope.

Lemma quantile_interpolate (col : list Q) (q : Q) :
  col <> [] ->
  quantile col q
  = Fin (interpolate (sort_by Qle_bool col)
           (q * inject_Z (Z.of_nat (List.length col) - 1))).
Proof.
  intros Hne. unfold quantile.
  pose proof (sort_by_length Qle_bool col) as Hlen.
  destruct (sort_by Qle_bool col) as [| x rest] eqn:E.
  - destruct col; [congruence | discriminate].
  - rewrite <- Hlen. reflexivity.
Qed.

Lemma floor_fraction (pos : Q) :
  0 <= pos - inject_Z (Qfloor pos) /\ pos - inject_Z (Qfloor pos) < 1.
Proof.
  pose proof (Qfloor_le pos). pose proof (Qlt_floor pos) as H1.
  rewrite inject_Z_plus in H1. change (inject_Z 1) with 1 in H1. lra.
Qed.

Lemma between_convex (a b t lo hi : Q) :
  0 <= t -> t <= 1 -> lo <= a <= hi -> lo <= b <= hi ->
  lo <= a + (b - a) * t <= hi.
Proof.
  intros Ht0 Ht1 [Hla Hah] [Hlb Hbh].
  assert (E : a + (b - a) * t == (1 - t) * a + t * b) by ring.
  rewrite E.
  assert (H1 : 0 <= 1 - t) by lra.
  assert ((1 - t) * lo <= (1 - t) * a) by nra.
  assert (t * lo <= t * b) by nra.
  assert ((1 - t) * a <= (1 - t) * hi) by nra.
  assert (t * b <= t * hi) by nra.
  split; lra.
Qed.

Lemma floor_index (pos : Q) (n : nat) :
  0 <= pos -> pos <= inject_Z (Z.of_nat n - 1) ->
  (0 <= Qfloor pos)%Z /\ (Z.to_nat (Qfloor pos) < n)%nat.
Proof.
  intros H0 H1.
  assert (Hlo : (0 <= Qfloor pos)%Z).
  { change 0%Z with (Qfloor 0). now apply Qfloor_resp_le. }
  assert (Hhi : (Qfloor pos <= Z.of_nat n - 1)%Z).
  { rewrite <- (Qfloor_Z (Z.of_nat n - 1)). now apply Qfloor_resp_le. }
  split; [exact Hlo | lia].
Qed.

Lemma quantile_position (q : Q) (n : nat) :
  (0 < n)%nat -> 0 <= q <= 1 ->
  0 <= q * inject_Z (Z.of_nat n - 1)
  /\ q * inject_Z (Z.of_nat n - 1) <= inject_Z (Z.of_nat n - 1).
Proof.
  intros Hn [H0 H1].
  assert (Hm : 0 <= inject_Z (Z.of_nat n - 1)).
  { change 0 with (inject_Z 0). rewrite <- Zle_Qle. lia. }
  split; nra.
Qed.

(** The interpolated value is a mixture of two entries of the column. *)
Lemma interpolate_between (s : list Q) (pos lo hi : Q) :
  (Z.to_nat (Qfloor pos) < List.length s)%nat ->
  (forall x, In x s -> lo <= x <= hi) ->
  lo <= interpolate s pos <= hi.
Proof.
  intros Hidx Hall. unfold interpolate.
  destruct (floor_fraction pos) as [Hf0 Hf1].
  set (a := nth (Z.to_nat (Qfloor pos)) s 0).
  assert (Ha : lo <= a <= hi) by (apply Hall, nth_In, Hidx).
  assert (Hb : lo <= nth (Z.to_nat (Qfloor pos + 1)) s a <= hi).
  { destruct (Nat.lt_ge_cases (Z.to_nat (Qfloor pos + 1)) (List.length s)) as [Hlt | Hge].
    - apply Hall, nth_In, Hlt.
    - rewrite nth_overflow by exact Hge. exact Ha. }
  apply between_convex; try assumption. lra.
Qed.

Lemma sorted_column (col : list Q) : StronglySorted Qle (sort_by Qle_bool col).
Proof.
  apply Sorted_StronglySorted.
  - intros x y z. apply Qle_trans.
  - apply (Sorted_weaken (fun a b => Qle_bool a b = true)).
    + intros a b H. now apply Qle_bool_iff.
    + apply sort_by_sorted. apply Qle_bool_total.
Qed.

Lemma nth_sorted (s : list Q) (i j : nat) (d d' : Q) :
  StronglySorted Qle s -> (i <= j)%nat -> (j < List.length s)%nat ->
  nth i s d <= nth j s d'.
Proof.
  intros Hs. revert i j. induction Hs as [| x rest Hs IH Hx]; intros i j Hij Hj.
  - simpl in Hj. lia.
  - destruct i as [| i], j as [| j]; simpl in *.
    + apply Qle_refl.
    + rewrite Forall_forall in Hx. apply Hx, nth_In. lia.
    + lia.
    + apply IH; lia.
Qed.

(** On a sorted column the interpolated value grows with the position. *)
Lemma interpolate_mono (s : list Q) (p p' : Q) :
  StronglySorted Qle s -> 0 <= p -> p <= p' ->
  (Z.to_nat (Qfloor p') < List.length s)%nat ->
  interpolate s p <= interpolate s p'.
Proof.
  intros Hs H0 Hpp Hidx.
  assert (Hfl : (Qfloor p <= Qfloor p')%Z) by now apply Qfloor_resp_le.
  assert (Hfl0 : (0 <= Qfloor p)%Z).
  { change 0%Z with (Qfloor 0). now apply Qfloor_resp_le. }
  destruct (floor_fraction p) as [Hf0 Hf1].
  destruct (floor_fraction p') as [Hf0' Hf1'].
  unfold interpolate.
  set (a := nth (Z.to_nat (Qfloor p)) s 0).
  set (a' := nth (Z.to_nat (Qfloor p')) s 0).
  set (b := nth (Z.to_nat (Qfloor p + 1)) s a).
  set (b' := nth (Z.to_nat (Qfloor p' + 1)) s a').
  assert (Hab : a <= b).
  { subst a b.
    destruct (Nat.lt_ge_cases (Z.to_nat (Qfloor p + 1)) (List.length s)) as [Hlt | Hge].
    - apply nth_sorted; [exact Hs | lia | exact Hlt].
    - rewrite (nth_overflow s _ Hge). apply Qle_refl. }
  assert (Hab' : a' <= b').
  { subst a' b'.
    destruct (Nat.lt_ge_cases (Z.to_nat (Qfloor p' + 1)) (List.length s)) as [Hlt | Hge].
    - apply nth_sorted; [exact Hs | lia | exact Hlt].
    - rewrite (nth_overflow s _ Hge). apply Qle_refl. }
  destruct (Z.eq_dec (Qfloor p) (Qfloor p')) as [E | E].
  - assert (Ea : a' = a) by (subst a a'; now rewrite E).
    assert (Eb : b' = b) by (subst b b'; rewrite Ea; subst a; now rewrite E).
    rewrite Ea, Eb, <- E. nra.
  - assert (Hba : b <= a').
    { subst b a'. apply nth_sorted; [exact Hs | lia | exact Hidx]. }
    nra.
Qed.

End QuantileFacts.

Section QuantileProperties.

Local Open Scope Q_scope.

(** X1. The quantile of an empty column is NaN. For a column with at
    least one entry and a level between 0 and 1 the quantile is a finite
    number that lies within any bounds that hold for all entries of the
    column. *)
Theorem quantile_within_column :
  (forall q, quantile [] q = NaN)
  /\ forall col q,
       col <> [] -> 0 <= q <= 1 ->
       exists v,
         quantile col q = Fin v
         /\ forall lo hi, (forall x, In x col -> lo <= x <= hi) -> lo <= v <= hi.
Proof.
  split; [reflexivity |].
  intros col q Hne Hq.
  rewrite (quantile_interpolate col q Hne). eexists. split; [reflexivity |].
  intros lo hi Hall.
  assert (Hn : (0 < List.length col)%nat) by (destruct col; [congruence | simpl; lia]).
  destruct (quantile_position q _ Hn Hq) as [H0 H1].
  destruct (floor_index _ _ H0 H1) as [_ Hidx].
  apply interpolate_between.
  - now rewrite sort_by_length.
  - intros x Hx. apply Hall. now apply sort_by_In in Hx.
Qed.

Lemma quantile_within_column_witness :
  exists v, quantile [3; 1; 2] (1 # 2) = Fin v /\ 1 <= v <= 3.
Proof.
  destruct quantile_within_column as [_ H].
  destruct (H [3; 1; 2] (1 # 2)) as [v [Hv Hb]].
  - discriminate.
  - split; vm_compute; discriminate.
  - exists v. split; [exact Hv |]. apply Hb.
    intros x Hx. simpl in Hx.
    repeat (destruct Hx as [<- | Hx]; [split; vm_compute; discriminate |]).
    contradiction.
Defined.

Lemma quantile_mono (col : list Q) (q q' : Q) :
  col <> [] -> 0 <= q -> q <= q' -> q' <= 1 ->
  exists v v', quantile col q = Fin v /\ quantile col q' = Fin v' /\ v <= v'.
Proof.
  intros Hne H0 Hqq H1.
  rewrite !(quantile_interpolate col _ Hne). eexists. eexists.
  split; [reflexivity |]. split; [reflexivity |].
  assert (Hn : (0 < List.length col)%nat) by (destruct col; [congruence | simpl; lia]).
  destruct (quantile_position q _ Hn) as [Hp0 _]; [lra |].
  destruct (quantile_position q' _ Hn) as [Hp0' Hp1']; [lra |].
  destruct (floor_index _ _ Hp0' Hp1') as [_ Hidx].
  assert (Hm : 0 <= inject_Z (Z.of_nat (List.length col) - 1)).
  { change 0 with (inject_Z 0). rewrite <- Zle_Qle. lia. }
  apply interpolate_mono.
  - apply sorted_column.
  - exact Hp0.
  - nra.
  - now rewrite sort_by_length.
Qed.

(** X2. The four breakpoints of a column with at least one entry are
    finite and ordered: 0.2-quantile <= 0.4-quantile <= 0.6-quantile <=
    0.8-quantile. *)
Theorem quartiles_ordered (col : list Q) :
  col <> [] ->
  exists a b c d,
    quartiles_of col = {| q02 := Fin a; q04 := Fin b; q06 := Fin c; q08 := Fin d |}
    /\ a <= b /\ b <= c /\ c <= d.
Proof.
  intros Hne. unfold quartiles_of.
  destruct (quantile_mono col (2 # 10) (4 # 10) Hne) as [a [b [Ha [Hb Hab]]]]; try lra.
  destruct (quantile_mono col (4 # 10) (6 # 10) Hne) as [b' [c [Hb' [Hc Hbc]]]]; try lra.
  destruct (quantile_mono col (6 # 10) (8 # 10) Hne) as [c' [d [Hc' [Hd Hcd]]]]; try lra.
  rewrite Hb in Hb'. injection Hb' as <-. rewrite Hc in Hc'. injection Hc' as <-.
  exists a, b, c, d. rewrite Ha, Hb, Hc, Hd. repeat split; assumption.
Qed.

Lemma quartiles_ordered_witness :
  exists a b c d,
    quartiles_of [30; 10; 50; 40; 20]
    = {| q02 := Fin a; q04 := Fin b; q06 := Fin c; q08 := Fin d |}
    /\ a <= b /\ b <= c /\ c <= d.
Proof. apply quartiles_ordered. discriminate. Defined.

End QuantileProperties.

(** ** Scores within a population *)

Section PopulationScores.

Local Open Scope Q_scope.

Lemma ge_mono (v v' : Q) (b : float64) : v <= v' -> ge v b = true -> ge v' b = true.
Proof.
  intros Hvv. destruct b as [q | | |]; simpl; try (intros H; exact H).
  intros H. apply Qle_bool_iff in H. apply Qle_bool_iff. lra.
Qed.

(** Splits every comparison of [v] and [v'] in a score and removes the
    cases in which the smaller value passes a test the greater one fails. *)
Ltac compare_scores v v' Hvv :=
  repeat match goal with
         | |- context [ge v ?b] => let E := fresh "E" in destruct (ge v b) eqn:E
         end;
  repeat match goal with
         | |- context [ge v' ?b] => let E := fresh "E" in destruct (ge v' b) eqn:E
         end;
  try lia;
  match goal with
  | H : ge v ?b = true, H' : ge v' ?b = false |- _ =>
      rewrite (ge_mono v v' b Hvv H) in H'; discriminate H'
  end.

Lemma f_score_mono (v v' : Q) (qs : quartiles) :
  v <= v' -> (f_score v qs <= f_score v' qs)%Z.
Proof. intros Hvv. unfold f_score. compare_scores v v' Hvv. Qed.

Lemma m_score_mono (v v' : Q) (qs : quartiles) :
  v <= v' -> (m_score v qs <= m_score v' qs)%Z.
Proof. intros Hvv. unfold m_score. compare_scores v v' Hvv. Qed.

Lemma r_score_antimono (v v' : Q) (qs : quartiles) :
  v <= v' -> (r_score v' qs <= r_score v qs)%Z.
Proof. intros Hvv. unfold r_score. compare_scores v v' Hvv. Qed.

(** The scores of a row are computed from the row's own values and the
    breakpoints of the three columns of the table. *)
Lemma rfm_rows_scores (d : list customer_row) (r : rfm_row) :
  In r (rfm_rows_of d) ->
  R_Score r = r_score (inject_Z (recency r))
                (quartiles_of (map (fun x => inject_Z (recency x)) (rfm_rows_of d)))
  /\ F_Score r = f_score (inject_Z (freq r))
                   (quartiles_of (map (fun x => inject_Z (freq x)) (rfm_rows_of d)))
  /\ M_Score r = m_score (monetary r) (quartiles_of (map monetary (rfm_rows_of d))).
Proof.
  intros Hr.
  assert (HR : map (fun x => inject_Z (recency x)) (rfm_rows_of d)
               = map inject_Z
                   (map (fun c => recency_of
                                    (recency_date (map last_purchase_date (sort_by date_leb d)))
                                    (last_purchase_date c))
                        (sort_by date_leb d)))
    by (unfold rfm_rows_of; rewrite !map_map; reflexivity).
  assert (HF : map (fun x => inject_Z (freq x)) (rfm_rows_of d)
               = map (fun c => inject_Z (order_count c)) (sort_by date_leb d))
    by (unfold rfm_rows_of; rewrite !map_map; reflexivity).
  assert (HM : map monetary (rfm_rows_of d) = map c_total_price (sort_by date_leb d))
    by (unfold rfm_rows_of; rewrite !map_map; reflexivity).
  rewrite HR, HF, HM.
  unfold rfm_rows_of in Hr. apply in_map_iff in Hr. destruct Hr as [c [<- _]].
  repeat split.
Qed.

Lemma column_lower_bound (col : list Q) : exists lo, forall x, In x col -> lo <= x.
Proof.
  destruct col as [| x rest].
  - exists 0. intros y [].
  - exists (fold_right Qmin x rest). apply fold_Qmin_is_min.
Qed.

(** A value that no entry of the column exceeds passes the top test. *)
Lemma top_of_column (col : list Q) (v : Q) :
  col <> [] -> (forall x, In x col -> x <= v) -> ge v (q08 (quartiles_of col)) = true.
Proof.
  intros Hne Hmax.
  cbn [quartiles_of q08]. rewrite (quantile_interpolate col _ Hne).
  assert (Hn : (0 < List.length col)%nat) by (destruct col; [congruence | simpl; lia]).
  destruct (quantile_position (8 # 10) _ Hn) as [H0 H1]; [lra |].
  destruct (floor_index _ _ H0 H1) as [_ Hidx].
  destruct (column_lower_bound col) as [lo Hlo].
  apply ge_Fin_true.
  apply (interpolate_between _ _ lo v).
  - now rewrite sort_by_length.
  - intros x Hx. apply sort_by_In in Hx. split; [now apply Hlo | now apply Hmax].
Qed.

(** X3. Within one population the scores follow the raw values: of two
    customers the one with the greater monetary value has no lower
    M score, the one with more orders has no lower F score, and the one
    with the greater recency (the staler one) has no higher R score. *)
Theorem scores_follow_values (d : list customer_row) :
  exists rows,
    df_rfm d = Ok rows
    /\ forall r1 r2, In r1 rows -> In r2 rows ->
         (monetary r1 <= monetary r2 -> (M_Score r1 <= M_Score r2)%Z)
         /\ ((freq r1 <= freq r2)%Z -> (F_Score r1 <= F_Score r2)%Z)
         /\ ((recency r1 <= recency r2)%Z -> (R_Score r2 <= R_Score r1)%Z).
Proof.
  exists (rfm_rows_of d). split; [apply df_rfm_ok |].
  intros r1 r2 H1 H2.
  destruct (rfm_rows_scores d r1 H1) as [HR1 [HF1 HM1]].
  destruct (rfm_rows_scores d r2 H2) as [HR2 [HF2 HM2]].
  rewrite HR1, HF1, HM1, HR2, HF2, HM2. split; [| split].
  - apply m_score_mono.
  - intros H. apply f_score_mono. now rewrite <- Zle_Qle.
  - intros H. apply r_score_antimono. now rewrite <- Zle_Qle.
Qed.

Lemma scores_follow_values_witness :
  exists rows,
    df_rfm five_customers = Ok rows
    /\ forall r1 r2, In r1 rows -> In r2 rows ->
         monetary r1 <= monetary r2 -> (M_Score r1 <= M_Score r2)%Z.
Proof.
  destruct (scores_follow_values five_customers) as [rows [Hok H]].
  exists rows. split; [exact Hok |].
  intros r1 r2 H1 H2. apply (H r1 r2 H1 H2).
Defined.

(** X4. In every population a customer whose monetary value is the
    greatest has M score 5, a customer with the most orders has F score 5,
    and a customer with the greatest recency has R score 1. In particular,
    when all customers tie on a dimension, all get that score. *)
Theorem top_customers_scores (d : list customer_row) :
  exists rows,
    df_rfm d = Ok rows
    /\ forall r, In r rows ->
         ((forall r', In r' rows -> monetary r' <= monetary r) -> M_Score r = 5%Z)
         /\ ((forall r', In r' rows -> (freq r' <= freq r)%Z) -> F_Score r = 5%Z)
         /\ ((forall r', In r' rows -> (recency r' <= recency r)%Z) -> R_Score r = 1%Z).
Proof.
  exists (rfm_rows_of d). split; [apply df_rfm_ok |].
  intros r Hr.
  destruct (rfm_rows_scores d r Hr) as [HR [HF HM]].
  assert (Hne : forall (B : Type) (g : rfm_row -> B), map g (rfm_rows_of d) <> []).
  { intros B g E. apply (in_map g) in Hr. rewrite E in Hr. exact Hr. }
  rewrite HR, HF, HM. split; [| split]; intros Hmax.
  - unfold m_score. rewrite top_of_column; [reflexivity | apply Hne |].
    intros x Hx. apply in_map_iff in Hx. destruct Hx as [r' [<- Hr']]. now apply Hmax.
  - unfold f_score. rewrite top_of_column; [reflexivity | apply Hne |].
    intros x Hx. apply in_map_iff in Hx. destruct Hx as [r' [<- Hr']].
    rewrite <- Zle_Qle. now apply Hmax.
  - unfold r_score. rewrite top_of_column; [reflexivity | apply Hne |].
    intros x Hx. apply in_map_iff in Hx. destruct Hx as [r' [<- Hr']].
    rewrite <- Zle_Qle. now apply Hmax.
Qed.

Lemma top_customers_scores_witness :
  exists rows r,
    df_rfm four_customers = Ok rows /\ In r rows
    /\ customer_unique_id r = "C1"%string /\ M_Score r = 5%Z.
Proof.
  destruct (top_customers_scores four_customers) as [rows [Hok H]].
  pose proof Hok as Hrows. rewrite df_rfm_ok in Hrows. injection Hrows as <-.
  exists (rfm_rows_of four_customers), (nth 2 (rfm_rows_of four_customers) (tied_row "" "")).
  split; [exact Hok |].
  assert (Hin : In (nth 2 (rfm_rows_of four_customers) (tied_row "" ""))
                   (rfm_rows_of four_customers))
    by (vm_compute; right; right; left; reflexivity).
  split; [exact Hin |]. split; [reflexivity |].
  apply (H _ Hin). intros r' Hr'. vm_compute in Hr'.
  repeat (destruct Hr' as [<- | Hr']; [vm_compute; discriminate |]).
  contradiction.
Defined.

(** X5. A population of a single customer gets the scores R = 1, F = 5,
    M = 5, hence the code "155" and the segment "Cannot Lose Them",
    whatever the customer's values are. *)
Theorem single_customer_segment (c : customer_row) :
  exists r,
    df_rfm [c] = Ok [r]
    /\ customer_unique_id r = c_customer_id c
    /\ (R_Score r, F_Score r, M_Score r) = (1, 5, 5)%Z
    /\ RFM_Score r = "155"%string
    /\ Segment r = "Cannot Lose Them"%string.
Proof.
  rewrite df_rfm_ok.
  assert (Hrows : exists r, rfm_rows_of [c] = [r] /\ customer_unique_id r = c_customer_id c).
  { unfold rfm_rows_of. cbn [sort_by fold_right insert_by map]. eexists.
    split; reflexivity. }
  destruct Hrows as [r [Hrows Hid]].
  exists r. rewrite Hrows. split; [reflexivity |]. split; [exact Hid |].
  assert (Hin : In r (rfm_rows_of [c])) by (rewrite Hrows; now left).
  destruct (rfm_rows_scores [c] r Hin) as [HR [HF HM]].
  rewrite Hrows in HR, HF, HM. cbn [map] in HR, HF, HM.
  assert (ER : R_Score r = 1%Z).
  { rewrite HR. unfold r_score. rewrite top_of_column; [reflexivity | discriminate |].
    intros x [<- | []]. apply Qle_refl. }
  assert (EF : F_Score r = 5%Z).
  { rewrite HF. unfold f_score. rewrite top_of_column; [reflexivity | discriminate |].
    intros x [<- | []]. apply Qle_refl. }
  assert (EM : M_Score r = 5%Z).
  { rewrite HM. unfold m_score. rewrite top_of_column; [reflexivity | discriminate |].
    intros x [<- | []]. apply Qle_refl. }
  assert (Hcode : RFM_Score r = rfm_code (R_Score r) (F_Score r) (M_Score r)
                  /\ Segment r = rfm_segment (rfm_code (R_Score r) (F_Score r) (M_Score r))).
  { unfold rfm_rows_of in Hin. apply in_map_iff in Hin.
    destruct Hin as [c' [<- _]]. split; reflexivity. }
  destruct Hcode as [Hcode Hseg].
  rewrite Hcode, Hseg, ER, EF, EM. repeat split.
Qed.

End PopulationScores.

(** ** The order aggregator, customer by customer *)

Section AggregatorProperties.

Local Open Scope Q_scope.

Lemma merged_rows_of_nonempty (o : order) (items_ : list order_items_row) :
  merged_rows_of o items_ <> [].
Proof.
  unfold merged_rows_of. destruct (filter _ items_); discriminate.
Qed.

(** A column of the orders, read off the merged rows, has the entries of
    the column read off the orders. *)
Lemma merge_left_column {B : Type} (g : order -> B) (orders : list order)
  (items_ : list order_items_row) (y : B) :
  In y (map (fun m => g (m_order m)) (merge_left orders items_)) <-> In y (map g orders).
Proof.
  rewrite !in_map_iff. split.
  - intros [m [<- Hm]]. exists (m_order m). split; [reflexivity |].
    eapply merge_left_order; eassumption.
  - intros [o [<- Ho]].
    destruct (merged_rows_of o items_) as [| m rest] eqn:E.
    + now apply merged_rows_of_nonempty in E.
    + exists m. split.
      * f_equal. apply (merged_rows_of_order o items_). rewrite E. now left.
      * unfold merge_left. apply in_flat_map. exists o. split; [exact Ho |].
        rewrite E. now left.
Qed.

Lemma dedup_same_entries {K : Type} (eqb : K -> K -> bool) (l l' : list K) :
  (forall a b, eqb a b = true <-> a = b) ->
  (forall x, In x l <-> In x l') ->
  List.length (dedup eqb l) = List.length (dedup eqb l').
Proof.
  intros Hspec Hsame. apply Permutation_length. apply NoDup_Permutation.
  - now apply dedup_NoDup.
  - now apply dedup_NoDup.
  - intros x. rewrite !dedup_In by exact Hspec. apply Hsame.
Qed.

Lemma max_skipna_same_entries (l l' : list (option Z)) :
  (forall x, In x l <-> In x l') -> max_skipna l = max_skipna l'.
Proof.
  intros Hsame. destruct (max_skipna l) as [m |] eqn:E.
  - symmetry. apply max_skipna_some. apply max_skipna_some in E.
    destruct E as [Hin Hall]. split; [now apply Hsame |].
    intros t Ht. apply Hall. now apply Hsame.
  - symmetry. apply max_skipna_none. intros t Ht.
    apply (proj1 (max_skipna_none l) E t). now apply Hsame.
Qed.

(** The rows of [data_orders], one per customer key, before sorting. *)
Lemma data_orders_rows (orders : list order) (items : list order_item) (r : customer_row) :
  In r (data_orders orders items) ->
  let mine := merge_left (customer_delivered_orders orders (c_customer_id r))
                         (df_order_items_ items) in
  In (c_customer_id r)
     (map customer_id (filter (fun o => String.eqb (order_status o) "delivered") orders))
  /\ last_purchase_date r
     = max_skipna (map (fun m => order_purchase_timestamp (m_order m)) mine)
  /\ order_count r = nunique String.eqb (map (fun m => order_id (m_order m)) mine).
Proof.
  intros Hr mine. subst mine. unfold data_orders in Hr. cbv zeta in Hr.
  apply sort_by_In in Hr. apply in_map_iff in Hr. destruct Hr as [c [<- Hc]].
  cbn [c_customer_id last_purchase_date order_count].
  rewrite (filter_merge_left (fun o => String.eqb (order_status o) "delivered")) in Hc |- *.
  rewrite (filter_merge_left (fun o => String.eqb (customer_id o) c)).
  split; [| split; reflexivity].
  apply group_keys_In in Hc; [| exact String.eqb_eq].
  now apply (merge_left_column customer_id) in Hc.
Qed.

Lemma data_orders_ids (orders : list order) (items : list order_item) :
  Permutation (map c_customer_id (data_orders orders items))
    (group_keys String.eqb String.leb
       (map (fun m => customer_id (m_order m))
            (filter (fun m => String.eqb (order_status (m_order m)) "delivered")
                    (merge_left orders (df_order_items_ items))))).
Proof.
  unfold data_orders. cbv zeta.
  rewrite (Permutation_map c_customer_id (sort_by_perm _ _)).
  rewrite map_map. cbn [c_customer_id]. rewrite map_id. reflexivity.
Qed.

(** X6. [data_orders] has exactly one row for each customer with a
    delivered order among the filtered orders: a customer id occurs in it
    if and only if some filtered order of that customer is delivered, and
    no id occurs twice. *)
Theorem data_orders_customers (orders : list order) (items : list order_item) :
  NoDup (map c_customer_id (data_orders orders items))
  /\ forall c,
       In c (map c_customer_id (data_orders orders items))
       <-> exists o, In o orders /\ order_status o = "delivered"%string
                     /\ customer_id o = c.
Proof.
  pose proof (data_orders_ids orders items) as Hperm. split.
  - eapply Permutation_NoDup; [symmetry; exact Hperm |].
    apply group_keys_NoDup. exact String.eqb_eq.
  - intros c.
    assert (Hkeys : In c (map c_customer_id (data_orders orders items))
                    <-> In c (map customer_id
                                (filter (fun o => String.eqb (order_status o) "delivered") orders))).
    { split; intros H.
      - apply (Permutation_in _ Hperm) in H.
        apply group_keys_In in H; [| exact String.eqb_eq].
        rewrite (filter_merge_left (fun o => String.eqb (order_status o) "delivered")) in H.
        now apply (merge_left_column customer_id) in H.
      - apply (Permutation_in _ (Permutation_sym Hperm)).
        apply group_keys_In; [exact String.eqb_eq |].
        rewrite (filter_merge_left (fun o => String.eqb (order_status o) "delivered")).
        now apply (merge_left_column customer_id). }
    rewrite Hkeys, in_map_iff. split.
    + intros [o [<- Ho]]. apply filter_In in Ho. destruct Ho as [Ho Hs].
      apply String.eqb_eq in Hs. now exists o.
    + intros [o [Ho [Hs <-]]]. exists o. split; [reflexivity |].
      apply filter_In. split; [exact Ho | now apply String.eqb_eq].
Qed.

(** X7. For every customer of [data_orders], [order_count] is the number
    of distinct ids among the customer's delivered orders, however many
    item rows each order has, and is at least 1; [last_purchase_date] is
    the latest purchase timestamp of those orders. *)
Theorem data_orders_counts_orders (orders : list order) (items : list order_item)
  (r : customer_row) :
  In r (data_orders orders items) ->
  let mine := customer_delivered_orders orders (c_customer_id r) in
  order_count r = nunique String.eqb (map order_id mine)
  /\ (1 <= order_count r)%Z
  /\ last_purchase_date r = max_skipna (map order_purchase_timestamp mine).
Proof.
  intros Hr mine.
  destruct (data_orders_rows orders items r Hr) as [Hc [Hdate Hcount]].
  fold mine in Hdate, Hcount.
  assert (Hn : order_count r = nunique String.eqb (map order_id mine)).
  { rewrite Hcount. unfold nunique. f_equal.
    apply dedup_same_entries; [exact String.eqb_eq |].
    intros x. apply (merge_left_column order_id). }
  split; [exact Hn |]. split.
  - rewrite Hn. unfold nunique.
    apply in_map_iff in Hc. destruct Hc as [o [Ho Hin]].
    assert (Hmine : In (order_id o) (map order_id mine)).
    { apply in_map. unfold mine, customer_delivered_orders.
      apply filter_In. split; [exact Hin | now apply String.eqb_eq]. }
    apply (dedup_In String.eqb String.eqb_eq) in Hmine.
    destruct (dedup String.eqb (map order_id mine)); [destruct Hmine | simpl; lia].
  - rewrite Hdate. apply max_skipna_same_entries.
    intros x. apply (merge_left_column order_purchase_timestamp).
Qed.

Lemma data_orders_counts_orders_witness :
  exists r,
    In r (data_orders sample_orders sample_items)
    /\ c_customer_id r = "c1"%string
    /\ order_count r = 2%Z
    /\ last_purchase_date r = Some (10 * day)%Z.
Proof.
  set (r := nth 0 (data_orders sample_orders sample_items)
              {| c_customer_id := ""; last_purchase_date := None;
                 order_count := 0; c_total_price := 0 |}).
  assert (Hin : In r (data_orders sample_orders sample_items))
    by (vm_compute; left; reflexivity).
  destruct (data_orders_counts_orders sample_orders sample_items r Hin)
    as [Hcount [_ Hdate]].
  exists r. split; [exact Hin |]. split; [reflexivity |].
  split; [rewrite Hcount | rewrite Hdate]; reflexivity.
Defined.

Lemma Sorted_map {A B : Type} (R : A -> A -> Prop) (R' : B -> B -> Prop)
  (g : A -> B) (l : list A) :
  (forall a b, R a b -> R' (g a) (g b)) -> Sorted R l -> Sorted R' (map g l).
Proof.
  intros HR. induction 1 as [| a l _ IH Hhd]; simpl; constructor.
  - exact IH.
  - destruct Hhd; simpl; constructor. now apply HR.
Qed.

Lemma date_leb_total (a b : customer_row) : date_leb a b = true \/ date_leb b a = true.
Proof.
  unfold date_leb.
  destruct (last_purchase_date a) as [x |], (last_purchase_date b) as [y |]; auto.
  destruct (Z.leb_spec x y); [now left | right; apply Z.leb_le; lia].
Qed.

(** X8. [data_orders] lists the customers by [order_count], greatest
    first, and [df_rfm] lists them by last purchase date, earliest first
    and customers without a date last. *)
Theorem tables_are_ordered (orders : list order) (items : list order_item) :
  Sorted (fun a b => (order_count b <= order_count a)%Z) (data_orders orders items)
  /\ exists rows,
       df_rfm (data_orders orders items) = Ok rows
       /\ Sorted (fun r1 r2 => date_le (rfm_last_purchase_date r1)
                                       (rfm_last_purchase_date r2)) rows.
Proof.
  split.
  - unfold data_orders. cbv zeta.
    eapply Sorted_weaken; [| apply sort_by_sorted].
    + intros a b H. now apply Z.leb_le.
    + intros a b. destruct (Z.leb_spec (order_count b) (order_count a));
        [now left | right; apply Z.leb_le; lia].
  - exists (rfm_rows_of (data_orders orders items)). split; [apply df_rfm_ok |].
    unfold rfm_rows_of.
    apply (Sorted_map (fun a b => date_leb a b = true)); [| apply sort_by_sorted, date_leb_total].
    intros a b H. cbn [rfm_row_of rfm_last_purchase_date]. unfold date_leb in H.
    unfold date_le.
    destruct (last_purchase_date a), (last_purchase_date b);
      try exact I; [now apply Z.leb_le | discriminate].
Qed.

End AggregatorProperties.

(** ** The grouped order items *)

Section ItemGroupProperties.

Local Open Scope Q_scope.

Lemma filter_true {A : Type} (l : list A) : filter (fun _ => true) l = l.
Proof. induction l as [| x rest IH]; simpl; [reflexivity | now rewrite IH]. Qed.

Lemma qsum_ones {A : Type} (l : list A) :
  qsum (map (fun _ => 1) l) == inject_Z (Z.of_nat (List.length l)).
Proof.
  induction l as [| x rest IH]; [reflexivity |].
  cbn [map qsum fold_right List.length]. fold (qsum (map (fun _ : A => 1) rest)).
  rewrite IH, Nat2Z.inj_succ. unfold Z.succ. rewrite inject_Z_plus.
  change (inject_Z 1) with 1. lra.
Qed.

Lemma qsum_inject_Z (col : list Z) : qsum (map inject_Z col) == inject_Z (zsum col).
Proof.
  induction col as [| x rest IH]; [reflexivity |].
  cbn [map qsum zsum fold_right]. fold (qsum (map inject_Z rest)) (zsum rest).
  rewrite IH, inject_Z_plus. reflexivity.
Qed.

(** Every row falls in exactly one group: summing a quantity group by
    group is summing it over the rows. *)
Lemma grouped_sum_all {A K : Type} (key : A -> K) (eqb leb : K -> K -> bool)
  (f : A -> Q) (l : list A) :
  (forall a b, eqb a b = true <-> a = b) ->
  qsum (map (fun k => qsum (map f (filter (fun x => eqb (key x) k) l)))
            (group_keys eqb leb (map key l)))
  == qsum (map f l).
Proof.
  intros Hspec.
  pose proof (grouped_sum key eqb f Hspec (fun _ => true)
                (group_keys eqb leb (map key l)) l) as H.
  rewrite !filter_true in H. apply H.
  - now apply group_keys_NoDup.
  - intros x Hx. apply group_keys_In; [exact Hspec |]. now apply in_map.
Qed.

Lemma grouped_count_all {A K : Type} (key : A -> K) (eqb leb : K -> K -> bool)
  (l : list A) :
  (forall a b, eqb a b = true <-> a = b) ->
  zsum (map (fun k => Z.of_nat (List.length (filter (fun x => eqb (key x) k) l)))
            (group_keys eqb leb (map key l)))
  = Z.of_nat (List.length l).
Proof.
  intros Hspec. apply inject_Z_injective.
  rewrite <- qsum_inject_Z, map_map, <- qsum_ones.
  rewrite <- (grouped_sum_all key eqb leb (fun _ => 1) l Hspec).
  apply qsum_map_ext. intros k. symmetry. apply qsum_ones.
Qed.

Lemma group_nonempty {A K : Type} (key : A -> K) (eqb leb : K -> K -> bool)
  (l : list A) (k : K) :
  (forall a b, eqb a b = true <-> a = b) ->
  In k (group_keys eqb leb (map key l)) ->
  (1 <= Z.of_nat (List.length (filter (fun x => eqb (key x) k) l)))%Z.
Proof.
  intros Hspec Hk. apply group_keys_In in Hk; [| exact Hspec].
  apply in_map_iff in Hk. destruct Hk as [x [Hx Hin]].
  assert (Hf : In x (filter (fun y => eqb (key y) k) l)).
  { apply filter_In. split; [exact Hin | now apply Hspec]. }
  destruct (filter _ l); [destruct Hf | simpl; lia].
Qed.

(** X9. Grouping the order items loses nothing and counts nothing twice:
    the rows of [df_order_items_] have pairwise different keys (order,
    product, shipping limit), each stands for at least one item, their
    [product_counts] add up to the number of item rows, their
    [total_price] to the sum of all prices and their [total_value] to the
    sum of all prices plus the sum of all freight values. *)
Theorem items_grouping_conserves (items : list order_item) :
  let groups := df_order_items_ items in
  NoDup (map (fun g => (g_order_id g, g_product_id g, g_shipping_limit_date g)) groups)
  /\ (forall g, In g groups -> (1 <= product_counts g)%Z)
  /\ zsum (map product_counts groups) = Z.of_nat (List.length items)
  /\ qsum (map total_price groups) == qsum (map price items)
  /\ qsum (map total_value groups)
     == qsum (map price items) + qsum (map freight_value items).
Proof.
  intros groups. subst groups. unfold df_order_items_.
  split; [| split; [| split; [| split]]].
  - rewrite map_map. cbn [g_order_id g_product_id g_shipping_limit_date].
    rewrite (map_ext _ (fun k => k)) by (intros [[o p] t]; reflexivity).
    rewrite map_id. apply group_keys_NoDup. exact key_eqb_spec.
  - intros g Hg. apply in_map_iff in Hg. destruct Hg as [k [<- Hk]].
    cbn [product_counts]. now apply (group_nonempty key_of key_eqb key_leb items k key_eqb_spec).
  - rewrite map_map. cbn [product_counts].
    apply (grouped_count_all key_of key_eqb key_leb items key_eqb_spec).
  - rewrite map_map. cbn [total_price].
    apply (grouped_sum_all key_of key_eqb key_leb price items key_eqb_spec).
  - rewrite map_map. cbn [total_value].
    rewrite (grouped_sum_all key_of key_eqb key_leb item_total_value items key_eqb_spec).
    unfold item_total_value. apply qsum_map_plus.
Qed.

End ItemGroupProperties.

(** ** The segment filter and the summary *)

Section SummaryProperties.

Local Open Scope Q_scope.

Lemma unique_from_In {A : Type} (eqb : A -> A -> bool) (seen l : list A) (x : A) :
  (forall a b, eqb a b = true <-> a = b) ->
  In x (unique_from eqb seen l) <-> In x l /\ ~ In x seen.
Proof.
  intros Hspec. revert seen. induction l as [| y rest IH]; intros seen; simpl.
  - tauto.
  - destruct (existsb (eqb y) seen) eqn:E.
    + apply existsb_exists in E. destruct E as [z [Hz Eyz]].
      apply Hspec in Eyz. subst z. rewrite IH. split.
      * intros [H1 H2]. split; [now right | exact H2].
      * intros [[<- | H1] H2]; [contradiction | split; assumption].
    + assert (Hy : ~ In y seen).
      { intros Hin.
        assert (existsb (eqb y) seen = true)
          by (apply existsb_exists; exists y; split; [exact Hin | now apply Hspec]).
        congruence. }
      simpl. rewrite IH. simpl. split.
      * intros [<- | [H1 H2]]; [split; [now left | exact Hy] |].
        split; [now right | tauto].
      * intros [[<- | H1] H2]; [now left |].
        destruct (existsb (eqb y) [x]) eqn:Eyx.
        -- simpl in Eyx. rewrite orb_false_r in Eyx. apply Hspec in Eyx. now left.
        -- right. split; [exact H1 |]. intros [<- | H3]; [| contradiction].
           simpl in Eyx. rewrite orb_false_r in Eyx.
           assert (eqb y y = true) by now apply Hspec. congruence.
Qed.

Lemma unique_from_NoDup {A : Type} (eqb : A -> A -> bool) (seen l : list A) :
  (forall a b, eqb a b = true <-> a = b) -> NoDup (unique_from eqb seen l).
Proof.
  intros Hspec. revert seen. induction l as [| y rest IH]; intros seen; simpl.
  - constructor.
  - destruct (existsb (eqb y) seen); [apply IH |].
    constructor; [| apply IH].
    rewrite unique_from_In by exact Hspec. intros [_ H]. apply H. now left.
Qed.

Lemma unique_segments_In (rows : list rfm_row) (seg : string) :
  In seg (unique_segments rows) <-> In seg (map Segment rows).
Proof.
  unfold unique_segments, unique. rewrite sort_by_In.
  rewrite unique_from_In by exact String.eqb_eq. simpl. tauto.
Qed.

Lemma summary_segments (rows : list rfm_row) (seg : string) :
  In seg (map s_Segment (data_rfm_summary rows)) <-> In seg (map Segment rows).
Proof.
  unfold data_rfm_summary, segment_groups. rewrite !map_map.
  cbn [s_Segment fst]. rewrite map_id.
  apply group_keys_In. exact String.eqb_eq.
Qed.

(** X10. The summary is a partition of the customers it is given: its
    segments are pairwise different and are exactly the segments that
    occur, every group has at least one customer, the customer counts add
    up to the number of customers and the group totals add up to the sum
    of their monetary values. *)
Theorem summary_partitions_customers (rows : list rfm_row) :
  let summary := data_rfm_summary rows in
  NoDup (map s_Segment summary)
  /\ (forall seg, In seg (map s_Segment summary) <-> exists r, In r rows /\ Segment r = seg)
  /\ (forall s, In s summary -> (1 <= customer_count s)%Z)
  /\ zsum (map customer_count summary) = Z.of_nat (List.length rows)
  /\ qsum (map total_monetary summary) == qsum (map monetary rows).
Proof.
  intros summary. subst summary.
  split; [| split; [| split; [| split]]].
  - unfold data_rfm_summary, segment_groups. rewrite !map_map.
    cbn [s_Segment fst]. rewrite map_id.
    apply group_keys_NoDup. exact String.eqb_eq.
  - intros seg. rewrite summary_segments, in_map_iff. split.
    + intros [r [Hs Hr]]. now exists r.
    + intros [r [Hr Hs]]. now exists r.
  - intros s Hs. unfold data_rfm_summary, segment_groups in Hs.
    rewrite map_map in Hs. apply in_map_iff in Hs. destruct Hs as [k [<- Hk]].
    cbn [customer_count fst snd].
    now apply (group_nonempty Segment String.eqb String.leb rows k String.eqb_eq).
  - unfold data_rfm_summary, segment_groups. rewrite !map_map.
    cbn [customer_count fst snd].
    apply (grouped_count_all Segment String.eqb String.leb rows String.eqb_eq).
  - unfold data_rfm_summary, segment_groups. rewrite !map_map.
    cbn [total_monetary snd].
    apply (grouped_sum_all Segment String.eqb String.leb monetary rows String.eqb_eq).
Qed.

Lemma summary_partitions_customers_witness :
  zsum (map customer_count (data_rfm_summary (rfm_rows_of five_customers))) = 5%Z.
Proof.
  destruct (summary_partitions_customers (rfm_rows_of five_customers))
    as [_ [_ [_ [Hcount _]]]].
  rewrite Hcount. vm_compute. reflexivity.
Defined.

(** X11. The options of the segment filter are the segments that occur,
    each once. With the default selection (all options) the filter keeps
    every customer; with any selection the summary lists exactly the
    selected segments that occur; with nothing selected it is empty. *)
Theorem segment_selection (rows : list rfm_row) (selected_segments : list string) :
  NoDup (unique_segments rows)
  /\ (forall seg, In seg (unique_segments rows) <-> exists r, In r rows /\ Segment r = seg)
  /\ filtered_rfm rows (unique_segments rows) = rows
  /\ (forall seg,
         In seg (map s_Segment (data_rfm_summary (filtered_rfm rows selected_segments)))
         <-> In seg selected_segments /\ exists r, In r rows /\ Segment r = seg)
  /\ data_rfm_summary (filtered_rfm rows []) = [].
Proof.
  split; [| split; [| split; [| split]]].
  - unfold unique_segments.
    eapply Permutation_NoDup; [symmetry; apply sort_by_perm |].
    apply unique_from_NoDup. exact String.eqb_eq.
  - intros seg. rewrite unique_segments_In, in_map_iff. split.
    + intros [r [Hs Hr]]. now exists r.
    + intros [r [Hr Hs]]. now exists r.
  - unfold filtered_rfm. apply filter_all. intros r Hr.
    apply str_in_In, unique_segments_In. now apply in_map.
  - intros seg. rewrite summary_segments, in_map_iff. unfold filtered_rfm. split.
    + intros [r [Hs Hr]]. apply filter_In in Hr. destruct Hr as [Hr Hsel].
      apply str_in_In in Hsel. rewrite Hs in Hsel. split; [exact Hsel | now exists r].
    + intros [Hsel [r [Hr Hs]]]. exists r. split; [exact Hs |].
      apply filter_In. split; [exact Hr |]. apply str_in_In. now rewrite Hs.
  - unfold filtered_rfm. rewrite filter_none; [reflexivity |]. intros r _. reflexivity.
Qed.

(** X12. Every [total_monetary_scaling] of a summary is a number between
    0 and 1. A group with the least total has 0; a group with the greatest
    total has 1, unless all groups tie. *)
Theorem scaling_range (rows : list rfm_row) (s : summary_row) :
  In s (data_rfm_summary rows) ->
  exists q,
    total_monetary_scaling s = Fin q
    /\ 0 <= q <= 1
    /\ ((forall s', In s' (data_rfm_summary rows) -> total_monetary s <= total_monetary s') ->
        q == 0)
    /\ ((forall s', In s' (data_rfm_summary rows) -> total_monetary s' <= total_monetary s) ->
        (exists s', In s' (data_rfm_summary rows)
                    /\ ~ total_monetary s' == total_monetary s) ->
        q == 1).
Proof.
  intros Hs.
  assert (Hx : In (total_monetary s) (map total_monetary (data_rfm_summary rows)))
    by now apply in_map.
  assert (Hscal : total_monetary_scaling s
                  = scaling (map total_monetary (data_rfm_summary rows)) (total_monetary s)).
  { rewrite summary_totals. unfold data_rfm_summary in Hs.
    apply in_map_iff in Hs. destruct Hs as [g [<- _]]. reflexivity. }
  assert (Hne : map total_monetary (data_rfm_summary rows) <> [])
    by (intros E; rewrite E in Hx; exact Hx).
  destruct (scaling_spec _ (total_monetary s) Hne) as [mn [mx [Hmin [Hmax [Heq Hneq]]]]].
  destruct Hmin as [Hmn_in Hmn], Hmax as [Hmx_in Hmx].
  pose proof (Hmn _ Hx) as Hlo. pose proof (Hmx _ Hx) as Hhi.
  apply in_map_iff in Hmn_in. destruct Hmn_in as [smin [Emin Hsmin]].
  apply in_map_iff in Hmx_in. destruct Hmx_in as [smax [Emax Hsmax]].
  rewrite Hscal. destruct (Qeq_dec mx mn) as [E | E].
  - exists 0. split; [now apply Heq |]. split; [lra |]. split; [reflexivity |].
    intros Hall [s' [Hs' Hdiff]]. exfalso. apply Hdiff.
    pose proof (Hmn _ (in_map total_monetary _ _ Hs')).
    pose proof (Hmx _ (in_map total_monetary _ _ Hs')).
    lra.
  - exists ((total_monetary s - mn) / (mx - mn)). split; [now apply Hneq |].
    assert (Hpos : 0 < mx - mn).
    { assert (mn <= mx) by (eapply Qle_trans; eassumption).
      destruct (Qlt_le_dec mn mx) as [Hlt | Hge]; [lra |].
      exfalso. apply E. lra. }
    split; [| split].
    + split.
      * apply Qle_shift_div_l; [exact Hpos | lra].
      * apply Qle_shift_div_r; [exact Hpos | lra].
    + intros Hall. pose proof (Hall smin Hsmin) as H. rewrite Emin in H.
      setoid_replace (total_monetary s - mn) with 0 by lra.
      unfold Qdiv. ring.
    + intros Hall _. pose proof (Hall smax Hsmax) as H. rewrite Emax in H.
      setoid_replace (total_monetary s - mn) with (mx - mn) by lra.
      field. lra.
Qed.

Lemma scaling_range_witness :
  exists q, total_monetary_scaling sample_summary_row = Fin q /\ 0 <= q <= 1.
Proof.
  destruct (scaling_range (rfm_rows_of five_customers) sample_summary_row)
    as [q [Hq [Hrange _]]].
  - vm_compute. left. reflexivity.
  - exists q. split; assumption.
Defined.

End SummaryProperties.

(** ** The date and location filter *)

Section FilterProperties.

Variables (df_orders : list order) (df_customers : list customer)
  (df_order_items : list order_item) (df_order_payments : list payment)
  (df_order_reviews : list review).

Let run := get_filtered_data df_orders df_customers df_order_items
             df_order_payments df_order_reviews.

Lemma located_rows_of_In (o : order) (customers : list customer) (l : located_order) :
  In l (located_rows_of o customers)
  <-> lo_order l = o
      /\ exists c, In c customers /\ cust_customer_id c = customer_id o
                   /\ customer_city c = lo_city l /\ customer_state c = lo_state l.
Proof.
  unfold located_rows_of. rewrite in_map_iff. split.
  - intros [c [<- Hc]]. apply filter_In in Hc. destruct Hc as [Hc He].
    apply String.eqb_eq in He. split; [reflexivity |]. exists c. auto.
  - intros [Ho [c [Hc [Hid [Hcity Hstate]]]]]. exists c. split.
    + destruct l as [o' city state]. simpl in *. now subst.
    + apply filter_In. split; [exact Hc | now apply String.eqb_eq].
Qed.

Lemma unique_In (ids : list string) (x : string) :
  In x (unique String.eqb ids) <-> In x ids.
Proof.
  unfold unique. rewrite unique_from_In by exact String.eqb_eq. simpl. tauto.
Qed.

(** A table filtered with [isin(filtered_order_ids)] keeps the rows of the
    returned orders. *)
Lemma isin_filter {A : Type} (oid : A -> string) (table : list A)
  (merged : list located_order) (x : A) :
  In x (filter (fun y => str_in (oid y)
                           (unique String.eqb (map (fun l => order_id (lo_order l)) merged)))
               table)
  <-> In x table /\ exists l, In l merged /\ order_id (lo_order l) = oid x.
Proof.
  rewrite filter_In, str_in_In, unique_In, in_map_iff. split.
  - intros [Hx [l [El Hl]]]. split; [exact Hx |]. now exists l.
  - intros [Hx [l [Hl El]]]. split; [exact Hx |]. now exists l.
Qed.

(** X13. [get_filtered_data] raises [IndexError] exactly when the date
    range holds fewer than two dates (as it does while only the first date
    of the range is picked); otherwise it returns its four tables. *)
Theorem filter_needs_two_dates (date_range : list Z)
  (selected_states selected_cities : list string) :
  ((List.length date_range < 2)%nat ->
   run date_range selected_states selected_cities = IndexError)
  /\ ((2 <= List.length date_range)%nat ->
      exists data, run date_range selected_states selected_cities = Returned data).
Proof.
  unfold run, get_filtered_data, tuple_item.
  destruct date_range as [| first [| last rest]]; simpl; split; intros H;
    try lia; try reflexivity.
  eexists. reflexivity.
Qed.

(** The rows of the returned orders table. *)
Lemma filtered_orders_In (first last : Z) (rest : list Z)
  (selected_states selected_cities : list string) (data : filtered_data)
  (l : located_order) :
  run (first :: last :: rest) selected_states selected_cities = Returned data ->
  In l (filtered_orders data)
  <-> In (lo_order l) df_orders
      /\ (exists t, order_purchase_timestamp (lo_order l) = Some t
                    /\ (first <= date_of t <= last)%Z)
      /\ In (lo_state l) selected_states /\ In (lo_city l) selected_cities
      /\ exists c, In c df_customers
                   /\ cust_customer_id c = customer_id (lo_order l)
                   /\ customer_city c = lo_city l /\ customer_state c = lo_state l.
Proof.
  unfold run, get_filtered_data, tuple_item. cbn [nth_error]. intros H.
  injection H as <-. cbn [filtered_orders].
  rewrite in_flat_map. split.
  - intros [o [Ho Hl]]. apply filter_In in Ho. destruct Ho as [Ho Hrange].
    apply located_rows_of_In in Hl. destruct Hl as [Elo [c [Hc [Hid [Hcity Hstate]]]]].
    apply filter_In in Hc. destruct Hc as [Hc Hsel].
    apply andb_true_iff in Hsel. destruct Hsel as [Hs1 Hs2].
    apply str_in_In in Hs1. apply str_in_In in Hs2.
    rewrite Elo. split; [exact Ho |]. split.
    + unfold date_in_range in Hrange.
      destruct (order_purchase_timestamp o) as [t |]; [| discriminate].
      exists t. split; [reflexivity |].
      apply andb_true_iff in Hrange. destruct Hrange as [H1 H2].
      apply Z.leb_le in H1. apply Z.leb_le in H2. lia.
    + rewrite <- Hstate, <- Hcity. split; [exact Hs1 |]. split; [exact Hs2 |].
      exists c. repeat split; try assumption; reflexivity.
  - intros [Ho [[t [Et Hrange]] [Hs1 [Hs2 [c [Hc [Hid [Hcity Hstate]]]]]]]].
    exists (lo_order l). split.
    + apply filter_In. split; [exact Ho |]. unfold date_in_range. rewrite Et.
      apply andb_true_iff. split; apply Z.leb_le; lia.
    + apply located_rows_of_In. split; [reflexivity |]. exists c.
      split; [| repeat split; assumption]. apply filter_In. split; [exact Hc |].
      apply andb_true_iff. split; apply str_in_In; congruence.
Qed.

(** X14. When [get_filtered_data] returns, an order is in its orders
    table if and only if it is an order whose purchase date is within the
    range (bounds included) and whose customer is in a selected state and a
    selected city; an item, payment or review is returned if and only if it
    belongs to a returned order. Orders without a purchase date are left
    out. *)
Theorem filter_selects (date_range : list Z)
  (selected_states selected_cities : list string) (data : filtered_data) :
  run date_range selected_states selected_cities = Returned data ->
  exists first last rest,
    date_range = first :: last :: rest
    /\ (forall l,
          In l (filtered_orders data)
          <-> In (lo_order l) df_orders
              /\ (exists t, order_purchase_timestamp (lo_order l) = Some t
                            /\ (first <= date_of t <= last)%Z)
              /\ In (lo_state l) selected_states /\ In (lo_city l) selected_cities
              /\ exists c, In c df_customers
                           /\ cust_customer_id c = customer_id (lo_order l)
                           /\ customer_city c = lo_city l
                           /\ customer_state c = lo_state l)
    /\ (forall i,
          In i (filtered_order_items data)
          <-> In i df_order_items
              /\ exists l, In l (filtered_orders data)
                           /\ order_id (lo_order l) = item_order_id i)
    /\ (forall p,
          In p (filtered_order_payments data)
          <-> In p df_order_payments
              /\ exists l, In l (filtered_orders data)
                           /\ order_id (lo_order l) = pay_order_id p)
    /\ (forall r,
          In r (filtered_order_reviews data)
          <-> In r df_order_reviews
              /\ exists l, In l (filtered_orders data)
                           /\ order_id (lo_order l) = rev_order_id r).
Proof.
  intros H.
  destruct date_range as [| first [| last rest]];
    try (unfold run, get_filtered_data, tuple_item in H; simpl in H; discriminate H).
  exists first, last, rest. split; [reflexivity |].
  split; [intros l; now apply (filtered_orders_In first last rest selected_states selected_cities) |].
  unfold run, get_filtered_data, tuple_item in H. cbn [nth_error] in H.
  injection H as <-.
  cbn [filtered_orders filtered_order_items filtered_order_payments filtered_order_reviews].
  split; [| split]; intros x; apply isin_filter.
Qed.

End FilterProperties.

Lemma filter_needs_two_dates_witness :
  get_filtered_data filter_orders filter_customers [] [] [] [10%Z] ["SP"%string]
    ["sao paulo"%string] = IndexError.
Proof.
  apply (filter_needs_two_dates filter_orders filter_customers [] [] []
           [10%Z] ["SP"%string] ["sao paulo"%string]).
  simpl. lia.
Defined.

Lemma filter_selects_witness :
  exists data,
    get_filtered_data filter_orders filter_customers [] [] [] [10%Z; 11%Z]
      ["SP"%string] ["sao paulo"%string] = Returned data
    /\ forall l, In l (filtered_orders data) -> In (lo_state l) ["SP"%string].
Proof.
  eexists. split; [reflexivity |]. intros l Hl.
  destruct (filter_selects filter_orders filter_customers [] [] [] [10%Z; 11%Z]
              ["SP"%string] ["sao paulo"%string] _ eq_refl)
    as [first [last [rest [_ [Horders _]]]]].
  apply Horders in Hl. destruct Hl as [_ [_ [Hstate _]]]. exact Hstate.
Defined.

Section FilterEdges.

Lemma no_entries {A : Type} (l : list A) : (forall x, ~ In x l) -> l = [].
Proof.
  destruct l as [| x rest]; [reflexivity |]. intros H. exfalso. apply (H x). now left.
Qed.

(** X15. When [get_filtered_data] returns and no state is selected, or no
    city is selected, or the last date of the range is before the first,
    then all four returned tables are empty, and the RFM pipeline run on
    them returns empty tables. *)
Theorem filter_nothing_selected (df_orders : list order) (df_customers : list customer)
  (df_order_items : list order_item) (df_order_payments : list payment)
  (df_order_reviews : list review) (date_range : list Z)
  (selected_states selected_cities : list string) (data : filtered_data) :
  get_filtered_data df_orders df_customers df_order_items df_order_payments
    df_order_reviews date_range selected_states selected_cities = Returned data ->
  selected_states = [] \/ selected_cities = []
  \/ (exists first last rest, date_range = first :: last :: rest /\ (last < first)%Z) ->
  filtered_orders data = []
  /\ filtered_order_items data = []
  /\ filtered_order_payments data = []
  /\ filtered_order_reviews data = []
  /\ forall selected_segments,
       pipeline (map lo_order (filtered_orders data)) (filtered_order_items data)
         selected_segments
       = Ok {| t_data_orders := []; t_df_rfm := []; t_summary := []; t_pareto := [] |}.
Proof.
  intros Hrun Hnone.
  destruct date_range as [| first [| last rest]];
    try (unfold get_filtered_data, tuple_item in Hrun; simpl in Hrun; discriminate Hrun).
  assert (Hempty : filtered_orders data = []).
  { apply no_entries. intros l Hl.
    apply (filtered_orders_In df_orders df_customers df_order_items df_order_payments
             df_order_reviews first last rest selected_states selected_cities data l Hrun)
      in Hl.
    destruct Hl as [_ [[t [_ Ht]] [Hstate [Hcity _]]]].
    destruct Hnone as [E | [E | [f [la [r [E Hlt]]]]]].
    - rewrite E in Hstate. exact Hstate.
    - rewrite E in Hcity. exact Hcity.
    - injection E as <- <- _. lia. }
  unfold get_filtered_data, tuple_item in Hrun. cbn [nth_error] in Hrun.
  injection Hrun as <-.
  cbn [filtered_orders filtered_order_items filtered_order_payments filtered_order_reviews]
    in *.
  assert (Hi : filter (fun i => str_in (item_order_id i)
                                  (unique String.eqb
                                     (map (fun l => order_id (lo_order l))
                                          (flat_map
                                             (fun o => located_rows_of o
                                                (filter (fun c =>
                                                   str_in (customer_state c) selected_states
                                                   && str_in (customer_city c) selected_cities)
                                                   df_customers))
                                             (filter (fun o => date_in_range first last
                                                        (order_purchase_timestamp o))
                                                     df_orders)))))
                      df_order_items = []).
  { apply no_entries. intros i Hi. apply isin_filter in Hi.
    destruct Hi as [_ [l [Hl _]]]. rewrite Hempty in Hl. exact Hl. }
  split; [exact Hempty |]. split; [exact Hi |]. split; [| split].
  - apply no_entries. intros x Hx. apply isin_filter in Hx.
    destruct Hx as [_ [l [Hl _]]]. rewrite Hempty in Hl. exact Hl.
  - apply no_entries. intros x Hx. apply isin_filter in Hx.
    destruct Hx as [_ [l [Hl _]]]. rewrite Hempty in Hl. exact Hl.
  - intros selected_segments. rewrite Hi, Hempty. reflexivity.
Qed.

Lemma at_most_one_match {A : Type} (f : A -> string) (l : list A) (k : string) :
  NoDup (map f l) ->
  filter (fun x => String.eqb (f x) k) l = []
  \/ exists x, filter (fun x => String.eqb (f x) k) l = [x].
Proof.
  induction l as [| y rest IH]; intros Hnd; simpl; [now left |].
  inversion Hnd as [| ? ? Hy Hrest]; subst.
  destruct (String.eqb (f y) k) eqn:E.
  - right. exists y. f_equal. apply filter_none. intros z Hz.
    apply String.eqb_eq in E. subst k.
    apply String.eqb_neq. intros Ez. apply Hy. rewrite <- Ez. now apply in_map.
  - now apply IH.
Qed.

Lemma NoDup_map_filter {Row Key : Type} (key : Row -> Key) (keep : Row -> bool)
    (rows : list Row) :
  NoDup (map key rows) -> NoDup (map key (filter keep rows)).
Proof.
  induction rows as [| x rest IH]; intros Hnd; simpl; [constructor |].
  inversion Hnd as [| ? ? Hx Hrest]; subst.
  destruct (keep x); simpl; [| now apply IH].
  constructor; [| now apply IH].
  intros Hin. apply Hx. apply in_map_iff in Hin. destruct Hin as [y [Ey Hy]].
  apply filter_In in Hy. rewrite <- Ey. apply in_map. tauto.
Qed.

Lemma located_orders_once (customers : list customer) (orders : list order) :
  NoDup (map cust_customer_id customers) ->
  map lo_order (flat_map (fun o => located_rows_of o customers) orders)
  = filter (fun o => existsb (fun c => String.eqb (cust_customer_id c) (customer_id o))
                             customers)
           orders.
Proof.
  intros Hnd. induction orders as [| o rest IH]; simpl; [reflexivity |].
  rewrite map_app, IH. unfold located_rows_of at 1. rewrite map_map. cbn [lo_order].
  destruct (at_most_one_match cust_customer_id customers (customer_id o) Hnd) as [E | [c E]].
  - rewrite E.
    destruct (existsb _ customers) eqn:Ex; [| reflexivity].
    apply existsb_exists in Ex. destruct Ex as [c [Hc Ec]].
    assert (Hin : In c (filter (fun x => String.eqb (cust_customer_id x) (customer_id o))
                               customers))
      by (apply filter_In; split; assumption).
    rewrite E in Hin. destruct Hin.
  - rewrite E.
    assert (Hin : In c (filter (fun x => String.eqb (cust_customer_id x) (customer_id o))
                               customers))
      by (rewrite E; now left).
    apply filter_In in Hin. destruct Hin as [Hc Ec].
    assert (Ex : existsb (fun c0 => String.eqb (cust_customer_id c0) (customer_id o))
                         customers = true)
      by (apply existsb_exists; exists c; split; assumption).
    rewrite Ex. reflexivity.
Qed.

(** X16. If no customer id occurs twice in the customers table, the merge
    with the customers duplicates no order: the returned orders are the
    orders within the date range that have a selected customer, in their
    original order, each at most as often as it occurs in the orders table.
    Hence order ids that are unique in the orders table are unique in the
    returned table. *)
Theorem filter_keeps_orders_once (df_orders : list order) (df_customers : list customer)
  (df_order_items : list order_item) (df_order_payments : list payment)
  (df_order_reviews : list review) (first last : Z) (rest : list Z)
  (selected_states selected_cities : list string) (data : filtered_data) :
  NoDup (map cust_customer_id df_customers) ->
  get_filtered_data df_orders df_customers df_order_items df_order_payments
    df_order_reviews (first :: last :: rest) selected_states selected_cities
  = Returned data ->
  map lo_order (filtered_orders data)
  = filter (fun o =>
              existsb (fun c => String.eqb (cust_customer_id c) (customer_id o))
                      (filter (fun c => str_in (customer_state c) selected_states
                                        && str_in (customer_city c) selected_cities)
                              df_customers))
           (filter (fun o => date_in_range first last (order_purchase_timestamp o))
                   df_orders)
  /\ (NoDup (map order_id df_orders) ->
      NoDup (map (fun l => order_id (lo_order l)) (filtered_orders data))).
Proof.
  intros Hnd Hrun.
  unfold get_filtered_data, tuple_item in Hrun. cbn [nth_error] in Hrun.
  injection Hrun as <-. cbn [filtered_orders].
  assert (Hmap : forall orders,
             map lo_order (flat_map (fun o => located_rows_of o
                 (filter (fun c => str_in (customer_state c) selected_states
                                   && str_in (customer_city c) selected_cities)
                         df_customers)) orders)
             = filter (fun o =>
                 existsb (fun c => String.eqb (cust_customer_id c) (customer_id o))
                   (filter (fun c => str_in (customer_state c) selected_states
                                     && str_in (customer_city c) selected_cities)
                           df_customers)) orders).
  { intros orders. apply located_orders_once. now apply NoDup_map_filter. }
  split; [apply Hmap |].
  intros Hids.
  rewrite <- (map_map lo_order order_id), Hmap.
  now do 2 apply NoDup_map_filter.
Qed.

Lemma filter_keeps_orders_once_witness :
  exists data,
    get_filtered_data filter_orders filter_customers [] [] [] [10%Z; 20%Z]
      ["SP"%string; "RJ"%string] ["sao paulo"%string] = Returned data
    /\ NoDup (map (fun l => order_id (lo_order l)) (filtered_orders data)).
Proof.
  eexists. split; [reflexivity |].
  apply (filter_keeps_orders_once filter_orders filter_customers [] [] [] 10 20 []
           ["SP"%string; "RJ"%string] ["sao paulo"%string]).
  - simpl. repeat constructor; simpl; intuition discriminate.
  - reflexivity.
  - simpl. repeat constructor; simpl; intuition discriminate.
Defined.

End FilterEdges.

Lemma filter_nothing_selected_witness :
  exists data,
    get_filtered_data filter_orders filter_customers sample_items [] [] [10%Z; 20%Z]
      [] ["sao paulo"%string] = Returned data
    /\ filtered_orders data = [] /\ filtered_order_items data = [].
Proof.
  eexists. split; [reflexivity |].
  destruct (filter_nothing_selected filter_orders filter_customers sample_items [] []
              [10%Z; 20%Z] [] ["sao paulo"%string] _ eq_refl (or_introl eq_refl))
    as [Ho [Hi _]].
  split; [exact Ho | exact Hi].
Defined.

(** ** Sales by location *)

Section LocationFacts.

Lemma place_eqb_spec (a b : place) : place_eqb a b = true <-> a = b.
Proof.
  destruct a as [c s], b as [c' s']. unfold place_eqb. simpl.
  rewrite andb_true_iff, !String.eqb_eq. split.
  - intros [-> ->]. reflexivity.
  - intros E. inversion E. split; reflexivity.
Qed.

Context {Row Key : Type} (key : Row -> Key) (eqb : Key -> Key -> bool).
Hypothesis eqb_spec : forall a b, eqb a b = true <-> a = b.

(** A row kept by [head(1)] is a row of the table whose key was not met
    before. *)
Lemma head1_from_In (seen : list Key) (rows : list Row) (x : Row) :
  In x (head1_from key eqb seen rows) ->
  In x rows /\ existsb (eqb (key x)) seen = false.
Proof.
  revert seen. induction rows as [| y rest IH]; intros seen; simpl; [tauto |].
  destruct (existsb (eqb (key y)) seen) eqn:E.
  - intros H. apply IH in H. tauto.
  - intros [<- | H]; [tauto |].
    apply IH in H. destruct H as [Hin Hseen]. simpl in Hseen.
    apply orb_false_iff in Hseen. tauto.
Qed.

Lemma head1_from_NoDup (seen : list Key) (rows : list Row) :
  NoDup (map key (head1_from key eqb seen rows)).
Proof.
  revert seen. induction rows as [| y rest IH]; intros seen; simpl; [constructor |].
  destruct (existsb (eqb (key y)) seen) eqn:E; [apply IH |].
  simpl. constructor; [| apply IH].
  intros Hin. apply in_map_iff in Hin. destruct Hin as [z [Ez Hz]].
  apply head1_from_In in Hz. destruct Hz as [_ Hz]. simpl in Hz.
  apply orb_false_iff in Hz. destruct Hz as [Hz _].
  assert (eqb (key z) (key y) = true) by now apply eqb_spec.
  congruence.
Qed.

(** In a table in ascending order every key that was not met before has a
    kept row, and that row is not after any row of the key. *)
Lemma head1_from_first (R : Row -> Row -> Prop) (seen : list Key) (rows : list Row)
    (x : Row) :
  (forall a, R a a) -> StronglySorted R rows ->
  In x rows -> existsb (eqb (key x)) seen = false ->
  exists h, In h (head1_from key eqb seen rows) /\ key h = key x /\ R h x.
Proof.
  intros Hrefl Hs. revert seen. induction Hs as [| y rest Hs IH Hall]; intros seen Hin Hseen.
  - destruct Hin.
  - simpl. destruct (existsb (eqb (key y)) seen) eqn:E.
    + destruct Hin as [<- | Hin]; [congruence |]. now apply IH.
    + destruct Hin as [<- | Hin].
      * exists y. split; [now left |]. split; [reflexivity | apply Hrefl].
      * destruct (eqb (key x) (key y)) eqn:Exy.
        -- exists y. split; [now left |]. apply eqb_spec in Exy.
           split; [now symmetry |]. rewrite Forall_forall in Hall. now apply Hall.
        -- destruct (IH (key y :: seen) Hin) as [h [Hh Hrest]].
           { simpl. now rewrite Exy, Hseen. }
           exists h. split; [now right | exact Hrest].
Qed.

Lemma head1_from_sorted (R : Row -> Row -> Prop) (seen : list Key) (rows : list Row) :
  StronglySorted R rows -> StronglySorted R (head1_from key eqb seen rows).
Proof.
  intros Hs. revert seen. induction Hs as [| y rest Hs IH Hall]; intros seen; simpl.
  - constructor.
  - destruct (existsb (eqb (key y)) seen); [apply IH |].
    constructor; [apply IH |].
    rewrite Forall_forall in *. intros z Hz. apply Hall.
    apply head1_from_In in Hz. tauto.
Qed.

End LocationFacts.

Section LocationSales.

Local Open Scope Q_scope.

Let zip_le (a b : geolocation) : Prop :=
  (geolocation_zip_code_prefix a <= geolocation_zip_code_prefix b)%Z.

Lemma sorted_by_zip (df_geolocation : list geolocation) :
  StronglySorted zip_le
    (sort_by (fun a b => Z.leb (geolocation_zip_code_prefix a) (geolocation_zip_code_prefix b))
             df_geolocation).
Proof.
  apply Sorted_StronglySorted.
  - intros a b c Hab Hbc. unfold zip_le in *. lia.
  - eapply Sorted_weaken; [| apply sort_by_sorted].
    + intros a b H. apply Z.leb_le in H. exact H.
    + intros a b. rewrite !Z.leb_le. lia.
Qed.

Lemma data_geo_places (df_geolocation : list geolocation) :
  NoDup (map geo_place (data_geo df_geolocation)).
Proof. apply head1_from_NoDup. exact place_eqb_spec. Qed.

Lemma data_geo_rows (df_geolocation : list geolocation) (g : geolocation) :
  In g (data_geo df_geolocation) -> In g df_geolocation.
Proof.
  intros Hg. apply head1_from_In in Hg. destruct Hg as [Hg _].
  now apply sort_by_In in Hg.
Qed.

Lemma data_geo_least (df_geolocation : list geolocation) (g : geolocation) :
  In g df_geolocation ->
  exists h, In h (data_geo df_geolocation) /\ geo_place h = geo_place g
            /\ (geolocation_zip_code_prefix h <= geolocation_zip_code_prefix g)%Z.
Proof.
  intros Hg.
  apply (head1_from_first geo_place place_eqb place_eqb_spec zip_le [] _ g).
  - intros a. unfold zip_le. lia.
  - apply sorted_by_zip.
  - now apply sort_by_In.
  - reflexivity.
Qed.

Lemma same_key_same_row {Row Key : Type} (key : Row -> Key) (rows : list Row)
    (x y : Row) :
  NoDup (map key rows) -> In x rows -> In y rows -> key x = key y -> x = y.
Proof.
  induction rows as [| z rest IH]; intros Hnd Hx Hy E; [destruct Hx |].
  inversion Hnd as [| ? ? Hz Hrest]; subst.
  destruct Hx as [-> | Hx], Hy as [-> | Hy]; auto.
  - exfalso. apply Hz. rewrite E. now apply in_map.
  - exfalso. apply Hz. rewrite <- E. now apply in_map.
Qed.

(** X17. [data_geo] keeps one row of [df_geolocation] for every (city,
    state) pair that occurs in it, and no other row: the places of its rows
    are pairwise different, every row is a row of [df_geolocation], every
    place of [df_geolocation] has its row, whose zip code prefix is the
    least of the place, and the rows are in ascending order of the prefix.
    (Which of several rows with the least prefix is kept depends on the
    sort; the statement holds for each of them.) *)
Theorem data_geo_one_row_per_place (df_geolocation : list geolocation) :
  NoDup (map geo_place (data_geo df_geolocation))
  /\ (forall g, In g (data_geo df_geolocation) -> In g df_geolocation)
  /\ (forall g, In g df_geolocation ->
        exists h, In h (data_geo df_geolocation) /\ geo_place h = geo_place g
                  /\ (geolocation_zip_code_prefix h <= geolocation_zip_code_prefix g)%Z)
  /\ StronglySorted
       (fun a b => (geolocation_zip_code_prefix a <= geolocation_zip_code_prefix b)%Z)
       (data_geo df_geolocation).
Proof.
  split; [apply data_geo_places |].
  split; [apply data_geo_rows |].
  split; [apply data_geo_least |].
  unfold data_geo. apply head1_from_sorted. apply sorted_by_zip.
Qed.

(** *** The aggregates of a place *)

Lemma qsum_app (l1 l2 : list Q) : qsum (l1 ++ l2) == qsum l1 + qsum l2.
Proof.
  induction l1 as [| x rest IH].
  - change (qsum []) with 0. simpl. lra.
  - change (qsum ((x :: rest) ++ l2)) with (x + qsum (rest ++ l2)).
    change (qsum (x :: rest)) with (x + qsum rest). rewrite IH. lra.
Qed.

(** A filter on the order commutes with the merge with the items. *)
Lemma filter_merge_inner (keep : located_order -> bool) (orders : list located_order)
    (items : list order_item) :
  filter (fun li => keep (fst li)) (merge_inner orders items)
  = merge_inner (filter keep orders) items.
Proof.
  unfold merge_inner. induction orders as [| l rest IH]; simpl; [reflexivity |].
  rewrite filter_app, IH. destruct (keep l) eqn:E; simpl.
  - f_equal. apply filter_all. intros li Hli. apply in_map_iff in Hli.
    destruct Hli as [i [<- _]]. exact E.
  - rewrite filter_none; [reflexivity |]. intros li Hli. apply in_map_iff in Hli.
    destruct Hli as [i [<- _]]. exact E.
Qed.

Lemma merge_inner_total (f : order_item -> Q) (orders : list located_order)
    (items : list order_item) :
  qsum (map (fun li => f (snd li)) (merge_inner orders items))
  == qsum (map (fun l => qsum (map f (items_of_order items (lo_order l)))) orders).
Proof.
  unfold merge_inner. induction orders as [| l rest IH]; simpl; [reflexivity |].
  rewrite map_app, qsum_app, IH, map_map. cbn [snd].
  change (qsum (?x :: ?r)) with (x + qsum r). unfold items_of_order. reflexivity.
Qed.

Lemma merge_inner_ids (orders : list located_order) (items : list order_item)
    (oid : string) :
  In oid (map (fun li => order_id (lo_order (fst li))) (merge_inner orders items))
  <-> In oid (map (fun l => order_id (lo_order l)) (filter (has_items items) orders)).
Proof.
  unfold merge_inner. rewrite !in_map_iff. split.
  - intros [[l i] [E Hin]]. simpl in E. apply in_flat_map in Hin.
    destruct Hin as [l' [Hl' Hin]]. apply in_map_iff in Hin.
    destruct Hin as [i' [Epair Hi']]. inversion Epair; subst l' i'.
    apply filter_In in Hi'. exists l. split; [exact E |].
    apply filter_In. split; [exact Hl' |].
    unfold has_items. apply existsb_exists. now exists i.
  - intros [l [E Hin]]. apply filter_In in Hin. destruct Hin as [Hl Hhas].
    unfold has_items in Hhas. apply existsb_exists in Hhas. destruct Hhas as [i [Hi Ei]].
    exists (l, i). split; [exact E |]. apply in_flat_map. exists l. split; [exact Hl |].
    apply in_map. apply filter_In. now split.
Qed.

Lemma dedup_length_le {K : Type} (same : K -> K -> bool) (col : list K) :
  (List.length (dedup same col) <= List.length col)%nat.
Proof.
  induction col as [| x rest IH]; simpl; [lia |].
  destruct (existsb (same x) rest); simpl; lia.
Qed.

(** The rows of one place before the merge with the geolocations. *)
Lemma location_row_group (orders : list located_order) (items : list order_item)
    (geo : list geolocation) (r : location_sales) :
  In r (data_customers_filtered orders items geo) ->
  In (ls_place r)
     (map (fun li => order_place (fst li))
          (merge_inner (filter (fun l => String.eqb (order_status (lo_order l)) "delivered")
                               orders) items))
  /\ orders_count r
     = nunique String.eqb
         (map (fun li => order_id (lo_order (fst li)))
              (merge_inner (delivered_at orders (ls_place r)) items))
  /\ ls_total_value r
     = qsum (map (fun li => item_total_value (snd li))
                 (merge_inner (delivered_at orders (ls_place r)) items))
  /\ In (ls_geo r) geo /\ geo_place (ls_geo r) = ls_place r.
Proof.
  unfold data_customers_filtered. intros Hr.
  apply in_flat_map in Hr. destruct Hr as [g [Hg Hr]].
  apply sort_by_In in Hg. apply in_map_iff in Hg. destruct Hg as [k [<- Hk]].
  apply in_map_iff in Hr. destruct Hr as [h [<- Hh]]. cbn [fst snd] in *.
  apply filter_In in Hh. destruct Hh as [Hh Ekh]. apply place_eqb_spec in Ekh.
  apply group_keys_In in Hk; [| exact place_eqb_spec].
  rewrite (filter_merge_inner
             (fun l => String.eqb (order_status (lo_order l)) "delivered")) in *.
  cbn [ls_place orders_count ls_total_value ls_geo].
  rewrite (filter_merge_inner (fun l => place_eqb (order_place l) k)).
  unfold delivered_at. repeat split; auto.
Qed.

Lemma location_count_positive (orders : list located_order) (items : list order_item)
    (geo : list geolocation) (r : location_sales) :
  In r (data_customers_filtered orders items geo) -> (1 <= orders_count r)%Z.
Proof.
  intros Hr. destruct (location_row_group _ _ _ _ Hr) as [Hk [Hc _]].
  rewrite Hc. unfold nunique.
  apply in_map_iff in Hk. destruct Hk as [[l i] [Ek Hli]]. simpl in Ek.
  assert (Hin : In (order_id (lo_order l))
                   (dedup String.eqb
                      (map (fun li => order_id (lo_order (fst li)))
                           (merge_inner (delivered_at orders (ls_place r)) items)))).
  { apply dedup_In; [exact String.eqb_eq |].
    apply in_map_iff. exists (l, i). split; [reflexivity |].
    unfold delivered_at. rewrite <- filter_merge_inner. apply filter_In.
    split; [exact Hli |]. simpl. apply place_eqb_spec. exact Ek. }
  destruct (dedup _ _); [destruct Hin | simpl; lia].
Qed.

(** X18. Every row of [data_customers_filtered] carries the aggregates of
    its place: [total_value] is the sum, over the delivered orders of the
    place, of price plus freight of the order's items; [orders_count] is
    the number of different ids among the delivered orders of the place
    that have an item, which is at least one and at most the number of
    delivered orders of the place. *)
Theorem location_aggregates (orders : list located_order) (items : list order_item)
    (geo : list geolocation) (r : location_sales) :
  In r (data_customers_filtered orders items geo) ->
  ls_total_value r
  == qsum (map (fun l => qsum (map (fun i => price i + freight_value i)
                                   (items_of_order items (lo_order l))))
               (delivered_at orders (ls_place r)))
  /\ orders_count r
     = nunique String.eqb
         (map (fun l => order_id (lo_order l))
              (filter (has_items items) (delivered_at orders (ls_place r))))
  /\ (1 <= orders_count r <= Z.of_nat (List.length (delivered_at orders (ls_place r))))%Z.
Proof.
  intros Hr. destruct (location_row_group _ _ _ _ Hr) as [Hk [Hc [Ht _]]].
  assert (Hcount :
    orders_count r
    = nunique String.eqb
        (map (fun l => order_id (lo_order l))
             (filter (has_items items) (delivered_at orders (ls_place r))))).
  { rewrite Hc. unfold nunique. f_equal.
    apply dedup_same_entries; [exact String.eqb_eq |].
    intros oid. apply merge_inner_ids. }
  split; [| split; [exact Hcount |]].
  - rewrite Ht. apply (merge_inner_total item_total_value).
  - split; [now apply (location_count_positive orders items geo) |].
    rewrite Hcount. unfold nunique.
    apply Nat2Z.inj_le. etransitivity; [apply dedup_length_le |].
    rewrite length_map. apply filter_length_le.
Qed.

(** *** The rows of the table *)

Lemma NoDup_flat_map_keys {G R K : Type} (group_key : G -> K) (row_key : R -> K)
    (rows_of : G -> list R) (groups : list G) :
  NoDup (map group_key groups) ->
  (forall g x, In x (rows_of g) -> row_key x = group_key g) ->
  (forall g, NoDup (map row_key (rows_of g))) ->
  NoDup (map row_key (flat_map rows_of groups)).
Proof.
  intros Hnd Hkey Hrows. induction groups as [| g rest IH]; simpl; [constructor |].
  inversion Hnd as [| ? ? Hg Hrest]; subst. rewrite map_app.
  apply NoDup_app; [apply Hrows | now apply IH |].
  intros k Hk Hk'. apply Hg.
  apply in_map_iff in Hk. destruct Hk as [x [Ex Hx]].
  apply in_map_iff in Hk'. destruct Hk' as [y [Ey Hy]].
  apply in_flat_map in Hy. destruct Hy as [g' [Hg' Hy]].
  rewrite <- (Hkey g x Hx), Ex, <- Ey, (Hkey g' y Hy). now apply in_map.
Qed.

Lemma sorted_flat_map {G R : Type} (before : G -> G -> Prop) (before' : R -> R -> Prop)
    (rows_of : G -> list R) (groups : list G) :
  (forall g x y, In x (rows_of g) -> In y (rows_of g) -> before' x y) ->
  (forall g g' x y, before g g' -> In x (rows_of g) -> In y (rows_of g') -> before' x y) ->
  StronglySorted before groups -> StronglySorted before' (flat_map rows_of groups).
Proof.
  intros Hsame Hnext. induction 1 as [| g rest Hs IH Hall]; simpl; [constructor |].
  assert (Hgen : forall part, (forall x, In x part -> In x (rows_of g)) ->
                   StronglySorted before' (part ++ flat_map rows_of rest)).
  { induction part as [| x part IHp]; intros Hpart; simpl; [exact IH |].
    constructor; [apply IHp; intros z Hz; apply Hpart; now right |].
    apply Forall_forall. intros y Hy. apply in_app_or in Hy. destruct Hy as [Hy | Hy].
    - apply (Hsame g); apply Hpart; [now left | now right].
    - apply in_flat_map in Hy. destruct Hy as [g' [Hg' Hy]].
      rewrite Forall_forall in Hall.
      apply (Hnext g g'); [now apply Hall | apply Hpart; now left | exact Hy]. }
  apply Hgen. auto.
Qed.

Lemma location_counts_descend (orders : list located_order) (items : list order_item)
    (geo : list geolocation) :
  StronglySorted (fun a b => (orders_count b <= orders_count a)%Z)
    (data_customers_filtered orders items geo).
Proof.
  unfold data_customers_filtered. cbv zeta.
  apply (sorted_flat_map (fun a b => (snd (fst b) <= snd (fst a))%Z)).
  - intros g x y Hx Hy. apply in_map_iff in Hx, Hy.
    destruct Hx as [h [<- _]], Hy as [h' [<- _]]. simpl. lia.
  - intros g g' x y Hgg Hx Hy. apply in_map_iff in Hx, Hy.
    destruct Hx as [h [<- _]], Hy as [h' [<- _]]. simpl. exact Hgg.
  - apply Sorted_StronglySorted; [intros a b c; lia |].
    eapply Sorted_weaken; [| apply sort_by_sorted].
    + intros a b H. now apply Z.leb_le in H.
    + intros a b. rewrite !Z.leb_le. lia.
Qed.

(** X19. Built on [data_geo], the table has one row per place that has
    both a delivered order with an item and a geolocation row, and no
    other: the places of its rows are pairwise different; a place occurs
    exactly under these two conditions; the geolocation merged to a row is
    a row of [df_geolocation] of the same place with the least zip code
    prefix of the place; the rows are in descending order of
    [orders_count]. *)
Theorem location_table_rows (orders : list located_order) (items : list order_item)
    (df_geolocation : list geolocation) :
  let table := data_customers_filtered orders items (data_geo df_geolocation) in
  NoDup (map ls_place table)
  /\ (forall p, In p (map ls_place table) <->
        (exists l, In l orders /\ order_place l = p
                   /\ order_status (lo_order l) = "delivered"%string
                   /\ has_items items l = true)
        /\ (exists g, In g df_geolocation /\ geo_place g = p))
  /\ (forall r, In r table ->
        In (ls_geo r) df_geolocation /\ geo_place (ls_geo r) = ls_place r
        /\ forall g, In g df_geolocation -> geo_place g = ls_place r ->
             (geolocation_zip_code_prefix (ls_geo r) <= geolocation_zip_code_prefix g)%Z)
  /\ StronglySorted (fun a b => (orders_count b <= orders_count a)%Z) table.
Proof.
  intros table.
  pose proof (data_geo_places df_geolocation) as Hnd.
  pose proof (data_geo_rows df_geolocation) as Hsub.
  pose proof (data_geo_least df_geolocation) as Hcov.
  split; [| split; [| split]].
  - unfold table, data_customers_filtered. cbv zeta.
    apply (NoDup_flat_map_keys (fun g => fst (fst g))).
    + eapply Permutation_NoDup.
      * apply Permutation_map. symmetry. apply sort_by_perm.
      * rewrite map_map. cbn [fst]. rewrite map_id.
        apply group_keys_NoDup. exact place_eqb_spec.
    + intros g x Hx. apply in_map_iff in Hx. destruct Hx as [h [<- _]]. reflexivity.
    + intros g. rewrite map_map. cbn [ls_place].
      rewrite (map_ext_in _ geo_place).
      * now apply NoDup_map_filter.
      * intros h Hh. apply filter_In in Hh. destruct Hh as [_ Hh].
        now apply place_eqb_spec in Hh.
  - intros p. split.
    + intros Hp. apply in_map_iff in Hp. destruct Hp as [r [<- Hr]].
      destruct (location_row_group _ _ _ _ Hr) as [Hk [_ [_ [Hgeo Eplace]]]].
      split.
      * apply in_map_iff in Hk. destruct Hk as [[l i] [Ek Hli]]. simpl in Ek.
        unfold merge_inner in Hli. apply in_flat_map in Hli.
        destruct Hli as [l' [Hl' Hli]]. apply in_map_iff in Hli.
        destruct Hli as [i' [Epair Hi']]. inversion Epair; subst l' i'.
        apply filter_In in Hl'. destruct Hl' as [Hl Hstatus].
        apply filter_In in Hi'. exists l. repeat split; auto.
        -- now apply String.eqb_eq.
        -- unfold has_items. apply existsb_exists. now exists i.
      * exists (ls_geo r). split; [now apply Hsub | exact Eplace].
    + intros [[l [Hl [Ep [Hstatus Hhas]]]] [g [Hg Eg]]].
      destruct (Hcov g Hg) as [h [Hh [Eh _]]].
      unfold has_items in Hhas. apply existsb_exists in Hhas. destruct Hhas as [i [Hi Ei]].
      unfold table, data_customers_filtered.
      set (delivered := filter _ (merge_inner orders items)).
      assert (Hli : In (l, i) delivered).
      { unfold delivered. apply filter_In. split; [| now apply String.eqb_eq].
        unfold merge_inner. apply in_flat_map. exists l. split; [exact Hl |].
        apply in_map. apply filter_In. now split. }
      apply in_map_iff.
      eexists {| ls_place := p; orders_count := _; ls_total_value := _; ls_geo := h |}.
      split; [reflexivity |]. apply in_flat_map.
      eexists (p, _, _). split.
      * apply sort_by_In. apply in_map_iff. exists p. split; [reflexivity |].
        apply group_keys_In; [exact place_eqb_spec |].
        apply in_map_iff. exists (l, i). split; [exact Ep | exact Hli].
      * cbn [fst snd]. apply in_map_iff. exists h. split; [reflexivity |].
        apply filter_In. split; [exact Hh |]. apply place_eqb_spec. congruence.
  - intros r Hr. destruct (location_row_group _ _ _ _ Hr) as [_ [_ [_ [Hgeo Eplace]]]].
    split; [now apply Hsub |]. split; [exact Eplace |].
    intros g Hg Eg. destruct (Hcov g Hg) as [h [Hh [Eh Hle]]].
    assert (h = ls_geo r) as <-; [| exact Hle].
    apply (same_key_same_row geo_place (data_geo df_geolocation)); auto. congruence.
  - apply location_counts_descend.
Qed.


(** *** The top-N chart *)

Lemma fold_max_upper (c : Z) (rest : list Z) :
  (c <= fold_right Z.max c rest)%Z
  /\ forall x, In x rest -> (x <= fold_right Z.max c rest)%Z.
Proof.
  induction rest as [| y rest [IHc IHr]]; simpl; [split; [lia | tauto] |].
  split; [lia |]. intros x [<- | Hx]; [lia |]. specialize (IHr x Hx). lia.
Qed.

Lemma fold_max_attained (c : Z) (rest : list Z) : In (fold_right Z.max c rest) (c :: rest).
Proof.
  induction rest as [| y rest IH]; simpl; [now left |].
  destruct (Z.max_spec y (fold_right Z.max c rest)) as [[_ E] | [_ E]]; rewrite E.
  - simpl in IH. tauto.
  - right. now left.
Qed.

Lemma head_before_rest {A : Type} (before : A -> A -> Prop) (n : nat) (l : list A) :
  StronglySorted before l ->
  forall a b, In a (firstn n l) -> In b (skipn n l) -> before a b.
Proof.
  intros Hs. revert n. induction Hs as [| x rest Hs IH Hall]; intros n a b Ha Hb.
  - rewrite firstn_nil in Ha. destruct Ha.
  - destruct n as [| n]; [destruct Ha |]. simpl in Ha, Hb.
    destruct Ha as [<- | Ha]; [| now apply (IH n)].
    rewrite Forall_forall in Hall. apply Hall.
    rewrite <- (firstn_skipn n rest). apply in_or_app. now right.
Qed.

(** X20. With a slider value of at least one, the top-N chart reports that
    there is no data exactly when the table of locations is empty;
    otherwise its bars are the first N rows of the table (all of them when
    there are fewer), no location left out has more orders than a location
    shown, and the axis of the order counts ends 1000 above the greatest
    order count of the whole table, so that every bar fits. *)
Theorem top_locations_chart (top_n_geo : nat) (orders : list located_order)
    (items : list order_item) (geo : list geolocation) :
  (1 <= top_n_geo)%nat ->
  let table := data_customers_filtered orders items geo in
  (table = [] -> top_sales_chart top_n_geo table = NoData)
  /\ (table <> [] ->
       exists bars top_count,
         top_sales_chart top_n_geo table = Chart bars (0, top_count + 1000)%Z
         /\ List.length bars = Nat.min top_n_geo (List.length table)
         /\ (exists rest, table = bars ++ rest
                          /\ forall a b, In a bars -> In b rest ->
                               (orders_count b <= orders_count a)%Z)
         /\ (forall r, In r table -> (1 <= orders_count r <= top_count)%Z)
         /\ exists r, In r bars /\ orders_count r = top_count).
Proof.
  intros Hn table. split.
  - intros ->. unfold top_sales_chart, top_n. now rewrite firstn_nil.
  - intros Hne.
    pose proof (location_counts_descend orders items geo) as Hs. fold table in Hs.
    assert (Hcount : forall r, In r table -> (1 <= orders_count r)%Z)
      by (intros r; apply location_count_positive).
    clearbody table. destruct table as [| first others]; [congruence |].
    destruct top_n_geo as [| n]; [lia |].
    unfold top_sales_chart, top_n. cbn [firstn].
    exists (first :: firstn n others), (max_orders (first :: firstn n others)).
    split; [reflexivity |]. split; [simpl; now rewrite length_firstn |].
    split; [| split].
    + exists (skipn n others). split; [simpl; now rewrite firstn_skipn |].
      intros a b Ha Hb. apply (head_before_rest _ (S n) (first :: others) Hs a b Ha Hb).
    + intros r Hr. split; [now apply Hcount |].
      unfold max_orders. cbn [map].
      destruct (fold_max_upper (orders_count first) (map orders_count (firstn n others)))
        as [Hfirst _].
      inversion Hs as [| ? ? _ Hall]; subst. rewrite Forall_forall in Hall.
      destruct Hr as [<- | Hr]; [exact Hfirst |]. specialize (Hall r Hr). simpl in Hall. lia.
    + unfold max_orders. cbn [map].
      pose proof (fold_max_attained (orders_count first)
                    (map orders_count (firstn n others))) as Hmax.
      change (orders_count first :: map orders_count (firstn n others))
        with (map orders_count (first :: firstn n others)) in Hmax.
      apply in_map_iff in Hmax. destruct Hmax as [r [Er Hr]]. now exists r.
Qed.

End LocationSales.

Lemma location_aggregates_witness :
  exists r,
    In r (data_customers_filtered sample_located sample_items (data_geo sample_geo))
    /\ ls_place r = ("rio de janeiro", "RJ")%string
    /\ orders_count r = 1%Z
    /\ ls_total_value r == 101.
Proof.
  set (table := data_customers_filtered sample_located sample_items (data_geo sample_geo)).
  set (r := nth 0 table
              {| ls_place := (EmptyString, EmptyString); orders_count := 0;
                 ls_total_value := 0;
                 ls_geo := {| geolocation_zip_code_prefix := 0; geolocation_lat := 0;
                              geolocation_lng := 0; geolocation_city := EmptyString;
                              geolocation_state := EmptyString |} |}).
  assert (Hin : In r table) by (vm_compute; left; reflexivity).
  destruct (location_aggregates sample_located sample_items (data_geo sample_geo) r Hin)
    as [Htotal [Hcount _]].
  exists r. split; [exact Hin |]. split; [reflexivity |].
  split; [rewrite Hcount | rewrite Htotal]; reflexivity.
Defined.

Lemma top_locations_chart_witness :
  (1 <= 5)%nat
  /\ exists bars top_count,
       top_sales_chart 5
         (data_customers_filtered sample_located sample_items (data_geo sample_geo))
       = Chart bars (0, top_count + 1000)%Z
       /\ List.length bars = 2%nat.
Proof.
  split; [lia |].
  destruct (proj2 (top_locations_chart 5 sample_located sample_items (data_geo sample_geo)
                     (le_S _ _ (le_S _ _ (le_S _ _ (le_S _ _ (le_n 1)))))))
    as [bars [top_count [Hchart [Hlen _]]]].
  - vm_compute. discriminate.
  - exists bars, top_count. split; [exact Hchart | exact Hlen].
Defined.

(** ** The filter widgets *)

Section WidgetProperties.

Lemma min_skipna_none (col : list (option Z)) :
  min_skipna col = None -> forall t, ~ In (Some t) col.
Proof.
  induction col as [| x rest IH]; simpl; [intros _ t [] |].
  destruct x as [a |].
  - destruct (min_skipna rest); discriminate.
  - intros H t [Hx | Hx]; [discriminate | now apply (IH H t)].
Qed.

Lemma min_skipna_some (col : list (option Z)) (m : Z) :
  min_skipna col = Some m ->
  In (Some m) col /\ forall t, In (Some t) col -> (m <= t)%Z.
Proof.
  revert m. induction col as [| x rest IH]; intros m; simpl; [discriminate |].
  destruct x as [a |].
  - destruct (min_skipna rest) as [b |] eqn:E.
    + destruct (IH b eq_refl) as [Hb Hle]. intros H. injection H as <-. split.
      * destruct (Z.min_spec a b) as [[_ ->] | [_ ->]]; [now left | now right].
      * intros t [Ht | Ht]; [injection Ht as ->; lia | specialize (Hle t Ht); lia].
    + pose proof (min_skipna_none rest E) as Hnone.
      intros H. injection H as <-. split; [now left |].
      intros t [Ht | Ht]; [injection Ht as ->; lia | now apply Hnone in Ht].
  - intros H. destruct (IH m H) as [Hm Hle]. split; [now right |].
    intros t [Ht | Ht]; [discriminate | now apply Hle].
Qed.

Lemma date_of_mono (a b : Z) : (a <= b)%Z -> (date_of a <= date_of b)%Z.
Proof. intros H. unfold date_of. apply Z.div_le_mono; [reflexivity | exact H]. Qed.

(** The sorted distinct entries of a column of strings. *)
Lemma sorted_unique_options (col : list string) :
  NoDup (sort_by String.leb (unique String.eqb col))
  /\ Sorted (fun a b => String.leb a b = true) (sort_by String.leb (unique String.eqb col))
  /\ forall s, In s (sort_by String.leb (unique String.eqb col)) <-> In s col.
Proof.
  split; [| split].
  - eapply Permutation_NoDup; [symmetry; apply sort_by_perm |].
    apply unique_from_NoDup. exact String.eqb_eq.
  - apply sort_by_sorted. exact String.leb_total.
  - intros s. rewrite sort_by_In. apply unique_In.
Qed.

Lemma default_date_range_covers (df_orders : list order) (date_range : list Z) :
  default_date_range df_orders = Some date_range ->
  exists first last,
    date_range = [first; last]
    /\ forall o t, In o df_orders -> order_purchase_timestamp o = Some t ->
         (first <= date_of t <= last)%Z.
Proof.
  unfold default_date_range.
  destruct (min_skipna _) as [lo |] eqn:Emin; [| discriminate].
  destruct (max_skipna _) as [hi |] eqn:Emax; [| discriminate].
  intros H. injection H as <-. exists (date_of lo), (date_of hi).
  split; [reflexivity |]. intros o t Ho Et.
  apply min_skipna_some in Emin. apply max_skipna_some in Emax.
  destruct Emin as [_ Hlo], Emax as [_ Hhi].
  assert (Hin : In (Some t) (map order_purchase_timestamp df_orders)).
  { rewrite <- Et. now apply in_map. }
  split; apply date_of_mono; [now apply Hlo | now apply Hhi].
Qed.

(** X21. The options of the filter widgets come from the data: the states
    offered are the states of the customers, each once, in ascending order;
    for every selection of states the cities offered are the cities of the
    customers of the selected states, each once, in ascending order; the
    default date range exists exactly when some order has a purchase
    timestamp, and then holds two dates between which the purchase date of
    every order lies. *)
Theorem filter_options (df_orders : list order) (df_customers : list customer)
    (selected_states : list string) :
  (NoDup (unique_states df_customers)
   /\ Sorted (fun a b => String.leb a b = true) (unique_states df_customers)
   /\ forall s, In s (unique_states df_customers)
                <-> exists c, In c df_customers /\ customer_state c = s)
  /\ (NoDup (unique_cities df_customers selected_states)
      /\ Sorted (fun a b => String.leb a b = true)
                (unique_cities df_customers selected_states)
      /\ forall city, In city (unique_cities df_customers selected_states)
                      <-> exists c, In c df_customers
                                    /\ In (customer_state c) selected_states
                                    /\ customer_city c = city)
  /\ (default_date_range df_orders = None
      <-> forall o, In o df_orders -> order_purchase_timestamp o = None)
  /\ (forall date_range, default_date_range df_orders = Some date_range ->
        exists first last,
          date_range = [first; last] /\ (first <= last)%Z
          /\ forall o t, In o df_orders -> order_purchase_timestamp o = Some t ->
               (first <= date_of t <= last)%Z).
Proof.
  split; [| split; [| split]].
  - unfold unique_states.
    destruct (sorted_unique_options (map customer_state df_customers)) as [Hn [Hs Hin]].
    split; [exact Hn |]. split; [exact Hs |].
    intros s. rewrite Hin, in_map_iff. split; intros [c Hc]; exists c; tauto.
  - unfold unique_cities. cbv zeta.
    destruct (sorted_unique_options
                (map customer_city
                     (filter (fun c => str_in (customer_state c) selected_states)
                             df_customers))) as [Hn [Hs Hin]].
    split; [exact Hn |]. split; [exact Hs |].
    intros city. rewrite Hin, in_map_iff. split.
    + intros [c [Ec Hc]]. apply filter_In in Hc. destruct Hc as [Hc Hsel].
      apply str_in_In in Hsel. now exists c.
    + intros [c [Hc [Hsel Ec]]]. exists c. split; [exact Ec |].
      apply filter_In. split; [exact Hc | now apply str_in_In].
  - unfold default_date_range. split.
    + intros H o Ho. destruct (order_purchase_timestamp o) as [t |] eqn:Et; [| reflexivity].
      exfalso.
      assert (Hin : In (Some t) (map order_purchase_timestamp df_orders)).
      { rewrite <- Et. now apply in_map. }
      destruct (max_skipna _) as [hi |] eqn:Emax.
      * destruct (min_skipna _) as [lo |] eqn:Emin; [discriminate |].
        now apply (min_skipna_none _ Emin t).
      * now apply (proj1 (max_skipna_none _) Emax t).
    + intros Hnone.
      assert (Emax : max_skipna (map order_purchase_timestamp df_orders) = None).
      { apply max_skipna_none. intros t Ht. apply in_map_iff in Ht.
        destruct Ht as [o [Et Ho]]. rewrite (Hnone o Ho) in Et. discriminate. }
      rewrite Emax. now destruct (min_skipna _).
  - intros date_range H.
    destruct (default_date_range_covers _ _ H) as [first [last [E Hall]]].
    exists first, last. split; [exact E |]. split; [| exact Hall].
    unfold default_date_range in H.
    destruct (min_skipna _) as [lo |] eqn:Emin; [| discriminate].
    apply min_skipna_some in Emin. destruct Emin as [Hlo _].
    apply in_map_iff in Hlo. destruct Hlo as [o [Et Ho]].
    specialize (Hall o lo Ho Et). lia.
Qed.

(** X22. With the default selections (the default date range, all states
    and all cities offered) [get_filtered_data] returns and drops nothing
    but what cannot be placed: its orders are the orders that have a
    purchase timestamp, each merged with the customers of its customer id,
    and its items are the items of such orders that have a customer. *)
Theorem default_selection_keeps_all (df_orders : list order) (df_customers : list customer)
    (df_order_items : list order_item) (df_order_payments : list payment)
    (df_order_reviews : list review) (date_range : list Z) :
  default_date_range df_orders = Some date_range ->
  exists data,
    get_filtered_data df_orders df_customers df_order_items df_order_payments
      df_order_reviews date_range (unique_states df_customers)
      (unique_cities df_customers (unique_states df_customers))
    = Returned data
    /\ filtered_orders data
       = flat_map (fun o => located_rows_of o df_customers) (filter dated df_orders)
    /\ forall i, In i (filtered_order_items data)
                 <-> In i df_order_items
                     /\ exists o c, In o df_orders /\ dated o = true
                                    /\ In c df_customers
                                    /\ cust_customer_id c = customer_id o
                                    /\ order_id o = item_order_id i.
Proof.
  intros H. destruct (default_date_range_covers _ _ H) as [first [last [-> Hall]]].
  unfold get_filtered_data, tuple_item. cbn [nth_error].
  eexists. split; [reflexivity |]. cbn [filtered_orders filtered_order_items].
  assert (Hcustomers :
    filter (fun c => str_in (customer_state c) (unique_states df_customers)
                     && str_in (customer_city c)
                          (unique_cities df_customers (unique_states df_customers)))
           df_customers = df_customers).
  { apply filter_all. intros c Hc.
    assert (Hs : In (customer_state c) (unique_states df_customers)).
    { apply sorted_unique_options. now apply in_map. }
    apply andb_true_iff. split; apply str_in_In; [exact Hs |].
    apply sorted_unique_options. apply in_map. apply filter_In.
    split; [exact Hc | now apply str_in_In]. }
  assert (Horders :
    filter (fun o => date_in_range first last (order_purchase_timestamp o)) df_orders
    = filter dated df_orders).
  { apply filter_ext_in. intros o Ho. unfold dated, date_in_range.
    destruct (order_purchase_timestamp o) as [t |] eqn:Et; [| reflexivity].
    specialize (Hall o t Ho Et). apply andb_true_iff. split; apply Z.leb_le; lia. }
  rewrite Hcustomers, Horders. split; [reflexivity |].
  intros i. rewrite isin_filter. split.
  - intros [Hi [l [Hl El]]]. split; [exact Hi |].
    apply in_flat_map in Hl. destruct Hl as [o [Ho Hl]].
    apply filter_In in Ho. destruct Ho as [Ho Hd].
    apply located_rows_of_In in Hl. destruct Hl as [Elo [c [Hc [Hid _]]]].
    exists o, c. rewrite Elo in El. repeat split; assumption.
  - intros [Hi [o [c [Ho [Hd [Hc [Hid El]]]]]]]. split; [exact Hi |].
    exists {| lo_order := o; lo_city := customer_city c; lo_state := customer_state c |}.
    split; [| exact El]. apply in_flat_map. exists o. split.
    + apply filter_In. now split.
    + apply located_rows_of_In. split; [reflexivity |]. exists c. repeat split; assumption.
Qed.

End WidgetProperties.

Lemma default_selection_keeps_all_witness :
  exists data,
    get_filtered_data filter_orders filter_customers sample_items [] []
      [10%Z; 20%Z] (unique_states filter_customers)
      (unique_cities filter_customers (unique_states filter_customers))
    = Returned data
    /\ List.length (filtered_orders data) = 3%nat.
Proof.
  destruct (default_selection_keeps_all filter_orders filter_customers sample_items [] []
              [10%Z; 20%Z] eq_refl) as [data [Hrun [Horders _]]].
  exists data. split; [exact Hrun |]. rewrite Horders. reflexivity.
Defined.

(** ** The distribution charts *)

Section ValueCounts.

Context {K : Type} (eqb : K -> K -> bool).
Hypothesis eqb_spec : forall a b, eqb a b = true <-> a = b.

Lemma dropna_In (col : list (option K)) (k : K) : In k (dropna col) <-> In (Some k) col.
Proof.
  unfold dropna. rewrite in_flat_map. split.
  - intros [[x |] [Hv Hk]]; [| destruct Hk].
    destruct Hk as [<- | []]. exact Hv.
  - intros H. exists (Some k). split; [exact H | now left].
Qed.

Lemma dropna_total {Row : Type} (value : Row -> K) (rows : list Row) :
  dropna (map (fun r => Some (value r)) rows) = map value rows.
Proof.
  induction rows as [| r rest IH]; [reflexivity |].
  unfold dropna in *. simpl. now rewrite IH.
Qed.

Lemma unique_entries (col : list K) (x : K) : In x (unique eqb col) <-> In x col.
Proof.
  unfold unique. rewrite unique_from_In by exact eqb_spec. simpl. tauto.
Qed.

Lemma occurrences_positive (k : K) (col : list K) :
  In k col -> (1 <= occurrences eqb k col)%Z.
Proof.
  intros Hk. unfold occurrences.
  assert (Hin : In k (filter (fun x => eqb x k) col)).
  { apply filter_In. split; [exact Hk | now apply eqb_spec]. }
  destruct (filter _ col); [destruct Hin | simpl; lia].
Qed.

(** Over keys that are pairwise different and cover the column, the
    occurrences of the keys that satisfy a condition add up to the number
    of entries that satisfy it. *)
Lemma occurrences_total_where (cond : K -> bool) (keys col : list K) :
  NoDup keys -> (forall x, In x col -> In x keys) ->
  zsum (map (fun k => occurrences eqb k col) (filter cond keys))
  = Z.of_nat (List.length (filter cond col)).
Proof.
  intros Hnd Hcover. apply inject_Z_injective.
  rewrite <- qsum_inject_Z, map_map, <- qsum_ones.
  rewrite <- (grouped_sum (fun x : K => x) eqb (fun _ => 1) eqb_spec cond keys col Hnd Hcover).
  apply qsum_map_ext. intros k. unfold occurrences. symmetry. apply qsum_ones.
Qed.

Lemma occurrences_total (keys col : list K) :
  NoDup keys -> (forall x, In x col -> In x keys) ->
  zsum (map (fun k => occurrences eqb k col) keys) = Z.of_nat (List.length col).
Proof.
  intros Hnd Hcover.
  pose proof (occurrences_total_where (fun _ => true) keys col Hnd Hcover) as H.
  now rewrite !filter_true in H.
Qed.

Lemma zsum_perm (l l' : list Z) : Permutation l l' -> zsum l = zsum l'.
Proof.
  induction 1 as [| x l l' _ IH | x y l | l l' l'' _ IH1 _ IH2]; simpl.
  - reflexivity.
  - unfold zsum in *. simpl. now rewrite IH.
  - unfold zsum. simpl. lia.
  - congruence.
Qed.

(** A table that lists, for pairwise different keys covering exactly a
    column, the occurrences of each key, is the distribution of the column;
    so is every rearrangement of it. *)
Lemma counted_keys_distribution (keys col : list K) (table : list (K * Z)) :
  NoDup keys -> (forall x, In x keys <-> In x col) ->
  Permutation (map (fun k => (k, occurrences eqb k col)) keys) table ->
  distribution_of eqb table col.
Proof.
  intros Hnd Hkeys Hperm.
  assert (Hrows : forall k n, In (k, n) table <-> In k col /\ n = occurrences eqb k col).
  { intros k n. split.
    - intros H. apply (Permutation_in _ (Permutation_sym Hperm)) in H.
      apply in_map_iff in H. destruct H as [k' [E Hk']]. inversion E; subst.
      split; [now apply Hkeys | reflexivity].
    - intros [Hk ->]. apply (Permutation_in _ Hperm).
      apply in_map_iff. exists k. split; [reflexivity | now apply Hkeys]. }
  split; [| split; [exact Hrows | split]].
  - eapply Permutation_NoDup; [apply Permutation_map, Hperm |].
    rewrite map_map. cbn [fst]. now rewrite map_id.
  - intros k n H. apply Hrows in H. destruct H as [Hk ->].
    now apply occurrences_positive.
  - rewrite <- (zsum_perm _ _ (Permutation_map snd Hperm)), map_map. cbn [snd].
    apply occurrences_total; [exact Hnd |]. intros x. apply Hkeys.
Qed.

Lemma value_counts_distribution (col : list (option K)) :
  distribution_of eqb (value_counts eqb col) (dropna col).
Proof.
  unfold value_counts. cbv zeta.
  apply (counted_keys_distribution (unique eqb (dropna col))).
  - apply unique_from_NoDup. exact eqb_spec.
  - apply unique_entries.
  - symmetry. apply sort_by_perm.
Qed.

Lemma value_counts_descend (col : list (option K)) :
  StronglySorted (fun a b : K * Z => (snd b <= snd a)%Z) (value_counts eqb col).
Proof.
  unfold value_counts. cbv zeta.
  apply Sorted_StronglySorted; [intros a b c; lia |].
  eapply Sorted_weaken; [| apply sort_by_sorted].
  - intros a b H. now apply Z.leb_le in H.
  - intros a b. rewrite !Z.leb_le. lia.
Qed.

End ValueCounts.

Section DistributionCharts.

(** X23. [status_counts] is the distribution of the order status over the
    rows of the filtered orders, and [payment_counts] that of the payment
    type over the filtered payments: no value twice, a value is listed
    exactly when it occurs, with the number of rows that carry it (at least
    one), the totals add up to the number of rows, and the rows are in
    descending order of the total. *)
Theorem status_and_payment_counts (filtered_orders : list located_order)
    (filtered_order_payments : list payment) :
  (distribution_of String.eqb (status_counts filtered_orders)
     (map (fun l => order_status (lo_order l)) filtered_orders)
   /\ StronglySorted (fun a b => (snd b <= snd a)%Z) (status_counts filtered_orders))
  /\ (distribution_of String.eqb (payment_counts filtered_order_payments)
        (map payment_type filtered_order_payments)
      /\ StronglySorted (fun a b => (snd b <= snd a)%Z)
           (payment_counts filtered_order_payments)).
Proof.
  unfold status_counts, payment_counts. split; split.
  - rewrite <- (dropna_total (fun l => order_status (lo_order l))).
    apply value_counts_distribution. exact String.eqb_eq.
  - apply value_counts_descend.
  - rewrite <- (dropna_total payment_type).
    apply value_counts_distribution. exact String.eqb_eq.
  - apply value_counts_descend.
Qed.

Lemma sorted_distinct_strict {A : Type} (key : A -> Z) (rows : list A) :
  Sorted (fun a b => (key a <= key b)%Z) rows -> NoDup (map key rows) ->
  StronglySorted (fun a b => (key a < key b)%Z) rows.
Proof.
  intros Hs Hnd. apply Sorted_StronglySorted in Hs; [| intros a b c; lia].
  induction Hs as [| x rest Hs IH Hall]; [constructor |].
  simpl in Hnd. inversion Hnd as [| ? ? Hx Hrest]; subst.
  constructor; [now apply IH |].
  rewrite Forall_forall in *. intros y Hy. specialize (Hall y Hy).
  assert (key x <> key y). { intros E. apply Hx. rewrite E. now apply in_map. }
  lia.
Qed.

(** X24. [review_counts] is the distribution of the review score over the
    filtered reviews, listed by score in ascending order: each score that
    occurs once, with the number of its reviews, and the counts add up to
    the number of reviews. *)
Theorem review_counts_by_score (filtered_order_reviews : list review) :
  distribution_of Z.eqb (review_counts filtered_order_reviews)
    (map review_score filtered_order_reviews)
  /\ StronglySorted (fun a b => (fst a < fst b)%Z) (review_counts filtered_order_reviews).
Proof.
  unfold review_counts.
  set (counts := value_counts Z.eqb (map (fun r => Some (review_score r))
                                         filtered_order_reviews)).
  assert (Hd : distribution_of Z.eqb counts (map review_score filtered_order_reviews)).
  { unfold counts. rewrite <- (dropna_total review_score).
    apply value_counts_distribution. exact Z.eqb_eq. }
  assert (Hperm : Permutation counts (sort_by (fun a b => (fst a <=? fst b)%Z) counts))
    by (symmetry; apply sort_by_perm).
  assert (Hsorted : distribution_of Z.eqb (sort_by (fun a b => (fst a <=? fst b)%Z) counts)
                      (map review_score filtered_order_reviews)).
  { destruct Hd as [Hn [Hrows [Hpos Hsum]]]. split; [| split; [| split]].
    - eapply Permutation_NoDup; [apply Permutation_map, Hperm | exact Hn].
    - intros k n. rewrite sort_by_In. apply Hrows.
    - intros k n H. apply sort_by_In in H. now apply (Hpos k).
    - rewrite <- (zsum_perm _ _ (Permutation_map snd Hperm)). exact Hsum. }
  split; [exact Hsorted |].
  apply sorted_distinct_strict; [| apply Hsorted].
  eapply Sorted_weaken; [| apply sort_by_sorted].
  - intros a b H. now apply Z.leb_le in H.
  - intros a b. rewrite !Z.leb_le. lia.
Qed.

(** *** Sales by category *)

Lemma flat_map_same {Row Out : Type} (rows_of rows_of' : Row -> list Out) (rows : list Row) :
  (forall r, In r rows -> rows_of r = rows_of' r) ->
  flat_map rows_of rows = flat_map rows_of' rows.
Proof.
  induction rows as [| r rest IH]; intros H; simpl; [reflexivity |].
  rewrite (H r (or_introl eq_refl)), IH; [reflexivity |].
  intros r' Hr'. apply H. now right.
Qed.

(** The products of the filtered items are all the left merge needs. *)
Lemma with_category_prefilter (items : list order_item) (df_products : list product) :
  with_category items (filtered_products items df_products)
  = with_category items df_products.
Proof.
  unfold with_category, filtered_products. cbv zeta.
  apply flat_map_same. intros i Hi.
  assert (E : filter (fun p => String.eqb (prod_product_id p) (product_id i))
                (filter (fun p => str_in (prod_product_id p)
                                    (unique String.eqb (map product_id items)))
                        df_products)
              = filter (fun p => String.eqb (prod_product_id p) (product_id i)) df_products).
  { induction df_products as [| p rest IH]; simpl; [reflexivity |].
    destruct (String.eqb (prod_product_id p) (product_id i)) eqn:Ep.
    - apply String.eqb_eq in Ep.
      assert (Hin : str_in (prod_product_id p) (unique String.eqb (map product_id items))
                    = true).
      { apply str_in_In, unique_In. rewrite Ep. now apply in_map. }
      rewrite Hin. simpl. rewrite (proj2 (String.eqb_eq _ _) Ep). now rewrite IH.
    - destruct (str_in _ _); simpl; [rewrite Ep |]; exact IH. }
  now rewrite E.
Qed.

Lemma with_category_keeps_items (items : list order_item) (products : list product) :
  (List.length items <= List.length (with_category items products))%nat.
Proof.
  unfold with_category. induction items as [| i rest IH]; [simpl; lia |].
  cbn [flat_map List.length]. rewrite length_app.
  assert (1 <= List.length
                 match filter (fun p => String.eqb (prod_product_id p) (product_id i))
                              products with
                 | [] => [(i, None)]
                 | found => map (fun p => (i, product_category_name p)) found
                 end)%nat.
  { destruct (filter _ products) as [| p found]; simpl; lia. }
  lia.
Qed.

Lemma one_product_per_id (products : list product) (i : order_item) :
  NoDup (map prod_product_id products) ->
  match filter (fun p => String.eqb (prod_product_id p) (product_id i)) products with
  | [] => [(i, None)]
  | found => map (fun p => (i, product_category_name p)) found
  end
  = [(i, match find (fun p => String.eqb (prod_product_id p) (product_id i)) products with
         | Some p => product_category_name p
         | None => None
         end)].
Proof.
  intros Hnd. induction products as [| p rest IH]; simpl; [reflexivity |].
  inversion Hnd as [| ? ? Hp Hrest]; subst.
  destruct (String.eqb (prod_product_id p) (product_id i)) eqn:Ep.
  - apply String.eqb_eq in Ep. rewrite filter_none; [reflexivity |].
    intros q Hq. destruct (String.eqb (prod_product_id q) (product_id i)) eqn:Eq;
      [| reflexivity].
    apply String.eqb_eq in Eq. exfalso. apply Hp. rewrite Ep, <- Eq. now apply in_map.
  - now apply IH.
Qed.

Lemma with_category_unique_ids (items : list order_item) (products : list product) :
  NoDup (map prod_product_id products) ->
  map (fun row => fillna_str "Unknown" (snd row)) (with_category items products)
  = map (category_of products) items.
Proof.
  intros Hnd. unfold with_category.
  induction items as [| i rest IH]; [reflexivity |].
  cbn [flat_map]. rewrite map_app, IH, (one_product_per_id products i Hnd).
  cbn [map snd app]. f_equal.
  unfold category_of. now destruct (find _ products).
Qed.

(** X25. No sale is left out of [category_sales]: the counts add up to at
    least the number of filtered items. When no product id occurs twice in
    [df_products], [category_sales] is the distribution of the category over
    the filtered items, where an item whose product is not in [df_products],
    or has no category, counts under ["Unknown"]; the counts then add up to
    the number of items, and the rows are in descending order of the
    count. *)
Theorem category_sales_counts_items (filtered_order_items : list order_item)
    (df_products : list product) :
  (Z.of_nat (List.length filtered_order_items)
   <= zsum (map snd (category_sales filtered_order_items df_products)))%Z
  /\ StronglySorted (fun a b => (snd b <= snd a)%Z)
       (category_sales filtered_order_items df_products)
  /\ (NoDup (map prod_product_id df_products) ->
      distribution_of String.eqb (category_sales filtered_order_items df_products)
        (map (category_of df_products) filtered_order_items)).
Proof.
  unfold category_sales. rewrite with_category_prefilter.
  pose proof (value_counts_distribution String.eqb String.eqb_eq
                (map (fun row => Some (fillna_str "Unknown" (snd row)))
                     (with_category filtered_order_items df_products))) as Hd.
  rewrite (dropna_total (fun row : order_item * option string =>
                           fillna_str "Unknown" (snd row))) in Hd.
  split; [| split].
  - destruct Hd as [_ [_ [_ Hsum]]]. rewrite Hsum, length_map.
    apply Nat2Z.inj_le. apply with_category_keeps_items.
  - apply value_counts_descend.
  - intros Hnd. now rewrite <- (with_category_unique_ids _ _ Hnd).
Qed.

(** *** The top lists *)

Lemma top_of_descending {A : Type} (count : A -> Z) (n : nat) (table : list A) :
  StronglySorted (fun a b => (count b <= count a)%Z) table ->
  List.length (firstn n table) = Nat.min n (List.length table)
  /\ table = firstn n table ++ skipn n table
  /\ forall a b, In a (firstn n table) -> In b (skipn n table) -> (count b <= count a)%Z.
Proof.
  intros Hs. split; [apply length_firstn |]. split; [now rewrite firstn_skipn |].
  intros a b Ha Hb. apply (head_before_rest _ n table Hs a b Ha Hb).
Qed.

(** X26. The two top lists show the values with the greatest counts:
    [top_categories] and [seller_order_counts] hold the first rows of their
    distribution, as many as the slider says or all when there are fewer,
    and no category, respectively seller, that is left out has a greater
    count than one that is shown; every seller shown is listed with the
    number of item rows that carry its id. *)
Theorem top_lists_show_greatest (n : nat) (filtered_order_items : list order_item)
    (df_products : list product) (seller_id : list string) :
  (let sales := category_sales filtered_order_items df_products in
   let shown := top_categories n filtered_order_items df_products in
   List.length shown = Nat.min n (List.length sales)
   /\ sales = shown ++ skipn n sales
   /\ forall a b, In a shown -> In b (skipn n sales) -> (snd b <= snd a)%Z)
  /\ (let counts := value_counts String.eqb (map Some seller_id) in
      let shown := seller_order_counts n seller_id in
      List.length shown = Nat.min n (List.length counts)
      /\ counts = shown ++ skipn n counts
      /\ (forall a b, In a shown -> In b (skipn n counts) -> (snd b <= snd a)%Z)
      /\ (forall s k, In (s, k) shown ->
            In s seller_id /\ k = occurrences String.eqb s seller_id)
      /\ (forall s, In s seller_id ->
            In (s, occurrences String.eqb s seller_id) (shown ++ skipn n counts))).
Proof.
  split.
  - cbv zeta. unfold top_categories, category_sales.
    apply (top_of_descending snd). apply value_counts_descend.
  - cbv zeta. unfold seller_order_counts.
    destruct (top_of_descending snd n (value_counts String.eqb (map Some seller_id))
                (value_counts_descend String.eqb _)) as [Hlen [Hsplit Htop]].
    pose proof (value_counts_distribution String.eqb String.eqb_eq (map Some seller_id))
      as [_ [Hrows _]].
    rewrite (dropna_total (fun s : string => s)), map_id in Hrows.
    split; [exact Hlen |]. split; [exact Hsplit |]. split; [exact Htop |]. split.
    + intros s k H. apply Hrows. rewrite Hsplit. apply in_or_app. now left.
    + intros s Hs. rewrite <- Hsplit. apply Hrows. now split.
Qed.

End DistributionCharts.

Lemma category_sales_counts_items_witness :
  NoDup (map prod_product_id sample_products)
  /\ zsum (map snd (category_sales sample_items sample_products)) = 5%Z
  /\ In ("Unknown"%string, 3%Z) (category_sales sample_items sample_products).
Proof.
  assert (Hnd : NoDup (map prod_product_id sample_products)).
  { repeat constructor; simpl; intuition discriminate. }
  destruct (category_sales_counts_items sample_items sample_products) as [_ [_ Hd]].
  destruct (Hd Hnd) as [_ [Hrows [_ Hsum]]].
  split; [exact Hnd |]. split; [rewrite Hsum; reflexivity |].
  apply Hrows. split; [vm_compute; tauto | reflexivity].
Defined.

(** ** Orders over time *)

Section OrdersOverTime.

Lemma period_keys (a : aggregation) (orders : list located_order) :
  dropna (group_col a orders)
  = map (period_of_date a) (dropna (group_col Harian orders)).
Proof.
  unfold group_col, dropna. induction orders as [| l rest IH]; [reflexivity |].
  cbn [map flat_map]. rewrite IH, map_app.
  now destruct (order_purchase_timestamp (lo_order l)).
Qed.

Lemma period_keys_count (a : aggregation) (p : Z) (orders : list located_order) :
  occurrences Z.eqb p (dropna (group_col a orders))
  = Z.of_nat (List.length (filter (in_period a p) orders)).
Proof.
  unfold occurrences, group_col, dropna, in_period. f_equal.
  induction orders as [| l rest IH]; [reflexivity |].
  cbn [map flat_map filter]. rewrite filter_app, length_app, IH.
  destruct (order_purchase_timestamp (lo_order l)) as [t |]; [| reflexivity].
  cbn [filter]. destruct (Z.eqb (period_of_date a (date_of t)) p); reflexivity.
Qed.

Lemma dated_keys (a : aggregation) (orders : list located_order) :
  List.length (dropna (group_col a orders))
  = List.length (filter (fun l => dated (lo_order l)) orders).
Proof.
  unfold group_col, dropna, dated. induction orders as [| l rest IH]; [reflexivity |].
  cbn [map flat_map filter]. rewrite length_app, IH.
  now destruct (order_purchase_timestamp (lo_order l)).
Qed.

Lemma orders_over_time_distribution (a : aggregation) (orders : list located_order) :
  distribution_of Z.eqb (orders_over_time a orders) (dropna (group_col a orders)).
Proof.
  unfold orders_over_time. cbv zeta.
  apply (counted_keys_distribution Z.eqb Z.eqb_eq
           (group_keys Z.eqb Z.leb (dropna (group_col a orders)))).
  - apply group_keys_NoDup. exact Z.eqb_eq.
  - intros x. apply group_keys_In. exact Z.eqb_eq.
  - apply Permutation_refl.
Qed.

(** X27. Under each of the three aggregations [orders_over_time] counts
    every order that has a purchase timestamp exactly once, and no other:
    the periods are listed in ascending order, none twice; a period is
    listed exactly when an order was purchased in it, with the number of
    these orders; the counts add up to the number of orders that have a
    purchase timestamp; and the count of a week or of a month is the sum of
    the daily counts of its days. *)
Theorem orders_over_time_counts (a : aggregation) (filtered_orders : list located_order) :
  let table := orders_over_time a filtered_orders in
  StronglySorted (fun r r' => (fst r < fst r')%Z) table
  /\ (forall p n, In (p, n) table
                  <-> (1 <= n)%Z
                      /\ n = Z.of_nat (List.length (filter (in_period a p) filtered_orders)))
  /\ zsum (map snd table)
     = Z.of_nat (List.length (filter (fun l => dated (lo_order l)) filtered_orders))
  /\ (forall p n, In (p, n) table ->
        n = zsum (map snd (filter (fun r => Z.eqb (period_of_date a (fst r)) p)
                                  (orders_over_time Harian filtered_orders)))).
Proof.
  intros table.
  destruct (orders_over_time_distribution a filtered_orders) as [Hnd [Hrows [Hpos Hsum]]].
  fold table in Hnd, Hrows, Hpos, Hsum.
  split; [| split; [| split]].
  - apply sorted_distinct_strict; [| exact Hnd].
    unfold table, orders_over_time. cbv zeta.
    apply (Sorted_map (fun x y => (x <= y)%Z)); [intros x y H; exact H |].
    unfold group_keys. eapply Sorted_weaken; [| apply sort_by_sorted].
    + intros x y H. now apply Z.leb_le in H.
    + intros x y. rewrite !Z.leb_le. lia.
  - intros p n. rewrite Hrows, period_keys_count. split.
    + intros [Hp ->]. split; [| reflexivity].
      rewrite <- period_keys_count. now apply occurrences_positive; [exact Z.eqb_eq |].
    + intros [Hn ->]. split; [| reflexivity].
      destruct (filter (in_period a p) filtered_orders) as [| l found] eqn:E;
        [simpl in Hn; lia |].
      assert (Hl : In l (filter (in_period a p) filtered_orders))
        by (rewrite E; now left).
      apply filter_In in Hl. destruct Hl as [Hl Hin]. unfold in_period in Hin.
      destruct (order_purchase_timestamp (lo_order l)) as [t |] eqn:Et; [| discriminate].
      apply Z.eqb_eq in Hin. apply dropna_In. unfold group_col.
      apply in_map_iff. exists l. rewrite Et. now rewrite Hin.
  - rewrite Hsum. f_equal. apply dated_keys.
  - intros p n H. apply Hrows in H. destruct H as [_ ->].
    unfold orders_over_time at 1. cbv zeta.
    rewrite (filter_map_comm (fun r : Z * Z => Z.eqb (period_of_date a (fst r)) p)).
    cbn [fst]. rewrite map_map. cbn [snd].
    set (days := dropna (group_col Harian filtered_orders)).
    pose proof (occurrences_total_where Z.eqb Z.eqb_eq
                  (fun d => Z.eqb (period_of_date a d) p)
                  (group_keys Z.eqb Z.leb days) days) as Htotal.
    unfold occurrences in Htotal at 1. rewrite Htotal.
    + rewrite period_keys. fold days. unfold occurrences.
      now rewrite filter_map_comm, length_map.
    + apply group_keys_NoDup. exact Z.eqb_eq.
    + intros x Hx. apply group_keys_In; [exact Z.eqb_eq | exact Hx].
Qed.

End OrdersOverTime.
